(** * POLYMARKET_TRADE: the decision engines of the advanced worker

    A shallow embedding of the trading kernel (lock detector, guardrails,
    leader/flip tracker, OBI calculator, regime tracker, score calculator and
    the per-asset state machine of the advanced worker) and the properties
    the specification states about them.

    Number model.  A JavaScript number is an exact rational ([Q]); rounding,
    NaN and overflow of binary64 are outside the model.  [Infinity] appears
    where the source returns it explicitly.  The regime tracker, whose
    statistics go through [Math.sqrt], is modelled over the reals ([R]).

    Time.  [Date.now()] is a read of a clock: a computation that reads the
    clock consumes the next reading of a [Clock]. *)

From Stdlib Require Import ZArith QArith Qround Qabs Qminmax Lqa Lia Bool.
From Stdlib Require Import Reals Lra.
From stdpp Require Import gmap strings list fin_maps.

Local Open Scope Q_scope.

(** ** JavaScript numbers and operators *)

Module JS.

Definition lt (x y : Q) : bool := negb (Qle_bool y x).
Definition gt (x y : Q) : bool := lt y x.
Definition le (x y : Q) : bool := Qle_bool x y.
Definition ge (x y : Q) : bool := Qle_bool y x.
Definition eq (x y : Q) : bool := Qeq_bool x y.

(** [x || d] on a number: [d] replaces a falsy [x], that is [0]. *)
Definition or (x d : Q) : Q := if eq x 0 then d else x.

(** [v || d] on a value that may be [null] or [undefined] ([None]). *)
Definition or_opt (v : option Q) (d : Q) : Q :=
  match v with Some x => or x d | None => d end.

Definition Math_abs (x : Q) : Q := Qabs x.
Definition Math_min (x y : Q) : Q := if lt y x then y else x.
Definition Math_max (x y : Q) : Q := if lt x y then y else x.
Definition Math_ceil (x : Q) : Z := Qceiling x.
(** [Math.round]: halves go up. *)
Definition Math_round (x : Q) : Z := Qfloor (x + (1 # 2)).

(** [String.prototype.toUpperCase] on ASCII letters. *)
Definition upper (a : Ascii.ascii) : Ascii.ascii :=
  let n := Ascii.nat_of_ascii a in
  if (97 <=? n)%nat && (n <=? 122)%nat then Ascii.ascii_of_nat (n - 32)
  else a.

Fixpoint toUpperCase (s : string) : string :=
  match s with
  | EmptyString => EmptyString
  | String a s => String (upper a) (toUpperCase s)
  end.

End JS.

(** ** The clock behind [Date.now()] *)

Definition Clock := nat -> Z.

Definition M (A : Type) : Type := Clock -> A * Clock.

#[export] Instance M_ret : MRet M := fun A a c => (a, c).

#[export] Instance M_bind : MBind M :=
  fun A B f m c => let '(a, c') := m c in f a c'.

Definition Date_now : M Z := fun c => (c 0%nat, fun n => c (S n)).

(** The two outcomes of a market; the source writes them ['YES'] and ['NO']. *)
Inductive side := YES | NO.

#[export] Instance side_eq_dec : EqDecision side.
Proof. solve_decision. Defined.

Record Position := mkPosition {
  yesShares : Q;
  yesCost : Q;
  noShares : Q;
  noCost : Q
}.

(** ** LockDetector (lock_detector.js) *)

Module LockDetector.

Record details := mkDetails {
  d_pnlIfYesWins : Q;
  d_pnlIfNoWins : Q;
  d_position : Position
}.

Record t := mk {
  locked : bool;
  lockTimestamp : option Z;
  lockDetails : option details
}.

Definition new : t := mk false None None.

Definition calculatePayoff (p : Position) (winner : side) : Q :=
  let totalCost := yesCost p + noCost p in
  match winner with
  | YES => let proceeds := yesShares p * 1 in proceeds - totalCost
  | NO => let proceeds := noShares p * 1 in proceeds - totalCost
  end.

Record analysis := mkAnalysis {
  a_yesShares : Q;
  a_noShares : Q;
  a_yesCost : Q;
  a_noCost : Q;
  totalCost : Q;
  totalShares : Q;
  avgYesPrice : Q;
  avgNoPrice : Q;
  pairCost : option Q;
  pnlIfYesWins : Q;
  pnlIfNoWins : Q;
  isDualLock : bool;
  isBreakeven : bool;
  yesDeficit : Q;
  noDeficit : Q;
  needsRecovery : bool;
  recoverySide : side
}.

Definition analyzePosition (p : Position) : analysis :=
  let totalCost := yesCost p + noCost p in
  let totalShares := yesShares p + noShares p in
  let avgYesPrice :=
    if JS.gt (yesShares p) 0 then yesCost p / yesShares p else 0 in
  let avgNoPrice :=
    if JS.gt (noShares p) 0 then noCost p / noShares p else 0 in
  let pnlIfYesWins := calculatePayoff p YES in
  let pnlIfNoWins := calculatePayoff p NO in
  let pairedShares := JS.Math_min (yesShares p) (noShares p) in
  let pairCost :=
    if JS.gt pairedShares 0 then Some (totalCost / pairedShares) else None in
  {| a_yesShares := yesShares p;
     a_noShares := noShares p;
     a_yesCost := yesCost p;
     a_noCost := noCost p;
     totalCost := totalCost;
     totalShares := totalShares;
     avgYesPrice := avgYesPrice;
     avgNoPrice := avgNoPrice;
     pairCost := pairCost;
     pnlIfYesWins := pnlIfYesWins;
     pnlIfNoWins := pnlIfNoWins;
     isDualLock := JS.gt pnlIfYesWins 0 && JS.gt pnlIfNoWins 0;
     isBreakeven := JS.ge pnlIfYesWins 0 && JS.ge pnlIfNoWins 0;
     yesDeficit :=
       if JS.lt pnlIfYesWins 0 then JS.Math_abs pnlIfYesWins else 0;
     noDeficit :=
       if JS.lt pnlIfNoWins 0 then JS.Math_abs pnlIfNoWins else 0;
     needsRecovery := JS.lt pnlIfYesWins 0 || JS.lt pnlIfNoWins 0;
     recoverySide := if JS.lt pnlIfYesWins pnlIfNoWins then YES else NO |}.

(** What [checkLock] returns: the analysis spread together with the
    detector's [locked] and [lockTimestamp]. *)
Record checked := mkChecked {
  c_analysis : analysis;
  c_locked : bool;
  c_lockTimestamp : option Z
}.

Definition checkLock (p : Position) (self : t) : M (checked * t) :=
  let analysis := analyzePosition p in
  self' ← (if isDualLock analysis && negb (locked self)
            then now ← Date_now;
                 mret {| locked := true;
                        lockTimestamp := Some now;
                        lockDetails :=
                          Some {| d_pnlIfYesWins := pnlIfYesWins analysis;
                                  d_pnlIfNoWins := pnlIfNoWins analysis;
                                  d_position := p |} |}
            else mret self);
  mret ({| c_analysis := analysis;
          c_locked := locked self';
          c_lockTimestamp := lockTimestamp self' |}, self').

(** A share count as [calculateRecoveryShares] returns it: an integer
    ([Math.ceil], or the literal [0]) or [Infinity]. *)
Inductive shares := Finite (n : Z) | Infinity.

Definition default_buffer : Q := 2.

Definition calculateRecoveryShares
    (deficit currentPrice : Q) (buffer : option Q) : shares :=
  let buffer := default default_buffer buffer in
  if JS.le deficit 0 then Finite 0
  else if JS.ge currentPrice 1 then Infinity
  else
    let shares := deficit / (1 - currentPrice) + buffer in
    Finite (JS.Math_ceil shares).

(** The arguments of [calculateAggressiveLock]; [targetWinnerProfit]
    defaults to 0. *)
Record aggressive_args := mkAggressiveArgs {
  winnerShares : Q;
  winnerPrice : Q;
  winnerPnl : Q;
  loserShares : Q;
  loserPrice : Q;
  loserDeficit : Q;
  targetWinnerProfit : option Q
}.

Record aggressive := mkAggressive {
  buyWinner : Z;
  buyLoser : Z;
  spread : Q;
  estimatedCost : Q
}.

(** The share deltas [dW] and [dL] of [calculateAggressiveLock], before
    rounding. *)
Definition aggressive_dW (a : aggressive_args) : Q :=
  let targetWinnerProfit := default 0 (targetWinnerProfit a) in
  let spread := 1.0 - winnerPrice a - loserPrice a in
  (loserDeficit a * loserPrice a -
   (winnerPnl a - targetWinnerProfit) * (1 - loserPrice a)) / spread.

Definition aggressive_dL (a : aggressive_args) : Q :=
  (loserDeficit a + aggressive_dW a * winnerPrice a) / (1 - loserPrice a).

(** The result is the error object ([inl]) or the orders ([inr]).  A loser
    price of exactly 1 with a positive spread, where JavaScript divides by
    zero, is outside the number model. *)
Definition calculateAggressiveLock (a : aggressive_args)
    : string + aggressive :=
  let spread := 1.0 - winnerPrice a - loserPrice a in
  if JS.le spread 0 then inl "Spread <= 0, cannot calculate"%string
  else
    let dW := aggressive_dW a in
    let dL := aggressive_dL a in
    inr {| buyWinner := Z.max 0 (JS.Math_ceil dW);
           buyLoser := Z.max 0 (JS.Math_ceil dL);
           spread := spread;
           estimatedCost := dW * winnerPrice a + dL * loserPrice a |}.

Definition reset (self : t) : t := mk false None None.

Definition getState (self : t) : bool * option Z * option details :=
  (locked self, lockTimestamp self, lockDetails self).

End LockDetector.

(** ** RollingAverage and RollingCounter (rolling_average.js) *)

Module RollingAverage.

Record sample := mkSample { timestamp : Z; value : Q }.

Record t := mk { windowMs : Z; samples : list sample }.

Definition new (windowMs : option Z) : t :=
  mk (default 90000%Z windowMs) [].

Definition cleanup (self : t) : M t :=
  now ← Date_now;
  let cutoff := (now - windowMs self)%Z in
  mret (mk (windowMs self)
           (List.filter (fun s => (cutoff <=? timestamp s)%Z) (samples self))).

(** [timestamp = Date.now()] is a default parameter: the clock is read only
    when the caller passes none. *)
Definition add (value : Q) (timestamp : option Z) (self : t) : M t :=
  ts ← match timestamp with Some ts => mret ts | None => Date_now end;
  cleanup (mk (windowMs self) (samples self ++ [mkSample ts value])).

Definition getAverage (self : t) : M (option Q * t) :=
  self ← cleanup self;
  if (length (samples self) =? 0)%nat then mret (None, self)
  else
    let sum := fold_left (fun acc s => acc + value s) (samples self) 0 in
    mret (Some (sum / inject_Z (Z.of_nat (length (samples self)))), self).

Definition getLatest (self : t) : M (option Q * t) :=
  self ← cleanup self;
  mret (value <$> last (samples self), self).

Definition getCount (self : t) : M (nat * t) :=
  self ← cleanup self;
  mret (length (samples self), self).

End RollingAverage.

Module RollingCounter.

Record t := mk { windowMs : Z; events : list Z }.

Definition new (windowMs : option Z) : t :=
  mk (default 90000%Z windowMs) [].

Definition cleanup (self : t) : M t :=
  now ← Date_now;
  let cutoff := (now - windowMs self)%Z in
  mret (mk (windowMs self)
           (List.filter (fun ts => (cutoff <=? ts)%Z) (events self))).

Definition record (timestamp : option Z) (self : t) : M t :=
  ts ← match timestamp with Some ts => mret ts | None => Date_now end;
  cleanup (mk (windowMs self) (events self ++ [ts])).

Definition getCount (self : t) : M (nat * t) :=
  self ← cleanup self;
  mret (length (events self), self).

Definition reset (self : t) : t := mk (windowMs self) [].

End RollingCounter.

(** ** LeaderTracker (leader_tracker.js) *)

Module LeaderTracker.

Record t := mk {
  windowMs : Z;
  flipCounter : RollingCounter.t;
  leaderHistory : RollingAverage.t;
  currentLeader : option side;
  pendingFlip : option side;
  pendingFlipCount : Z;
  totalFlips : Z
}.

Definition new (windowMs : option Z) : t :=
  let windowMs := default 90000%Z windowMs in
  {| windowMs := windowMs;
     flipCounter := RollingCounter.new (Some windowMs);
     leaderHistory := RollingAverage.new (Some windowMs);
     currentLeader := None;
     pendingFlip := None;
     pendingFlipCount := 0;
     totalFlips := 0 |}.

Record info := mkInfo {
  leader : option side;
  flipped : bool;
  flipCount : nat;
  i_totalFlips : Z;
  priceYes : Q;
  priceNo : Q;
  spread : Q
}.

(** Field assignments [this.f = v]. *)
Definition set_flipCounter (v : RollingCounter.t) (self : t) : t :=
  mk (windowMs self) v (leaderHistory self) (currentLeader self)
     (pendingFlip self) (pendingFlipCount self) (totalFlips self).
Definition set_leaderHistory (v : RollingAverage.t) (self : t) : t :=
  mk (windowMs self) (flipCounter self) v (currentLeader self)
     (pendingFlip self) (pendingFlipCount self) (totalFlips self).
Definition set_currentLeader (v : option side) (self : t) : t :=
  mk (windowMs self) (flipCounter self) (leaderHistory self) v
     (pendingFlip self) (pendingFlipCount self) (totalFlips self).
Definition set_pendingFlip (v : option side) (self : t) : t :=
  mk (windowMs self) (flipCounter self) (leaderHistory self)
     (currentLeader self) v (pendingFlipCount self) (totalFlips self).
Definition set_pendingFlipCount (v : Z) (self : t) : t :=
  mk (windowMs self) (flipCounter self) (leaderHistory self)
     (currentLeader self) (pendingFlip self) v (totalFlips self).
Definition set_totalFlips (v : Z) (self : t) : t :=
  mk (windowMs self) (flipCounter self) (leaderHistory self)
     (currentLeader self) (pendingFlip self) (pendingFlipCount self) v.

Definition update (priceYes priceNo : Q) (self : t) : M (info * t) :=
  now ← Date_now;
  let newLeader := if JS.gt priceYes priceNo then YES else NO in
  lh ← RollingAverage.add (if bool_decide (newLeader = YES) then 1 else -1)
                           (Some now) (leaderHistory self);
  let self := set_leaderHistory lh self in
  '(flipped, self) ←
    match currentLeader self with
    | None => mret (false, set_currentLeader (Some newLeader) self)
    | Some cur =>
        if bool_decide (newLeader ≠ cur) then
          if bool_decide (pendingFlip self = Some newLeader) then
            let self :=
              set_pendingFlipCount (pendingFlipCount self + 1)%Z self in
            if (2 <=? pendingFlipCount self)%Z then
              let self := set_currentLeader (Some newLeader) self in
              fc ← RollingCounter.record (Some now) (flipCounter self);
              let self := set_flipCounter fc self in
              let self := set_totalFlips (totalFlips self + 1)%Z self in
              let self := set_pendingFlip None self in
              let self := set_pendingFlipCount 0 self in
              mret (true, self)
            else mret (false, self)
          else
            let self := set_pendingFlip (Some newLeader) self in
            let self := set_pendingFlipCount 1 self in
            mret (false, self)
        else
          let self := set_pendingFlip None self in
          let self := set_pendingFlipCount 0 self in
          mret (false, self)
    end;
  '(count, fc) ← RollingCounter.getCount (flipCounter self);
  let self := set_flipCounter fc self in
  mret ({| leader := currentLeader self;
           flipped := flipped;
           flipCount := count;
           i_totalFlips := totalFlips self;
           priceYes := priceYes;
           priceNo := priceNo;
           spread := JS.Math_abs (priceYes - priceNo) |}, self).

Definition getFlipCount (self : t) : M (nat * t) :=
  '(count, fc) ← RollingCounter.getCount (flipCounter self);
  mret (count, set_flipCounter fc self).

Definition getLeader (self : t) : option side := currentLeader self.

Definition getLeaderBias (self : t) : M (Q * t) :=
  '(avg, lh) ← RollingAverage.getAverage (leaderHistory self);
  mret (JS.or_opt avg 0, set_leaderHistory lh self).

Definition resetForNewWindow (self : t) : t :=
  let self := set_flipCounter (RollingCounter.reset (flipCounter self)) self in
  let self := set_totalFlips 0 self in
  let self := set_pendingFlip None self in
  let self := set_pendingFlipCount 0 self in
  self.

End LeaderTracker.

(** ** OBICalculator (obi_calculator.js) *)

Module OBICalculator.

(** A book level; [l_size] is [parseFloat(level.size)], [None] when that
    is NaN. *)
Record level := mkLevel { l_price : Q; l_size : option Q }.

(** An order book as fetched: either list may be missing. *)
Record orderbook := mkBook {
  bids : option (list level);
  asks : option (list level)
}.

Record t := mk {
  windowMs : Z;
  topN : nat;
  obiYes : RollingAverage.t;
  obiNo : RollingAverage.t;
  obiCombined : RollingAverage.t
}.

Definition new (windowMs : option Z) (topN : option nat) : t :=
  let windowMs := default 90000%Z windowMs in
  {| windowMs := windowMs;
     topN := default 10%nat topN;
     obiYes := RollingAverage.new (Some windowMs);
     obiNo := RollingAverage.new (Some windowMs);
     obiCombined := RollingAverage.new (Some windowMs) |}.

Definition set_obiYes (v : RollingAverage.t) (self : t) : t :=
  mk (windowMs self) (topN self) v (obiNo self) (obiCombined self).
Definition set_obiNo (v : RollingAverage.t) (self : t) : t :=
  mk (windowMs self) (topN self) (obiYes self) v (obiCombined self).
Definition set_obiCombined (v : RollingAverage.t) (self : t) : t :=
  mk (windowMs self) (topN self) (obiYes self) (obiNo self) v.

Definition calculateOBI (bidVolume askVolume : Q) : Q :=
  let total := bidVolume + askVolume in
  if JS.eq total 0 then 0 else (bidVolume - askVolume) / total.

(** [v || 0] on a value that may be [null]. *)
Definition or0 (v : option Q) : Q := JS.or_opt v 0.

Record book_obi := mkBookObi {
  obi : Q;
  bidVolume : Q;
  askVolume : Q;
  bo_side : string
}.

Definition updateFromOrderbook
    (book : option orderbook) (side : option string) (self : t)
    : M (option book_obi * t) :=
  let side := default "YES"%string side in
  match book with
  | Some {| bids := Some bids; asks := Some asks |} =>
      let bidVol :=
        fold_left (fun sum level => sum + or0 (l_size level))
                  (take (topN self) bids) 0 in
      let askVol :=
        fold_left (fun sum level => sum + or0 (l_size level))
                  (take (topN self) asks) 0 in
      let obi := calculateOBI bidVol askVol in
      self ← (if String.eqb side "YES"
               then ra ← RollingAverage.add obi None (obiYes self);
                    mret (set_obiYes ra self)
               else ra ← RollingAverage.add obi None (obiNo self);
                    mret (set_obiNo ra self));
      '(yesLatest, ra) ← RollingAverage.getLatest (obiYes self);
      let self := set_obiYes ra self in
      let yesObi := or0 yesLatest in
      '(noLatest, ra) ← RollingAverage.getLatest (obiNo self);
      let self := set_obiNo ra self in
      let noObi := or0 noLatest in
      ra ← RollingAverage.add ((yesObi + noObi) / 2) None (obiCombined self);
      let self := set_obiCombined ra self in
      mret (Some {| obi := obi; bidVolume := bidVol; askVolume := askVol;
                    bo_side := side |}, self)
  | _ => mret (None, self)
  end.

Record price_obi := mkPriceObi {
  po_yesObi : Q;
  po_noObi : Q;
  po_combined : Q
}.

Definition updateFromPrices (priceYes priceNo : Q) (self : t)
    : M (price_obi * t) :=
  let yesImbalance := (priceYes - 0.50) * 2 in
  let noImbalance := (priceNo - 0.50) * 2 in
  ra ← RollingAverage.add yesImbalance None (obiYes self);
  let self := set_obiYes ra self in
  ra ← RollingAverage.add noImbalance None (obiNo self);
  let self := set_obiNo ra self in
  ra ← RollingAverage.add ((yesImbalance - noImbalance) / 2) None
                           (obiCombined self);
  let self := set_obiCombined ra self in
  mret ({| po_yesObi := yesImbalance;
           po_noObi := noImbalance;
           po_combined := (yesImbalance - noImbalance) / 2 |}, self).

Definition getRollingOBI (side : option string) (self : t) : M (Q * t) :=
  let side := default "YES"%string side in
  if String.eqb side "YES" then
    '(avg, ra) ← RollingAverage.getAverage (obiYes self);
    mret (or0 avg, set_obiYes ra self)
  else if String.eqb side "NO" then
    '(avg, ra) ← RollingAverage.getAverage (obiNo self);
    mret (or0 avg, set_obiNo ra self)
  else
    '(avg, ra) ← RollingAverage.getAverage (obiCombined self);
    mret (or0 avg, set_obiCombined ra self).

Definition default_threshold : Q := -0.30.

Definition isBlocking (side : option string) (threshold : option Q)
    (self : t) : M (bool * t) :=
  let threshold := default default_threshold threshold in
  '(obi, self) ← getRollingOBI side self;
  mret (JS.le obi threshold, self).

Definition reset (self : t) : t :=
  let self := set_obiYes (RollingAverage.new (Some (windowMs self))) self in
  let self := set_obiNo (RollingAverage.new (Some (windowMs self))) self in
  let self :=
    set_obiCombined (RollingAverage.new (Some (windowMs self))) self in
  self.

(** What the market data source answers to one [updateOBIFromMarket]:
    the two books ([None] when the fetch rejects) and the two prices of
    the fallback ([None] when that fetch rejects; a reply without a price
    is an inner [None]). *)
Record market := mkMarket {
  books : option (option orderbook * option orderbook);
  prices : option (option Q * option Q)
}.

Definition updateOBIFromMarket (tokenIdYes tokenIdNo : option string)
    (mkt : market) (calculator : t) : M (option string * t) :=
  '(done, calculator) ←
    match tokenIdYes, tokenIdNo, books mkt with
    | Some _, Some _, Some (yesBook, noBook) =>
        '(yesObi, calculator) ←
          updateFromOrderbook yesBook (Some "YES"%string) calculator;
        '(noObi, calculator) ←
          updateFromOrderbook noBook (Some "NO"%string) calculator;
        mret (bool_decide (is_Some yesObi ∧ is_Some noObi), calculator)
    | _, _, _ => mret (false, calculator)
    end;
  if done : bool then mret (Some "orderbook"%string, calculator)
  else
    match prices mkt with
    | Some (yesPrice, noPrice) =>
        '(_, calculator) ←
          updateFromPrices (JS.or_opt yesPrice 0.50)
                           (JS.or_opt noPrice 0.50) calculator;
        mret (Some "price-based"%string, calculator)
    | None => mret (None, calculator)
    end.

End OBICalculator.

(** ** ScoreCalculator (score_calculator.js): the return-series measures *)

Module ScoreCalculator.

(** [returns] may be missing ([null] or [undefined]). *)
Definition calculateTrendiness (returns : option (list Q)) : Q :=
  match returns with
  | None => 0
  | Some returns =>
      if (length returns =? 0)%nat then 0
      else
        let netReturn := fold_left (fun sum r => sum + r) returns 0 in
        let sumAbs :=
          fold_left (fun sum r => sum + JS.Math_abs r) returns 0 in
        if JS.eq sumAbs 0 then 0
        else JS.Math_abs netReturn / sumAbs
  end.

Definition calculateDirection (returns : option (list Q)) : Z :=
  match returns with
  | None => 0%Z
  | Some returns =>
      if (length returns =? 0)%nat then 0%Z
      else
        let net := fold_left (fun sum r => sum + r) returns 0 in
        if JS.gt net 0.0001 then 1%Z
        else if JS.lt net (-0.0001) then (-1)%Z
        else 0%Z
  end.

Module CONFIG.
Definition MICRO_WEIGHT : Q := 0.4.
Definition STABILITY_WEIGHT : Q := 0.3.
Definition MESO_WEIGHT : Q := 0.2.
Definition MACRO_WEIGHT : Q := 0.1.
Definition SCORE_YES : Q := 0.55.
Definition SCORE_HOLD : Q := 0.35.
Definition MICRO_MESO_PENALTY : Q := 0.5.
Definition MICRO_MACRO_PENALTY : Q := 0.8.
End CONFIG.

(** The [data] argument of [calculateScore]; a field that is [undefined]
    is [None] and takes the default of the destructuring. *)
Record data := mkData {
  microReturns : option (list Q);
  mesoReturns : option (list Q);
  macroReturns : option (list Q);
  volatility30m : option Q;
  netMove : option Q
}.

Inductive order := STOP | HOLD | START.

Record components := mkComponents {
  microT : Q; mesoT : Q; macroT : Q; stability : Q
}.

Record directions := mkDirections { micro : Z; meso : Z; macro : Z }.

Record result := mkResult {
  r_asset : string;
  score : Q;
  r_order : order;
  r_components : components;
  r_directions : directions;
  divergence : bool
}.

Record t := mk { lastScores : gmap string result }.

Definition new : t := mk ∅.

(** [Math.round(x * 100) / 100]. *)
Definition round2 (x : Q) : Q := inject_Z (JS.Math_round (x * 100)) / 100.

Section Sqrt.

(** [Math.sqrt], the library function: whatever number it returns. *)
Variable Math_sqrt : Q -> Q.

Definition calculateStability (netMove volatility30m : Q)
    (minutes : option Q) : Q :=
  let minutes := default 30 minutes in
  if JS.eq volatility30m 0 then 1
  else
    let stability :=
      JS.Math_abs netMove / (volatility30m * Math_sqrt minutes) in
    JS.Math_min 1.0 (stability / 0.5).

(** The value of the variable [score] of [calculateScore] once the two
    penalties have been applied. *)
Definition penalisedScore (d : data) : Q :=
  let microReturns := default [] (microReturns d) in
  let mesoReturns := default [] (mesoReturns d) in
  let macroReturns := default [] (macroReturns d) in
  let volatility30m := default 0.01 (volatility30m d) in
  let netMove := default 0 (netMove d) in
  let microT := calculateTrendiness (Some microReturns) in
  let mesoT := calculateTrendiness (Some mesoReturns) in
  let macroT := calculateTrendiness (Some macroReturns) in
  let microDir := calculateDirection (Some microReturns) in
  let mesoDir := calculateDirection (Some mesoReturns) in
  let macroDir := calculateDirection (Some macroReturns) in
  let stability := calculateStability netMove volatility30m None in
  let score :=
    microT * CONFIG.MICRO_WEIGHT +
    stability * CONFIG.STABILITY_WEIGHT +
    mesoT * CONFIG.MESO_WEIGHT +
    macroT * CONFIG.MACRO_WEIGHT in
  let score :=
    if negb (microDir =? 0)%Z && negb (mesoDir =? 0)%Z &&
       negb (microDir =? mesoDir)%Z
    then score * CONFIG.MICRO_MESO_PENALTY else score in
  let score :=
    if negb (microDir =? 0)%Z && negb (macroDir =? 0)%Z &&
       negb (microDir =? macroDir)%Z
    then score * CONFIG.MICRO_MACRO_PENALTY else score in
  score.

Definition calculateScore (asset : string) (d : data) (self : t)
    : result * t :=
  let microReturns := default [] (microReturns d) in
  let mesoReturns := default [] (mesoReturns d) in
  let macroReturns := default [] (macroReturns d) in
  let volatility30m := default 0.01 (volatility30m d) in
  let netMove := default 0 (netMove d) in
  let microT := calculateTrendiness (Some microReturns) in
  let mesoT := calculateTrendiness (Some mesoReturns) in
  let macroT := calculateTrendiness (Some macroReturns) in
  let microDir := calculateDirection (Some microReturns) in
  let mesoDir := calculateDirection (Some mesoReturns) in
  let macroDir := calculateDirection (Some macroReturns) in
  let stability := calculateStability netMove volatility30m None in
  let score := penalisedScore d in
  let order :=
    if JS.ge score CONFIG.SCORE_YES then START
    else if JS.ge score CONFIG.SCORE_HOLD then HOLD
    else STOP in
  let result :=
    {| r_asset := asset;
       score := round2 score;
       r_order := order;
       r_components :=
         {| microT := round2 microT; mesoT := round2 mesoT;
            macroT := round2 macroT; stability := round2 stability |};
       r_directions :=
         {| micro := microDir; meso := mesoDir; macro := macroDir |};
       divergence :=
         negb (microDir =? mesoDir)%Z || negb (microDir =? macroDir)%Z |} in
  (result, mk (<[asset := result]> (lastScores self))).

End Sqrt.

Definition getLastScore (asset : string) (self : t) : option result :=
  lastScores self !! asset.

End ScoreCalculator.

(** ** RegimeTracker (regime_tracker.js), over the reals *)

Module RegimeTracker.

Local Open Scope R_scope.

Definition HISTORY_SIZE : nat := 24.
Definition STEADY_THRESHOLD : R := 15 / 100.

Inductive REGIMES := STEADY | WAKING | FADING | CHOPPY.

Record entry := mkEntry { score : R; timestamp : Z }.

Record stats := mkStats { avg : R; std : R; trend : R }.

Record regime_info := mkInfo {
  regime : REGIMES;
  r_stats : stats;
  updatedAt : option Z
}.

Record t := mk {
  history : gmap string (list entry);
  regimes : gmap string regime_info
}.

Definition new : t := mk ∅ ∅.

Definition calculateStats (asset : string) (self : t) : stats :=
  let hist := default [] (history self !! asset) in
  if (length hist <? 3)%nat then {| avg := 5 / 10; std := 5 / 10; trend := 0 |}
  else
    let scores := map score hist in
    let n := length scores in
    let avg := fold_left (fun a b => a + b) scores 0 / INR n in
    let variance :=
      fold_left (fun sum s => sum + (s - avg) ^ 2) scores 0 / INR n in
    let std := sqrt variance in
    let mid := (n / 2)%nat in
    let first := take mid scores in
    let second := drop mid scores in
    let avgFirst := fold_left (fun a b => a + b) first 0 / INR (length first) in
    let avgSecond :=
      fold_left (fun a b => a + b) second 0 / INR (length second) in
    let trend := avgSecond - avgFirst in
    {| avg := avg; std := std; trend := trend |}.

Definition updateRegime (asset : string) (self : t) : M (REGIMES * t) :=
  let stats := calculateStats asset self in
  let regime :=
    if Rlt_dec (std stats) STEADY_THRESHOLD then
      if Rlt_dec (5 / 100) (trend stats) then WAKING
      else if Rlt_dec (trend stats) (- (5 / 100)) then FADING
      else STEADY
    else CHOPPY in
  now ← Date_now;
  mret (regime,
        mk (history self)
           (<[asset := {| regime := regime; r_stats := stats;
                          updatedAt := Some now |}]> (regimes self))).

Definition addScore (asset : string) (score : R) (self : t) : M t :=
  let hist := default [] (history self !! asset) in
  now ← Date_now;
  let hist := hist ++ [mkEntry score now] in
  let hist := if (HISTORY_SIZE <? length hist)%nat then tail hist else hist in
  let self := mk (<[asset := hist]> (history self)) (regimes self) in
  '(_, self) ← updateRegime asset self;
  mret self.

Definition getRegime (asset : string) (self : t) : REGIMES :=
  match regimes self !! asset with
  | Some info => regime info
  | None => CHOPPY
  end.

Definition getRegimeDetails (asset : string) (self : t) : regime_info :=
  match regimes self !! asset with
  | Some info => info
  | None => {| regime := CHOPPY;
               r_stats := {| avg := 5 / 10; std := 5 / 10; trend := 0 |};
               updatedAt := None |}
  end.

Definition isGoodToTrade (asset : string) (self : t) : bool :=
  match getRegime asset self with
  | STEADY | WAKING => true
  | _ => false
  end.

End RegimeTracker.

(** ** Guardrails (guardrails.js) *)

Module Guardrails.

Record config := mkConfig {
  RHR_THRESHOLD : Q;
  OBI_BLOCK_THRESHOLD : Q;
  FLIP_SKIP_COUNT : Q;
  FLIP_RECOVERY_COUNT : Q;
  MIN_STABILITY : Q;
  MIN_SPREAD : Q;
  MAX_SPREAD : Q;
  MAX_PAIR_COST : Q
}.

Definition CONFIG : config :=
  {| RHR_THRESHOLD := 0.10;
     OBI_BLOCK_THRESHOLD := -0.30;
     FLIP_SKIP_COUNT := 2;
     FLIP_RECOVERY_COUNT := 3;
     MIN_STABILITY := 0.6;
     MIN_SPREAD := 0.00;
     MAX_SPREAD := 0.50;
     MAX_PAIR_COST := 0.99 |}.

(** The object a sub-check returns, with the fields [checkAll] reads:
    [check], [passed], [reason], and [mode], which only the flip check
    sets.  The informational fields that echo the inputs and thresholds
    ([value], [threshold], [progress], [side], ...) are left out. *)
Record result := mkResult {
  check : string;
  passed : bool;
  mode : option string;
  reason : option string
}.

Record inputs := mkInputs {
  elapsedSec : Q;
  windowSec : option Q;
  obi : Q;
  obiSide : option string;
  flipCount : Q;
  shares : Q;
  stability : Q;
  priceYes : Q;
  priceNo : Q;
  foremanOrder : option string;
  pairCost : option Q
}.

Record results := mkResults {
  r_foreman : result;
  r_rhr : result;
  r_obi : result;
  r_flips : result;
  r_stability : result;
  r_spread : result;
  r_pairCost : result
}.

Record blocker := mkBlocker { name : string; b_reason : option string }.

Record decision := mkDecision {
  allowed : bool;
  d_mode : string;
  d_results : results;
  blockers : list blocker;
  summary : string
}.

(** [Object.entries(results)], in insertion order. *)
Definition entries (r : results) : list (string * result) :=
  [ ("foreman", r_foreman r); ("rhr", r_rhr r); ("obi", r_obi r);
    ("flips", r_flips r); ("stability", r_stability r);
    ("spread", r_spread r); ("pairCost", r_pairCost r) ]%string.

(** [Object.values(results)]. *)
Definition values (r : results) : list result := map snd (entries r).

Section Rendering.

(** How the engine prints a number: [toFixed x d] is [x.toFixed(d)] and
    [str x] the interpolation of [x] in a template literal. *)
Variable toFixed : Q -> nat -> string.
Variable str : Q -> string.

(** [this.config]. *)
Variable self : config.

(** A [windowSec] of 0, for which JavaScript computes an infinite or NaN
    progress, is outside the number model. *)
Definition checkRHR (elapsedSec : Q) (windowSec : option Q) : result :=
  let windowSec := default 900 windowSec in
  let progress := elapsedSec / windowSec in
  let passed := JS.ge progress (RHR_THRESHOLD self) in
  {| check := "RHR";
     passed := passed;
     mode := None;
     reason :=
       if passed then None
       else Some ("Only " +:+ toFixed (progress * 100) 1 +:+
                  "% of window, need " +:+
                  str (RHR_THRESHOLD self * 100) +:+ "%") |}.

Definition checkOBI (obi : Q) (side : option string) : result :=
  let side := default "YES"%string side in
  let blocking := JS.le obi (OBI_BLOCK_THRESHOLD self) in
  {| check := "OBI";
     passed := negb blocking;
     mode := None;
     reason :=
       if blocking
       then Some ("OBI " +:+ toFixed obi 2 +:+ " <= " +:+
                  str (OBI_BLOCK_THRESHOLD self) +:+ " on " +:+ side)
       else None |}.

Definition checkFlips (flipCount shares : Q) : result :=
  if JS.ge flipCount (FLIP_SKIP_COUNT self) && JS.eq shares 0 then
    {| check := "FLIPS";
       passed := false;
       mode := Some "SKIP"%string;
       reason := Some (str flipCount +:+ " flips with 0 shares = SKIP") |}
  else if JS.ge flipCount (FLIP_RECOVERY_COUNT self) && JS.gt shares 0 then
    {| check := "FLIPS";
       passed := true;
       mode := Some "RECOVERY"%string;
       reason := Some (str flipCount +:+ " flips with " +:+ str shares +:+
                       " shares = RECOVERY MODE") |}
  else
    {| check := "FLIPS";
       passed := true;
       mode := Some "NORMAL"%string;
       reason := None |}.

Definition checkStability (stability : Q) : result :=
  let passed := JS.ge stability (MIN_STABILITY self) in
  {| check := "STABILITY";
     passed := passed;
     mode := None;
     reason :=
       if passed then None
       else Some ("Stability " +:+ toFixed stability 2 +:+ " < " +:+
                  str (MIN_STABILITY self)) |}.

Definition checkSpread (priceYes priceNo : Q) : result :=
  let spread := JS.Math_abs (priceYes - priceNo) in
  let tooNarrow := JS.lt spread (MIN_SPREAD self) in
  let tooWide := JS.gt spread (MAX_SPREAD self) in
  let passed := negb tooNarrow && negb tooWide in
  {| check := "SPREAD";
     passed := passed;
     mode := None;
     reason :=
       if tooNarrow
       then Some ("Spread " +:+ toFixed spread 3 +:+ " too narrow")
       else if tooWide
       then Some ("Spread " +:+ toFixed spread 3 +:+ " too wide")
       else None |}.

Definition checkPairCost (pairCost : option Q) : result :=
  match pairCost with
  | None =>
      {| check := "PAIR_COST"; passed := true; mode := None;
         reason := None |}
  | Some pairCost =>
      let passed := JS.le pairCost (MAX_PAIR_COST self) in
      {| check := "PAIR_COST";
         passed := passed;
         mode := None;
         reason :=
           if passed then None
           else Some ("Pair cost " +:+ toFixed pairCost 3 +:+ " > " +:+
                      str (MAX_PAIR_COST self)) |}
  end.

Definition checkAll (i : inputs) : decision :=
  let windowSec := default 900 (windowSec i) in
  let obiSide := default "YES"%string (obiSide i) in
  let foremanOrder := default "START"%string (foremanOrder i) in
  let results :=
    {| r_foreman :=
         {| check := "FOREMAN";
            passed := String.eqb foremanOrder "START";
            mode := None;
            reason :=
              if negb (String.eqb foremanOrder "START")
              then Some ("Foreman says " +:+ foremanOrder)
              else None |};
       r_rhr := checkRHR (elapsedSec i) (Some windowSec);
       r_obi := checkOBI (obi i) (Some obiSide);
       r_flips := checkFlips (flipCount i) (shares i);
       r_stability := checkStability (stability i);
       r_spread := checkSpread (priceYes i) (priceNo i);
       r_pairCost := checkPairCost (pairCost i) |} in
  let allPassed := forallb passed (values results) in
  let blockers :=
    map (fun '(name, r) => mkBlocker name (reason r))
        (List.filter (fun '(_, r) => negb (passed r)) (entries results)) in
  let mode :=
    if allPassed then
      if bool_decide (mode (r_flips results) = Some "RECOVERY"%string)
      then "RECOVERY"%string else "ENTRY_ALLOWED"%string
    else "BLOCKED"%string in
  {| allowed := allPassed;
     d_mode := mode;
     d_results := results;
     blockers := blockers;
     summary :=
       if allPassed then "Entry allowed (" +:+ mode +:+ ")"
       else "Entry blocked by: " +:+
            String.concat ", " (map name blockers) |}.

End Rendering.

End Guardrails.

(** ** The exchange the worker trades on (exchange_interface.js) *)

Inductive orderType := FOK | GTC | IOC.

#[export] Instance orderType_eq_dec : EqDecision orderType.
Proof. solve_decision. Defined.

Record order := mkOrder {
  tokenId : string;
  o_side : string;
  price : Q;
  size : Q;
  type : orderType
}.

(** What [placeOrder] resolves to.  A fill carries its price, as the
    shadow exchange reports it, and possibly the filled size. *)
Inductive placed :=
| FILLED (fillPrice : Q) (size : option Q)
| KILLED
| OPEN.

(** The abstract exchange: the worker depends on [placeOrder], which may
    throw ([None]), and on the list of resting orders. *)
Class ExchangeInterface (E : Type) := {
  placeOrder : order -> E -> M (option placed * E);
  orders : E -> list order
}.

(** ** ShadowExchange (shadow_exchange.js) *)

(** The paper exchange of the worker: it fills aggressive orders against a
    fetched market price and keeps resting orders.  Order and fill ids,
    the strings [shadow-<n>] and [fill-<n>], are kept as the number [n].
    The list [filledOrders], which no method writes, and the written state
    file are left out. *)
Module ShadowExchange.

Module FEES.
Definition MAKER : Q := 0.00.
Definition TAKER : Q := 0.02.
End FEES.

Record pos := mkPos { p_size : Q; avgPrice : Q; p_cost : Q }.

(** A resting order: [{ ...order, id, status: 'OPEN', marketPrice }]. *)
Record shadowOrder := mkShadowOrder {
  so_order : order;
  so_id : Z;
  so_marketPrice : Q
}.

Record fill := mkFill {
  f_id : Z;
  f_tokenId : string;
  f_size : Q;
  f_price : Q;
  f_fee : Q;
  f_totalCost : Q;
  f_timestamp : Z
}.

Record t := mk {
  positions : gmap string pos;
  orders : list shadowOrder;
  pendingFills : list fill;
  balance : Q;
  totalFees : Q;
  orderIdCounter : Z;
  priceCache : gmap string Q;
  lastPriceFetch : Z
}.

Definition new : t := mk ∅ [] [] 100.0 0 1 ∅ 0.

Section Market.

(** [fetchClobPrice({ tokenId, side })] asked at a given time: [None] when
    it rejects, [Some None] for a reply without a price. *)
Variable fetchClobPrice : Z -> string -> string -> option (option Q).

Definition fetchRealPrice (tokenId : string) (side : option string)
    (self : t) : M (Q * t) :=
  let side := default "BUY"%string side in
  now ← Date_now;
  let cacheKey := (tokenId +:+ "-" +:+ side)%string in
  let cached := priceCache self !! cacheKey in
  if match cached with Some p => negb (JS.eq p 0) | None => false end &&
     (now - lastPriceFetch self <? 5000)%Z
  then mret (default 0 cached, self)
  else
    match fetchClobPrice now tokenId side with
    | Some result =>
        let price := JS.or_opt result 0.50 in
        mret (price,
              mk (positions self) (orders self) (pendingFills self)
                 (balance self) (totalFees self) (orderIdCounter self)
                 (<[cacheKey := price]> (priceCache self)) now)
    | None => mret (0.50, self)
    end.

(** A position that comes out with size 0, for which JavaScript divides by
    zero in [avgPrice], is outside the number model. *)
Definition executeFill (o : order) (fillPrice : Q) (isTaker : option bool)
    (self : t) : M t :=
  let isTaker := default true isTaker in
  let baseCost := fillPrice * size o in
  let feeRate := if isTaker then FEES.TAKER else FEES.MAKER in
  let fee := baseCost * feeRate in
  let totalCost := baseCost + fee in
  let tokenId := tokenId o in
  if String.eqb (JS.toUpperCase (o_side o)) "BUY" then
    let pos := default (mkPos 0 0 0) (positions self !! tokenId) in
    let newSize := p_size pos + size o in
    let newCost := p_cost pos + totalCost in
    now ← Date_now;
    mret (mk (<[tokenId := mkPos newSize (newCost / newSize) newCost]>
                (positions self))
             (orders self)
             (pendingFills self ++
              [mkFill (orderIdCounter self) tokenId (size o) fillPrice fee
                      totalCost now])
             (balance self - totalCost)
             (totalFees self + fee)
             (orderIdCounter self) (priceCache self) (lastPriceFetch self))
  else
    let netProceeds := baseCost - fee in
    let positions :=
      match positions self !! tokenId with
      | Some pos =>
          let soldCost := avgPrice pos * size o in
          let pos := mkPos (p_size pos - size o) (avgPrice pos)
                           (p_cost pos - soldCost) in
          if JS.le (p_size pos) 0 then delete tokenId (positions self)
          else <[tokenId := pos]> (positions self)
      | None => positions self
      end in
    mret (mk positions (orders self) (pendingFills self)
             (balance self + netProceeds) (totalFees self + fee)
             (orderIdCounter self) (priceCache self) (lastPriceFetch self)).

Definition placeOrder (o : order) (self : t) : M (option placed * t) :=
  '(marketPrice, self) ← fetchRealPrice (tokenId o) (Some (o_side o)) self;
  if bool_decide (type o = FOK) || bool_decide (type o = IOC) then
    let canFill :=
      if String.eqb (JS.toUpperCase (o_side o)) "BUY"
      then JS.ge (price o) marketPrice
      else JS.le (price o) marketPrice in
    if canFill then
      self ← executeFill o marketPrice None self;
      mret (Some (FILLED marketPrice None),
            mk (positions self) (orders self) (pendingFills self)
               (balance self) (totalFees self) (orderIdCounter self + 1)%Z
               (priceCache self) (lastPriceFetch self))
    else mret (Some KILLED, self)
  else
    let shadowOrder := mkShadowOrder o (orderIdCounter self) marketPrice in
    mret (Some OPEN,
          mk (positions self) (orders self ++ [shadowOrder])
             (pendingFills self) (balance self) (totalFees self)
             (orderIdCounter self + 1)%Z (priceCache self)
             (lastPriceFetch self)).

End Market.

(** [findIndex] then [splice]: the first order with that id is removed. *)
Fixpoint remove_first (orderId : Z) (l : list shadowOrder)
    : option (list shadowOrder) :=
  match l with
  | [] => None
  | o :: l =>
      if (so_id o =? orderId)%Z then Some l
      else (fun l' => o :: l') <$> remove_first orderId l
  end.

Definition cancelOrder (orderId : Z) (self : t) : bool * t :=
  match remove_first orderId (orders self) with
  | Some l =>
      (true, mk (positions self) l (pendingFills self) (balance self)
                (totalFees self) (orderIdCounter self) (priceCache self)
                (lastPriceFetch self))
  | None => (false, self)
  end.

Definition getBalance (self : t) : Q := balance self.

End ShadowExchange.

(** The shadow exchange as the exchange of the worker, for a market data
    source. *)
Definition shadowInterface
    (fetchClobPrice : Z -> string -> string -> option (option Q))
    : ExchangeInterface ShadowExchange.t :=
  {| placeOrder := ShadowExchange.placeOrder fetchClobPrice;
     orders := fun ex => map ShadowExchange.so_order
                             (ShadowExchange.orders ex) |}.

(** ** AdvancedWorker (advanced_worker.js) *)

Module Worker.

Inductive STATES :=
  IDLE | ARMED | ENTRY | LADDERING | LOCKING | LOCKED | RECOVERY | ENDGAME.

#[export] Instance STATES_eq_dec : EqDecision STATES.
Proof. solve_decision. Defined.

Module CONFIG.
Definition ENTRY_PRICE_YES : Q := 0.60.
Definition ENTRY_PRICE_NO : Q := 0.40.
Definition ENTRY_SIZE : Q := 10.
Definition LADDER_LEVELS : list Q := [0.38; 0.36; 0.34; 0.32; 0.30].
Definition LADDER_SIZE : Q := 5.
Definition MAX_GTC_ORDERS_PER_ASSET : Q := 20.
Definition MAX_PAIR_COST : Q := 1.00.
Definition PAIR_COST_BUFFER : Q := 0.02.
Definition ENDGAME_SECONDS : Q := 10.
Definition ENDGAME_PRICE : Q := 0.92.
Definition MAX_SHARES_PER_ASSET : Q := 50.
Definition MAX_SPEND_PER_ASSET : Q := 25.
End CONFIG.

(** [assetOrder.tokens]: a token id that is missing or falsy is [None]. *)
Record tokens := mkTokens { up : option string; down : option string }.

Record window := mkWindow {
  w_id : Z;
  (** [window.end] parsed to milliseconds: [None] when absent,
      [Some None] when it does not parse to a finite time. *)
  w_end : option (option Z);
  elapsed_sec : Q;
  remaining_sec : Q
}.

(** [orders.risk_caps]; a cap that is [null] or missing is [None]. *)
Record risk_caps := mkRiskCaps {
  max_shares_per_asset : option Q;
  max_notional_usd_per_asset : option Q;
  max_open_orders_per_asset : option Q
}.

Record caps := mkCaps {
  maxShares : Q;
  maxNotional : Q;
  maxOpenOrders : Q
}.

Record AssetState := mkAssetState {
  state : STATES;
  leaderTracker : LeaderTracker.t;
  obiCalculator : OBICalculator.t;
  lockDetector : LockDetector.t;
  lastWindowId : option Z;
  lastTokens : tokens;
  entryDone : bool;
  ladderDone : bool;
  position : Position
}.

Definition set_state (v : STATES) (s : AssetState) : AssetState :=
  mkAssetState v (leaderTracker s) (obiCalculator s) (lockDetector s)
    (lastWindowId s) (lastTokens s) (entryDone s) (ladderDone s) (position s).
Definition set_leaderTracker (v : LeaderTracker.t) (s : AssetState) :=
  mkAssetState (state s) v (obiCalculator s) (lockDetector s)
    (lastWindowId s) (lastTokens s) (entryDone s) (ladderDone s) (position s).
Definition set_obiCalculator (v : OBICalculator.t) (s : AssetState) :=
  mkAssetState (state s) (leaderTracker s) v (lockDetector s)
    (lastWindowId s) (lastTokens s) (entryDone s) (ladderDone s) (position s).
Definition set_lockDetector (v : LockDetector.t) (s : AssetState) :=
  mkAssetState (state s) (leaderTracker s) (obiCalculator s) v
    (lastWindowId s) (lastTokens s) (entryDone s) (ladderDone s) (position s).
Definition set_lastWindowId (v : option Z) (s : AssetState) :=
  mkAssetState (state s) (leaderTracker s) (obiCalculator s) (lockDetector s)
    v (lastTokens s) (entryDone s) (ladderDone s) (position s).
Definition set_lastTokens (v : tokens) (s : AssetState) :=
  mkAssetState (state s) (leaderTracker s) (obiCalculator s) (lockDetector s)
    (lastWindowId s) v (entryDone s) (ladderDone s) (position s).
Definition set_entryDone (v : bool) (s : AssetState) :=
  mkAssetState (state s) (leaderTracker s) (obiCalculator s) (lockDetector s)
    (lastWindowId s) (lastTokens s) v (ladderDone s) (position s).
Definition set_ladderDone (v : bool) (s : AssetState) :=
  mkAssetState (state s) (leaderTracker s) (obiCalculator s) (lockDetector s)
    (lastWindowId s) (lastTokens s) (entryDone s) v (position s).
Definition set_position (v : Position) (s : AssetState) :=
  mkAssetState (state s) (leaderTracker s) (obiCalculator s) (lockDetector s)
    (lastWindowId s) (lastTokens s) (entryDone s) (ladderDone s) v.

Definition getRiskCaps (orders : option risk_caps) : caps :=
  let caps := default (mkRiskCaps None None None) orders in
  {| maxShares :=
       default CONFIG.MAX_SHARES_PER_ASSET (max_shares_per_asset caps);
     maxNotional :=
       default CONFIG.MAX_SPEND_PER_ASSET (max_notional_usd_per_asset caps);
     maxOpenOrders :=
       default CONFIG.MAX_GTC_ORDERS_PER_ASSET
               (max_open_orders_per_asset caps) |}.

(** The [asset] and [label] arguments only feed the log line. *)
Definition canPlaceOrder (state : AssetState) (price size : Q) (caps : caps)
    : bool :=
  let currentShares :=
    JS.or (yesShares (position state)) 0 +
    JS.or (noShares (position state)) 0 in
  let currentCost :=
    JS.or (yesCost (position state)) 0 +
    JS.or (noCost (position state)) 0 in
  let orderCost := JS.or price 0 * size in
  if JS.gt (currentShares + size) (maxShares caps) then false
  else if JS.gt (currentCost + orderCost) (maxNotional caps) then false
  else true.

Definition canAddPairPosition (state : AssetState) (side : side)
    (price size : Q) (orderType : orderType) : bool :=
  let yesShares := JS.or (yesShares (position state)) 0 in
  let noShares := JS.or (noShares (position state)) 0 in
  let yesCost := JS.or (yesCost (position state)) 0 in
  let noCost := JS.or (noCost (position state)) 0 in
  let feeRate :=
    if bool_decide (orderType = FOK) || bool_decide (orderType = IOC)
    then 0.02 else 0.0 in
  let addedCost := JS.or price 0 * size * (1 + feeRate) in
  let nextYesShares :=
    if bool_decide (side = YES) then yesShares + size else yesShares in
  let nextNoShares :=
    if bool_decide (side = NO) then noShares + size else noShares in
  let nextYesCost :=
    if bool_decide (side = YES) then yesCost + addedCost else yesCost in
  let nextNoCost :=
    if bool_decide (side = NO) then noCost + addedCost else noCost in
  let pairedShares := JS.Math_min nextYesShares nextNoShares in
  if JS.le pairedShares 0 then true
  else
    let pairCost := (nextYesCost + nextNoCost) / pairedShares in
    let maxAllowed := CONFIG.MAX_PAIR_COST + CONFIG.PAIR_COST_BUFFER in
    if JS.gt pairCost maxAllowed then false else true.

Definition initialAssetState : AssetState :=
  {| state := IDLE;
     leaderTracker := LeaderTracker.new (Some 90000%Z);
     obiCalculator := OBICalculator.new (Some 90000%Z) None;
     lockDetector := LockDetector.new;
     lastWindowId := None;
     lastTokens := mkTokens None None;
     entryDone := false;
     ladderDone := false;
     position := mkPosition 0 0 0 0 |}.

(** The resolution tracker the worker registers closed windows with
    (resolution_tracker.js): pending positions keyed by window and asset. *)
Record registration := mkRegistration {
  reg_windowId : Z;
  reg_asset : string;
  reg_position : Position;
  reg_endTime : Z;
  reg_tokens : tokens;
  registeredAt : Z
}.

Definition registerPosition (windowId : Z) (asset : string)
    (position : Position) (endTime : Z) (tokens : tokens)
    (pending : gmap (Z * string) registration)
    : M (gmap (Z * string) registration) :=
  now ← Date_now;
  mret (<[(windowId, asset) :=
            mkRegistration windowId asset position endTime tokens now]>
          pending).

(** [state.position.yesShares += shares; state.position.yesCost += cost]
    and the same on the NO side. *)
Definition buy (side : side) (shares cost : Q) (p : Position) : Position :=
  match side with
  | YES => mkPosition (yesShares p + shares) (yesCost p + cost)
                      (noShares p) (noCost p)
  | NO => mkPosition (yesShares p) (yesCost p)
                     (noShares p + shares) (noCost p + cost)
  end.

(** What [processAsset] returns for the telemetry. *)
Record tick := mkTick {
  t_asset : string;
  t_state : STATES;
  t_leader : option side;
  t_flips : nat;
  t_obi : Q;
  t_position : Position;
  t_locked : bool;
  t_priceYes : Q;
  t_priceNo : Q
}.

(** What the market answers during one tick: the prices [processAsset]
    fetches ([None] when the fetch rejects) and the data of the OBI
    update. *)
Record feed := mkFeed {
  f_prices : option (option Q * option Q);
  f_market : OBICalculator.market
}.

Section AdvancedWorker.

Context {E : Type} `{ExchangeInterface E}.

(** Number printing, which only the guardrail reasons use. *)
Variable toFixed : Q -> nat -> string.
Variable str : Q -> string.

(** The worker, with the resolution tracker it shares. *)
Record t := mk {
  exchange : E;
  guardrails : Guardrails.config;
  assetState : gmap string AssetState;
  resolutionTracker : gmap (Z * string) registration
}.

Definition countOpenGtcOrders (tokenIds : list (option string)) (ex : E)
    : nat :=
  let tokens := omap (fun t => t) tokenIds in
  if (length tokens =? 0)%nat then 0%nat
  else length (List.filter
                 (fun o => bool_decide (type o = GTC) &&
                           bool_decide (tokenId o ∈ tokens))
                 (orders ex)).

Definition initAssetState (asset : string)
    (assetState : gmap string AssetState) : AssetState :=
  default initialAssetState (assetState !! asset).

Definition handleArmed (state : AssetState) (window : window)
    (leaderInfo : LeaderTracker.info) (g : Guardrails.config)
    : M AssetState :=
  '(obi, oc) ← OBICalculator.getRollingOBI (Some "YES"%string)
                                           (obiCalculator state);
  let state := set_obiCalculator oc state in
  let check :=
    Guardrails.checkAll toFixed str g
      {| Guardrails.elapsedSec := elapsed_sec window;
         Guardrails.windowSec := Some 900;
         Guardrails.obi := obi;
         Guardrails.obiSide := Some "YES"%string;
         Guardrails.flipCount :=
           inject_Z (Z.of_nat (LeaderTracker.flipCount leaderInfo));
         Guardrails.shares :=
           yesShares (position state) + noShares (position state);
         Guardrails.stability := 0.7;
         Guardrails.priceYes := LeaderTracker.priceYes leaderInfo;
         Guardrails.priceNo := LeaderTracker.priceNo leaderInfo;
         Guardrails.foremanOrder := Some "START"%string;
         Guardrails.pairCost := None |} in
  if Guardrails.allowed check then
    if String.eqb (Guardrails.d_mode check) "RECOVERY"
    then mret (set_state RECOVERY state)
    else mret (set_state ENTRY state)
  else mret state.

Definition handleEntry (state : AssetState) (assetOrder : tokens)
    (priceYes priceNo : Q) (caps : caps) (ex : E)
    : M (AssetState * E) :=
  if entryDone state then mret (set_state LADDERING state, ex)
  else
    let leader := LeaderTracker.getLeader (leaderTracker state) in
    let isYes := bool_decide (leader = Some YES) in
    let tokenId := if isYes then up assetOrder else down assetOrder in
    let entryPrice :=
      if isYes then CONFIG.ENTRY_PRICE_YES else CONFIG.ENTRY_PRICE_NO in
    let entrySide := if isYes then YES else NO in
    match tokenId with
    | None => mret (set_state LADDERING (set_entryDone true state), ex)
    | Some tokenId =>
        if negb (canPlaceOrder state entryPrice CONFIG.ENTRY_SIZE caps)
        then mret (set_state LADDERING (set_entryDone true state), ex)
        else if negb (canAddPairPosition state entrySide entryPrice
                                         CONFIG.ENTRY_SIZE FOK)
        then mret (set_state LADDERING (set_entryDone true state), ex)
        else
          '(result, ex) ←
            placeOrder {| tokenId := tokenId; o_side := "BUY";
                          price := entryPrice; size := CONFIG.ENTRY_SIZE;
                          type := FOK |} ex;
          let state :=
            match result with
            | Some (FILLED fillPrice _) =>
                set_position
                  (buy entrySide CONFIG.ENTRY_SIZE
                       (fillPrice * CONFIG.ENTRY_SIZE) (position state))
                  state
            | _ => state
            end in
          mret (set_state LADDERING (set_entryDone true state), ex)
    end.

(** The loop over [CONFIG.LADDER_LEVELS]: [break] on the open-order cap,
    [continue] on a risk rejection, a throwing [placeOrder] is caught. *)
Fixpoint placeLadder (levels : list Q) (state : AssetState)
    (ladderSide : side) (tokenId : string)
    (tokenIds : list (option string)) (caps : caps) (ex : E) : M E :=
  match levels with
  | [] => mret ex
  | price :: levels =>
      let openOrders := countOpenGtcOrders tokenIds ex in
      if JS.ge (inject_Z (Z.of_nat openOrders)) (maxOpenOrders caps)
      then mret ex
      else if negb (canPlaceOrder state price CONFIG.LADDER_SIZE caps)
      then placeLadder levels state ladderSide tokenId tokenIds caps ex
      else if negb (canAddPairPosition state ladderSide price
                                       CONFIG.LADDER_SIZE GTC)
      then placeLadder levels state ladderSide tokenId tokenIds caps ex
      else
        '(_, ex) ←
          placeOrder {| tokenId := tokenId; o_side := "BUY";
                        price := price; size := CONFIG.LADDER_SIZE;
                        type := GTC |} ex;
        placeLadder levels state ladderSide tokenId tokenIds caps ex
  end.

Definition handleLaddering (state : AssetState) (assetOrder : tokens)
    (priceYes priceNo : Q) (caps : caps) (ex : E)
    : M (AssetState * E) :=
  if ladderDone state then mret (set_state LOCKING state, ex)
  else
    let leader := LeaderTracker.getLeader (leaderTracker state) in
    let ladderSide := if bool_decide (leader = Some YES) then NO else YES in
    let tokenId :=
      if bool_decide (ladderSide = YES)
      then up assetOrder else down assetOrder in
    match tokenId with
    | None => mret (set_state LOCKING (set_ladderDone true state), ex)
    | Some tokenId =>
        let tokenIds := [up assetOrder; down assetOrder] in
        ex ← placeLadder CONFIG.LADDER_LEVELS state ladderSide tokenId
                         tokenIds caps ex;
        mret (set_state LOCKING (set_ladderDone true state), ex)
    end.

Definition handleLocking (state : AssetState) (priceYes priceNo : Q)
    : M AssetState :=
  '(analysis, ld) ←
    LockDetector.checkLock (position state) (lockDetector state);
  let state := set_lockDetector ld state in
  if LockDetector.c_locked analysis then mret (set_state LOCKED state)
  else
    let a := LockDetector.c_analysis analysis in
    if LockDetector.needsRecovery a then
      let deficit :=
        if bool_decide (LockDetector.recoverySide a = YES)
        then LockDetector.yesDeficit a else LockDetector.noDeficit a in
      if JS.gt deficit 5 then mret (set_state RECOVERY state)
      else mret state
    else mret state.

Definition handleRecovery (state : AssetState) (assetOrder : tokens)
    (priceYes priceNo : Q) (caps : caps) (ex : E)
    : M (AssetState * E) :=
  let analysis := LockDetector.analyzePosition (position state) in
  let recoverySide := LockDetector.recoverySide analysis in
  let isYes := bool_decide (recoverySide = YES) in
  let deficit :=
    if isYes then LockDetector.yesDeficit analysis
    else LockDetector.noDeficit analysis in
  let price := if isYes then priceYes else priceNo in
  match LockDetector.calculateRecoveryShares deficit price (Some 2) with
  | LockDetector.Infinity =>
      (* Infinity exceeds every share cap *)
      mret (set_state LOCKING state, ex)
  | LockDetector.Finite n =>
      let sharesNeeded := inject_Z n in
      let currentShares :=
        yesShares (position state) + noShares (position state) in
      if JS.gt (currentShares + sharesNeeded) (maxShares caps)
      then mret (set_state LOCKING state, ex)
      else
        let additionalCost := sharesNeeded * price in
        let currentCost :=
          yesCost (position state) + noCost (position state) in
        if JS.gt (currentCost + additionalCost) (maxNotional caps)
        then mret (set_state LOCKING state, ex)
        else
          let tokenId := if isYes then up assetOrder else down assetOrder in
          match tokenId with
          | Some tokenId =>
              if JS.gt sharesNeeded 0 && JS.lt sharesNeeded 50 then
                let size := JS.Math_min sharesNeeded 10 in
                if negb (canPlaceOrder state (price + 0.02) size caps)
                then mret (set_state LOCKING state, ex)
                else if negb (canAddPairPosition state recoverySide
                                                 (price + 0.02) size IOC)
                then mret (set_state LOCKING state, ex)
                else
                  '(result, ex) ←
                    placeOrder {| tokenId := tokenId; o_side := "BUY";
                                  price := price + 0.02; size := size;
                                  type := IOC |} ex;
                  let state :=
                    match result with
                    | Some (FILLED fillPrice rsize) =>
                        let filled :=
                          JS.or_opt rsize (JS.Math_min sharesNeeded 10) in
                        set_position
                          (buy recoverySide filled
                               (JS.or fillPrice price * filled)
                               (position state))
                          state
                    | _ => state
                    end in
                  mret (set_state LOCKING state, ex)
              else mret (set_state LOCKING state, ex)
          | None => mret (set_state LOCKING state, ex)
          end
  end.

(** The endgame buy changes the exchange only; [state] is read.  At a
    winner price of exactly 1 the quotient is [Infinity] and
    [Math.min(6, Infinity)] is 6. *)
Definition handleEndgame (state : AssetState) (assetOrder : tokens)
    (priceYes priceNo remainingSec : Q) (caps : caps) (ex : E) : M E :=
  let leader := LeaderTracker.getLeader (leaderTracker state) in
  let isYes := bool_decide (leader = Some YES) in
  let winnerPrice := if isYes then priceYes else priceNo in
  let winnerSide := if isYes then YES else NO in
  if JS.ge winnerPrice CONFIG.ENDGAME_PRICE then
    match (if isYes then up assetOrder else down assetOrder) with
    | Some tokenId =>
        let analysis := LockDetector.analyzePosition (position state) in
        let deficit :=
          if isYes then LockDetector.yesDeficit analysis
          else LockDetector.noDeficit analysis in
        if JS.gt deficit 0 then
          let sharesToBuy :=
            if JS.eq (1 - winnerPrice) 0 then 6
            else JS.Math_min 6
                   (inject_Z (JS.Math_ceil (deficit / (1 - winnerPrice)))) in
          if negb (canPlaceOrder state (winnerPrice + 0.02) sharesToBuy caps)
          then mret ex
          else if negb (canAddPairPosition state winnerSide
                                           (winnerPrice + 0.02)
                                           sharesToBuy IOC)
          then mret ex
          else
            '(_, ex) ←
              placeOrder {| tokenId := tokenId; o_side := "BUY";
                            price := winnerPrice + 0.02;
                            size := sharesToBuy; type := IOC |} ex;
            mret ex
        else mret ex
    | None => mret ex
    end
  else mret ex.

(** The new-window block that opens [processAsset]. *)
Definition detectNewWindow (asset : string) (assetOrder : tokens)
    (window : window) (state : AssetState)
    (rt : gmap (Z * string) registration)
    : M (AssetState * gmap (Z * string) registration) :=
  let windowId := w_id window in
  if bool_decide (Some windowId ≠ lastWindowId state) then
    rt ←
      match lastWindowId state with
      | Some last =>
          if bool_decide (last ≠ 0%Z) &&
             (JS.gt (yesShares (position state)) 0 ||
              JS.gt (noShares (position state)) 0)
          then
            endTimeMs ← match w_end window with
                         | Some (Some ms) => mret ms
                         | _ => Date_now
                         end;
            registerPosition last asset (position state) endTimeMs
                             (lastTokens state) rt
          else mret rt
      | None => mret rt
      end;
    let state := set_state ARMED state in
    let state := set_entryDone false state in
    let state := set_ladderDone false state in
    let state :=
      set_leaderTracker
        (LeaderTracker.resetForNewWindow (leaderTracker state)) state in
    let state :=
      set_lockDetector (LockDetector.reset (lockDetector state)) state in
    let state := set_lastWindowId (Some windowId) state in
    let state :=
      set_lastTokens (mkTokens (up assetOrder) (down assetOrder)) state in
    let state := set_position (mkPosition 0 0 0 0) state in
    mret (state, rt)
  else mret (state, rt).

(** The [switch (state.state)] of [processAsset]. *)
Definition dispatch (state : AssetState) (assetOrder : tokens)
    (window : window) (orders : option risk_caps)
    (leaderInfo : LeaderTracker.info) (priceYes priceNo : Q)
    (g : Guardrails.config) (ex : E) : M (AssetState * E) :=
  match Worker.state state with
  | ARMED =>
      state ← handleArmed state window leaderInfo g; mret (state, ex)
  | ENTRY =>
      handleEntry state assetOrder priceYes priceNo (getRiskCaps orders) ex
  | LADDERING =>
      handleLaddering state assetOrder priceYes priceNo
                      (getRiskCaps orders) ex
  | LOCKING =>
      state ← handleLocking state priceYes priceNo; mret (state, ex)
  | LOCKED =>
      if JS.le (remaining_sec window) CONFIG.ENDGAME_SECONDS
      then mret (set_state ENDGAME state, ex)
      else mret (state, ex)
  | RECOVERY =>
      handleRecovery state assetOrder priceYes priceNo
                     (getRiskCaps orders) ex
  | ENDGAME =>
      ex ← handleEndgame state assetOrder priceYes priceNo
                         (remaining_sec window) (getRiskCaps orders) ex;
      mret (state, ex)
  | IDLE => mret (state, ex)
  end.

(** [processAsset] up to the state machine: the new-window block, the
    price fetch and the tracker updates. *)
Definition beginTick (asset : string) (assetOrder : tokens)
    (window : window) (feed : feed) (state : AssetState)
    (rt : gmap (Z * string) registration)
    : M (AssetState * gmap (Z * string) registration *
         LeaderTracker.info * Q * Q) :=
  '(state, rt) ← detectNewWindow asset assetOrder window state rt;
  let '(priceYes, priceNo) :=
    match up assetOrder, down assetOrder, f_prices feed with
    | Some _, Some _, Some (yesData, noData) =>
        (JS.or_opt yesData 0.50, JS.or_opt noData 0.50)
    | _, _, _ => (0.50, 0.50)
    end in
  '(leaderInfo, lt) ←
    LeaderTracker.update priceYes priceNo (leaderTracker state);
  let state := set_leaderTracker lt state in
  '(_, oc) ←
    OBICalculator.updateOBIFromMarket (up assetOrder) (down assetOrder)
                                      (f_market feed) (obiCalculator state);
  let state := set_obiCalculator oc state in
  mret (state, rt, leaderInfo, priceYes, priceNo).

Definition processAsset (asset : string) (assetOrder : tokens)
    (window : window) (orders : option risk_caps) (feed : feed)
    (self : t) : M (tick * t) :=
  let state := initAssetState asset (assetState self) in
  '(state, rt, leaderInfo, priceYes, priceNo) ←
    beginTick asset assetOrder window feed state (resolutionTracker self);
  '(state, ex) ←
    dispatch state assetOrder window orders leaderInfo priceYes priceNo
             (guardrails self) (exchange self);
  '(obi, oc) ← OBICalculator.getRollingOBI (Some "YES"%string)
                                           (obiCalculator state);
  let state := set_obiCalculator oc state in
  mret ({| t_asset := asset;
           t_state := Worker.state state;
           t_leader := LeaderTracker.leader leaderInfo;
           t_flips := LeaderTracker.flipCount leaderInfo;
           t_obi := obi;
           t_position := position state;
           t_locked := LockDetector.locked (lockDetector state);
           t_priceYes := priceYes;
           t_priceNo := priceNo |},
        mk ex (guardrails self) (<[asset := state]> (assetState self)) rt).

End AdvancedWorker.

End Worker.

(** ** The 15-minute window (multi_market_resolver.js) *)

(** Times are integer milliseconds, as [Date.now()] returns them; a [Date]
    object is kept as its time in milliseconds. *)
Module MarketResolver.

Definition getCurrentWindowTimestamp : M Z :=
  now ← Date_now;
  let now := (now / 1000)%Z in
  let windowSize := (15 * 60)%Z in
  mret (now / windowSize * windowSize)%Z.

Record windowInfo := mkWindowInfo {
  windowTimestamp : Z;
  startTime : Z;
  endTime : Z;
  elapsedMs : Z;
  remainingMs : Z;
  elapsedSec : Z;
  remainingSec : Z;
  progress : Q
}.

Definition getWindowInfo : M windowInfo :=
  now ← Date_now;
  let windowMs := (15 * 60 * 1000)%Z in
  let windowStart := (now / windowMs * windowMs)%Z in
  let windowEnd := (windowStart + windowMs)%Z in
  let elapsed := (now - windowStart)%Z in
  let remaining := (windowEnd - now)%Z in
  mret {| windowTimestamp := (windowStart / 1000)%Z;
          startTime := windowStart;
          endTime := windowEnd;
          elapsedMs := elapsed;
          remainingMs := remaining;
          elapsedSec := (elapsed / 1000)%Z;
          remainingSec := (remaining / 1000)%Z;
          progress := inject_Z elapsed / inject_Z windowMs |}.

End MarketResolver.

(** ** ResolutionTracker (resolution_tracker.js) *)

(** The tracker of closed windows.  Its pending positions are the map the
    worker registers with ([Worker.registerPosition]); the statistics file
    it loads and saves is left out: [stats] is the object in memory. *)
Module ResolutionTracker.

Inductive outcome := WIN | LOSS | BREAKEVEN.

(** [stats.session] and [stats.allTime], without the start time of the
    session. *)
Record counters := mkCounters {
  wins : Z;
  losses : Z;
  breakeven : Z;
  totalPnl : Q;
  tradesEntered : Z
}.

Record traded := mkTraded {
  td_yesShares : Q;
  td_noShares : Q;
  totalCost : Q
}.

Record trade := mkTrade {
  tr_timestamp : Z;
  tr_windowId : Z;
  tr_asset : string;
  winner : string;
  result : outcome;
  pnl : Q;
  tr_position : traded
}.

Record stats := mkStats {
  session : counters;
  allTime : counters;
  history : list trade
}.

Record t := mk {
  pendingResolutions : gmap (Z * string) Worker.registration;
  r_stats : stats
}.

(** The statistics [loadStats] returns when there is no file. *)
Definition freshStats : stats :=
  {| session := mkCounters 0 0 0 0 0;
     allTime := mkCounters 0 0 0 0 0;
     history := [] |}.

Definition registerPosition (windowId : Z) (asset : string)
    (position : Position) (endTime : Z) (tokens : Worker.tokens)
    (self : t) : M t :=
  pending ← Worker.registerPosition windowId asset position endTime tokens
                                    (pendingResolutions self);
  mret (mk pending (r_stats self)).

(** [k.wins++], [k.losses++] or [k.breakeven++], then [k.totalPnl += pnl]. *)
Definition count (r : outcome) (pnl : Q) (k : counters) : counters :=
  let k :=
    match r with
    | WIN => mkCounters (wins k + 1) (losses k) (breakeven k) (totalPnl k)
                        (tradesEntered k)
    | LOSS => mkCounters (wins k) (losses k + 1) (breakeven k) (totalPnl k)
                         (tradesEntered k)
    | BREAKEVEN => mkCounters (wins k) (losses k) (breakeven k + 1)
                              (totalPnl k) (tradesEntered k)
    end in
  mkCounters (wins k) (losses k) (breakeven k) (totalPnl k + pnl)
             (tradesEntered k).

Definition resolvePosition (windowId : Z) (asset : string) (winner : string)
    (self : t) : M (option trade * t) :=
  match pendingResolutions self !! (windowId, asset) with
  | None => mret (None, self)
  | Some pending =>
      let position := Worker.reg_position pending in
      let totalCost := yesCost position + noCost position in
      let proceeds :=
        if String.eqb winner "YES" then yesShares position * 1.00
        else if String.eqb winner "NO" then noShares position * 1.00
        else 0 in
      let pnl := proceeds - totalCost in
      let result :=
        if JS.gt pnl 0.01 then WIN
        else if JS.lt pnl (-0.01) then LOSS
        else BREAKEVEN in
      let session := count result pnl (session (r_stats self)) in
      let allTime := count result pnl (allTime (r_stats self)) in
      now ← Date_now;
      let tradeResult :=
        {| tr_timestamp := now;
           tr_windowId := windowId;
           tr_asset := asset;
           winner := winner;
           result := result;
           pnl := pnl;
           tr_position :=
             {| td_yesShares := yesShares position;
                td_noShares := noShares position;
                totalCost := totalCost |} |} in
      let history := tradeResult :: history (r_stats self) in
      let history :=
        if (100 <? length history)%nat then take 100 history else history in
      mret (Some tradeResult,
            mk (delete (windowId, asset) (pendingResolutions self))
               (mkStats session allTime history))
  end.

(** [determineWinner] on the reply of the two price fetches: [None] when a
    fetch rejects, an inner [None] for a reply without a price. *)
Definition determineWinner (reply : option (option Q * option Q))
    : option string :=
  match reply with
  | None => None
  | Some (yesData, noData) =>
      let yesPrice := JS.or_opt yesData 0.50 in
      let noPrice := JS.or_opt noData 0.50 in
      if JS.ge yesPrice 0.95 then Some "YES"%string
      else if JS.ge noPrice 0.95 then Some "NO"%string
      else None
  end.

(** The numbers of [getStats]. *)
Definition totalTrades (k : counters) : Z := wins k + losses k + breakeven k.

Definition getPendingCount (self : t) : nat :=
  base.size (pendingResolutions self).

End ResolutionTracker.

(** ** Runs of calls and the vocabulary of the properties *)

(** A call on a [LockDetector] that may change it.  The other methods
    ([calculatePayoff], [analyzePosition], [calculateRecoveryShares],
    [getState]) do not assign to [this]. *)
Inductive lock_call := CheckLock (p : Position) | Reset.

Definition lock_step (k : lock_call) (self : LockDetector.t)
    : M (option LockDetector.checked * LockDetector.t) :=
  match k with
  | CheckLock p =>
      '(r, self) ← LockDetector.checkLock p self; mret (Some r, self)
  | Reset => mret (None, LockDetector.reset self)
  end.

Fixpoint lock_run (ks : list lock_call) (self : LockDetector.t)
    : M (list (option LockDetector.checked) * LockDetector.t) :=
  match ks with
  | [] => mret ([], self)
  | k :: ks =>
      '(r, self) ← lock_step k self;
      '(rs, self) ← lock_run ks self;
      mret (r :: rs, self)
  end.

(** The side an observation [(priceYes, priceNo)] shows as leading, as
    [LeaderTracker.update] determines it. *)
Definition observed (obs : Q * Q) : side :=
  if JS.gt obs.1 obs.2 then YES else NO.

Fixpoint leader_run (obs : list (Q * Q)) (self : LeaderTracker.t)
    : M (list LeaderTracker.info * LeaderTracker.t) :=
  match obs with
  | [] => mret ([], self)
  | o :: obs =>
      '(i, self) ← LeaderTracker.update o.1 o.2 self;
      '(infos, self) ← leader_run obs self;
      mret (i :: infos, self)
  end.

(** The sums the specification of trendiness speaks of: the sum of a
    return series and the sum of its absolute values. *)
Definition Qsum (rs : list Q) : Q := fold_right Qplus 0 rs.

Definition Qsum_abs (rs : list Q) : Q :=
  fold_right (fun r acc => Qabs r + acc) 0 rs.

(** What the pending-flip fields of a tracker record between two updates,
    [last] being the side the previous update observed ([None] before the
    first update): a candidate is pending exactly when the previous
    observation went against the current leader, and then it is that
    observation, counted once. *)
Definition pending_inv (t : LeaderTracker.t) (last : option side) : Prop :=
  match LeaderTracker.currentLeader t, last with
  | Some cur, Some l =>
      if decide (l = cur) then LeaderTracker.pendingFlip t = None
      else LeaderTracker.pendingFlip t = Some l /\
           LeaderTracker.pendingFlipCount t = 1%Z
  | _, _ => LeaderTracker.pendingFlip t = None
  end.

(** The statistics the specification of the regime classifier speaks of:
    mean, population standard deviation, and the trend of a history, the
    mean of its second half minus the mean of its first half, split at the
    floored midpoint. *)
Definition Rsum (l : list R) : R := fold_right Rplus 0%R l.

Definition mean (l : list R) : R := (Rsum l / INR (length l))%R.

Definition population_std (l : list R) : R :=
  sqrt (Rsum (map (fun x => (x - mean l) ^ 2)%R l) / INR (length l)).

Definition half_trend (l : list R) : R :=
  (mean (drop (length l / 2) l) - mean (take (length l / 2) l))%R.

(** The score history the tracker holds for an asset. *)
Definition scores (asset : string) (t : RegimeTracker.t) : list R :=
  map RegimeTracker.score (default [] (RegimeTracker.history t !! asset)).

(** The regime the specification assigns to a score history. *)
Definition regime_of (h : list R) : RegimeTracker.REGIMES :=
  if (length h <? 3)%nat then RegimeTracker.CHOPPY
  else if Rlt_dec (population_std h) (15 / 100) then
    if Rlt_dec (5 / 100) (half_trend h) then RegimeTracker.WAKING
    else if Rlt_dec (half_trend h) (- (5 / 100)) then RegimeTracker.FADING
    else RegimeTracker.STEADY
  else RegimeTracker.CHOPPY.

(** The statistics [st] and the regime [r] are those the specification
    gives for the score history [h]. *)
Definition classifies (h : list R) (st : RegimeTracker.stats)
    (r : RegimeTracker.REGIMES) : Prop :=
  ((length h < 3)%nat ->
   st = RegimeTracker.mkStats (5 / 10) (5 / 10) 0 /\
   r = RegimeTracker.CHOPPY) /\
  ((3 <= length h)%nat ->
   st = RegimeTracker.mkStats (mean h) (population_std h) (half_trend h) /\
   (population_std h < 15 / 100 -> 5 / 100 < half_trend h ->
    r = RegimeTracker.WAKING)%R /\
   (population_std h < 15 / 100 -> half_trend h < - (5 / 100) ->
    r = RegimeTracker.FADING)%R /\
   (population_std h < 15 / 100 ->
    - (5 / 100) <= half_trend h <= 5 / 100 ->
    r = RegimeTracker.STEADY)%R /\
   (15 / 100 <= population_std h -> r = RegimeTracker.CHOPPY)%R).

(** The per-window state of an asset right after the new-window reset for
    window [wid]. *)
Definition freshly_reset (wid : Z) (st : Worker.AssetState) : Prop :=
  Worker.state st = Worker.ARMED /\
  Worker.position st = mkPosition 0 0 0 0 /\
  Worker.entryDone st = false /\
  Worker.ladderDone st = false /\
  LeaderTracker.totalFlips (Worker.leaderTracker st) = 0%Z /\
  RollingCounter.events (LeaderTracker.flipCounter (Worker.leaderTracker st))
    = [] /\
  LockDetector.locked (Worker.lockDetector st) = false /\
  LockDetector.lockTimestamp (Worker.lockDetector st) = None /\
  LockDetector.lockDetails (Worker.lockDetector st) = None /\
  Worker.lastWindowId st = Some wid.

(** What a step that is not the new-window reset keeps of the per-window
    state: the window it belongs to, the flags once set, the lock once
    taken and the flips counted; it changes the position by a buy only, and
    it does not go back to ARMED. *)
Definition keeps_window_state (st st' : Worker.AssetState) : Prop :=
  Worker.lastWindowId st' = Worker.lastWindowId st /\
  Worker.lastTokens st' = Worker.lastTokens st /\
  (Worker.entryDone st = true -> Worker.entryDone st' = true) /\
  (Worker.ladderDone st = true -> Worker.ladderDone st' = true) /\
  (LockDetector.locked (Worker.lockDetector st) = true ->
   LockDetector.locked (Worker.lockDetector st') = true) /\
  (LeaderTracker.totalFlips (Worker.leaderTracker st) <=
   LeaderTracker.totalFlips (Worker.leaderTracker st'))%Z /\
  (Worker.state st' = Worker.ARMED -> Worker.state st = Worker.ARMED) /\
  (Worker.position st' = Worker.position st \/
   exists side shares cost,
     Worker.position st' = Worker.buy side shares cost (Worker.position st)).

(** A rolling average has no sample inside its window at time [now]. *)
Definition no_sample_in_window (ra : RollingAverage.t) (now : Z) : Prop :=
  Forall (fun s => (RollingAverage.timestamp s <
                    now - RollingAverage.windowMs ra)%Z)
         (RollingAverage.samples ra).

(** Every sample of a rolling average has its value between [lo] and
    [hi]. *)
Definition values_within (lo hi : Q) (ra : RollingAverage.t) : Prop :=
  Forall (fun s => lo <= RollingAverage.value s /\
                   RollingAverage.value s <= hi)
         (RollingAverage.samples ra).

(** The three rolling averages of an OBI calculator hold imbalances, that
    is values between -1 and 1. *)
Definition obi_in_range (o : OBICalculator.t) : Prop :=
  values_within (-1) 1 (OBICalculator.obiYes o) /\
  values_within (-1) 1 (OBICalculator.obiNo o) /\
  values_within (-1) 1 (OBICalculator.obiCombined o).

(** The sizes of a book are non-negative where they parse. *)
Definition book_sizes_nonneg (b : option OBICalculator.orderbook) : Prop :=
  forall levels,
    (b ≫= OBICalculator.bids = Some levels \/
     b ≫= OBICalculator.asks = Some levels) ->
    Forall (fun l => forall s, OBICalculator.l_size l = Some s -> 0 <= s)
           levels.

(** A call on a [LeaderTracker] that changes it: an update with a pair of
    prices, or the reset for a new window. *)
Inductive tracker_call := Observe (priceYes priceNo : Q) | NewWindow.

Definition tracker_step (k : tracker_call) (self : LeaderTracker.t)
    : M (option LeaderTracker.info * LeaderTracker.t) :=
  match k with
  | Observe priceYes priceNo =>
      '(i, self) ← LeaderTracker.update priceYes priceNo self;
      mret (Some i, self)
  | NewWindow => mret (None, LeaderTracker.resetForNewWindow self)
  end.

Fixpoint tracker_run (ks : list tracker_call) (self : LeaderTracker.t)
    : M (list (option LeaderTracker.info) * LeaderTracker.t) :=
  match ks with
  | [] => mret ([], self)
  | k :: ks =>
      '(r, self) ← tracker_step k self;
      '(rs, self) ← tracker_run ks self;
      mret (r :: rs, self)
  end.

(** The replies of the market data source are sane: book sizes are not
    negative and prices are between 0 and 1. *)
Definition market_sane (mkt : OBICalculator.market) : Prop :=
  (forall y n, OBICalculator.books mkt = Some (y, n) ->
     book_sizes_nonneg y /\ book_sizes_nonneg n) /\
  (forall y n, OBICalculator.prices mkt = Some (y, n) ->
     (forall p, y = Some p -> 0 <= p /\ p <= 1) /\
     (forall p, n = Some p -> 0 <= p /\ p <= 1)).

(** The rolling counter holds no more flips than were counted in total,
    and the leader history holds only the marks 1 and -1 (so values
    between -1 and 1). *)
Definition tracker_inv (t : LeaderTracker.t) : Prop :=
  (Z.of_nat (length (RollingCounter.events (LeaderTracker.flipCounter t)))
     <= LeaderTracker.totalFlips t)%Z /\
  values_within (-1) 1 (LeaderTracker.leaderHistory t).

(** A rational square root for examples: Heron's iteration from 1. *)
Fixpoint heron (n : nat) (a x : Q) : Q :=
  match n with
  | O => x
  | S n => heron n a (Qred ((x + a / x) / 2))
  end.

Definition example_sqrt (a : Q) : Q := heron 6 a 1.

(** A run of [addScore] calls, each for an asset with a score. *)
Fixpoint regime_run (adds : list (string * R)) (self : RegimeTracker.t)
    : M RegimeTracker.t :=
  match adds with
  | [] => mret self
  | a :: adds =>
      self ← RegimeTracker.addScore a.1 a.2 self;
      regime_run adds self
  end.

(** The scores a run gives to one asset, in order. *)
Definition scores_given (asset : string) (adds : list (string * R))
    : list R :=
  map snd (List.filter (fun a => String.eqb a.1 asset) adds).

(** The last [n] elements of a list. *)
Definition last_n {A} (n : nat) (l : list A) : list A :=
  drop (length l - n) l.

(** A position respects the risk caps: total shares and total cost. *)
Definition within_caps (caps : Worker.caps) (p : Position) : Prop :=
  yesShares p + noShares p <= Worker.maxShares caps /\
  yesCost p + noCost p <= Worker.maxNotional caps.

(** An exchange that never fills a buy order above its limit price or
    beyond its size, and reports no negative size. *)
Definition honest_fills (E : Type) `{ExchangeInterface E} : Prop :=
  forall (o : order) (ex : E) (c : Clock) (fillPrice : Q) (sz : option Q),
    o_side o = "BUY"%string ->
    (placeOrder o ex c).1.1 = Some (FILLED fillPrice sz) ->
    fillPrice <= price o /\
    (forall s, sz = Some s -> 0 <= s /\ s <= size o).

(** The prices of a feed are not negative. *)
Definition feed_prices_nonneg (f : Worker.feed) : Prop :=
  forall y n, Worker.f_prices f = Some (y, n) ->
    (forall p, y = Some p -> 0 <= p) /\ (forall p, n = Some p -> 0 <= p).

(** The name of a side as the resolution tracker receives it. *)
Definition side_name (s : side) : string :=
  match s with YES => "YES" | NO => "NO" end.

(** A call on the resolution tracker. *)
Inductive tracker_op :=
| Register (windowId : Z) (asset : string) (position : Position)
           (endTime : Z) (tokens : Worker.tokens)
| Resolve (windowId : Z) (asset : string) (winner : string).

Definition tracker_op_step (k : tracker_op) (self : ResolutionTracker.t)
    : M (option ResolutionTracker.trade * ResolutionTracker.t) :=
  match k with
  | Register windowId asset position endTime tokens =>
      self ← ResolutionTracker.registerPosition windowId asset position
                                                 endTime tokens self;
      mret (None, self)
  | Resolve windowId asset winner =>
      ResolutionTracker.resolvePosition windowId asset winner self
  end.

(** A run of calls; the trades it returns, oldest first. *)
Fixpoint tracker_ops (ks : list tracker_op) (self : ResolutionTracker.t)
    : M (list ResolutionTracker.trade * ResolutionTracker.t) :=
  match ks with
  | [] => mret ([], self)
  | k :: ks =>
      '(r, self) ← tracker_op_step k self;
      '(rs, self) ← tracker_ops ks self;
      mret (match r with Some tr => tr :: rs | None => rs end, self)
  end.

(** How many trades of a list ended with a given result. *)
Definition count_result (r : ResolutionTracker.outcome)
    (trades : list ResolutionTracker.trade) : Z :=
  Z.of_nat (length (List.filter
                      (fun tr => match ResolutionTracker.result tr, r with
                                 | ResolutionTracker.WIN, ResolutionTracker.WIN
                                 | ResolutionTracker.LOSS, ResolutionTracker.LOSS
                                 | ResolutionTracker.BREAKEVEN,
                                   ResolutionTracker.BREAKEVEN => true
                                 | _, _ => false
                                 end) trades)).

(** The counters of a tracker moved from [k] to [k'] by the trades. *)
Definition counted (trades : list ResolutionTracker.trade)
    (k k' : ResolutionTracker.counters) : Prop :=
  ResolutionTracker.wins k' =
    (ResolutionTracker.wins k + count_result ResolutionTracker.WIN trades)%Z /\
  ResolutionTracker.losses k' =
    (ResolutionTracker.losses k +
     count_result ResolutionTracker.LOSS trades)%Z /\
  ResolutionTracker.breakeven k' =
    (ResolutionTracker.breakeven k +
     count_result ResolutionTracker.BREAKEVEN trades)%Z /\
  ResolutionTracker.totalPnl k' ==
    ResolutionTracker.totalPnl k +
    Qsum (map ResolutionTracker.pnl trades) /\
  ResolutionTracker.tradesEntered k' = ResolutionTracker.tradesEntered k /\
  ResolutionTracker.totalTrades k' =
    (ResolutionTracker.totalTrades k + Z.of_nat (length trades))%Z.

(** The cost the exchange holds for a token. *)
Definition cost_of (tokenId : string) (ex : ShadowExchange.t) : Q :=
  ShadowExchange.p_cost
    (default (ShadowExchange.mkPos 0 0 0)
             (ShadowExchange.positions ex !! tokenId)).

Definition size_of (tokenId : string) (ex : ShadowExchange.t) : Q :=
  ShadowExchange.p_size
    (default (ShadowExchange.mkPos 0 0 0)
             (ShadowExchange.positions ex !! tokenId)).

(** The cost a position records, both sides together. *)
Definition recorded_cost (p : Position) : Q := yesCost p + noCost p.

(** The ids of the resting orders are below the id counter and distinct. *)
Definition ids_fresh (ex : ShadowExchange.t) : Prop :=
  Forall (fun o => (ShadowExchange.so_id o <
                    ShadowExchange.orderIdCounter ex)%Z)
         (ShadowExchange.orders ex) /\
  NoDup (map ShadowExchange.so_id (ShadowExchange.orders ex)).

(** The key of the price cache. *)
Definition cache_key (tokenId side : string) : string :=
  (tokenId +:+ "-" +:+ side)%string.

(** What the flags, the lock and the position of an asset are in each
    state of the machine, for the states the worker can reach. *)
Definition coherent (st : Worker.AssetState) : Prop :=
  let locked := LockDetector.locked (Worker.lockDetector st) in
  match Worker.state st with
  | Worker.IDLE => Worker.lastWindowId st = None
  | Worker.ARMED | Worker.ENTRY =>
      Worker.position st = mkPosition 0 0 0 0 /\
      Worker.entryDone st = false /\ Worker.ladderDone st = false /\
      locked = false
  | Worker.LADDERING =>
      Worker.entryDone st = true /\ Worker.ladderDone st = false /\
      locked = false
  | Worker.LOCKING | Worker.RECOVERY =>
      Worker.entryDone st = true /\ Worker.ladderDone st = true /\
      locked = false
  | Worker.LOCKED | Worker.ENDGAME =>
      Worker.entryDone st = true /\ Worker.ladderDone st = true /\
      locked = true
  end.

(** One call of [processAsset]: the asset, its order, the window, the
    orders file and what the market answers. *)
Record job := mkJob {
  j_asset : string;
  j_assetOrder : Worker.tokens;
  j_window : Worker.window;
  j_orders : option Worker.risk_caps;
  j_feed : Worker.feed
}.

(** A run of [processAsset] calls, with the telemetry of each. *)
Fixpoint worker_run {E : Type} `{ExchangeInterface E}
    (toFixed : Q -> nat -> string) (str : Q -> string)
    (jobs : list job) (self : Worker.t) : M (list Worker.tick * Worker.t) :=
  match jobs with
  | [] => mret ([], self)
  | j :: jobs =>
      '(r, self) ← Worker.processAsset toFixed str (j_asset j)
                     (j_assetOrder j) (j_window j) (j_orders j) (j_feed j)
                     self;
      '(rs, self) ← worker_run toFixed str jobs self;
      mret (r :: rs, self)
  end.

(** The telemetry of a tick shows a coherent, started asset. *)
Definition coherent_tick (r : Worker.tick) : Prop :=
  Worker.t_state r <> Worker.IDLE /\
  (Worker.t_locked r = true <->
   Worker.t_state r = Worker.LOCKED \/ Worker.t_state r = Worker.ENDGAME) /\
  (Worker.t_state r = Worker.ARMED \/ Worker.t_state r = Worker.ENTRY ->
   Worker.t_position r = mkPosition 0 0 0 0).

(** ** The advanced foreman (advanced_foreman.js): the order of each asset *)

Module Foreman.

Module RISK_CAPS.
Definition max_shares_per_asset : Q := 30.
Definition max_notional_usd_per_asset : Q := 15.
Definition max_concurrent : Z := 2.
Definition stop_loss_usd : Q := 3.
End RISK_CAPS.

(** The object [scores], by asset in insertion order. *)
Definition scores := list (string * ScoreCalculator.result).

Fixpoint get (scores : scores) (asset : string)
    : option ScoreCalculator.result :=
  match scores with
  | [] => None
  | (a, r) :: rest => if String.eqb a asset then Some r else get rest asset
  end.

(** The entry of [assetsData] for one asset; the fields copied from the
    market and from the Binance data are left out. *)
Record assetData := mkAssetData {
  a_asset : string;
  a_order : ScoreCalculator.order;
  ready_for_next : bool;
  a_score : Q;
  rawScore : Q;
  windBoost : Q;
  a_regime : RegimeTracker.REGIMES
}.

Definition windSum (scores : scores) : Z :=
  fold_left
    (fun sum a =>
       (sum + match get scores a with
              | Some s => ScoreCalculator.micro (ScoreCalculator.r_directions s)
              | None => 0
              end)%Z)
    (map fst scores) 0%Z.

Definition windFactor (scores : scores) : Q :=
  if (length scores =? 0)%nat then 0
  else inject_Z (Z.abs (windSum scores)) / inject_Z (Z.of_nat (length scores)).

Definition is_choppy (r : RegimeTracker.REGIMES) : bool :=
  match r with RegimeTracker.CHOPPY => true | _ => false end.

Definition is_steady (r : RegimeTracker.REGIMES) : bool :=
  match r with RegimeTracker.STEADY => true | _ => false end.

Definition is_start (o : ScoreCalculator.order) : bool :=
  match o with ScoreCalculator.START => true | _ => false end.

Section Loop.

(** The markets [resolveMarket] finds, the regimes of the tracker, and the
    window and scores of this round; a round in which no call throws. *)
Variable resolveMarket : string -> bool.
Variable getRegime : string -> RegimeTracker.REGIMES.
Variable remainingSec : Z.
Variable scores : scores.

(** The body of the loop over the assets, after the [continue]. *)
Definition decide (asset : string) (activeCount : Z) : assetData * Z :=
  let score := get scores asset in
  let regime := getRegime asset in
  let dir :=
    match score with
    | Some s => ScoreCalculator.micro (ScoreCalculator.r_directions s)
    | None => 0%Z
    end in
  let align :=
    if (windSum scores =? 0)%Z then true
    else (Z.sgn dir =? Z.sgn (windSum scores))%Z in
  let windBoost :=
    if align then 1.0 + windFactor scores * 0.2
    else 1.0 - windFactor scores * 0.3 in
  let adjustedScore :=
    match score with
    | Some s =>
        JS.Math_max 0 (JS.Math_min 1 (ScoreCalculator.score s * windBoost))
    | None => 0
    end in
  let '(order, activeCount) :=
    match score with
    | Some _ =>
        if JS.ge adjustedScore 0.55 && negb (is_choppy regime)
        then (ScoreCalculator.START, (activeCount + 1)%Z)
        else if JS.ge adjustedScore 0.35
             then (ScoreCalculator.HOLD, activeCount)
             else (ScoreCalculator.STOP, activeCount)
    | None => (ScoreCalculator.STOP, activeCount)
    end in
  let order :=
    if (RISK_CAPS.max_concurrent <? activeCount)%Z && is_start order
    then ScoreCalculator.HOLD else order in
  ({| a_asset := asset;
      a_order := order;
      ready_for_next := is_steady regime && (remainingSec <=? 180)%Z;
      a_score := adjustedScore;
      rawScore :=
        match score with
        | Some s => JS.or (ScoreCalculator.score s) 0
        | None => 0
        end;
      windBoost := windBoost;
      a_regime := regime |},
   activeCount).

(** The loop over the assets: [assetsData] in insertion order, and
    [activeCount]. *)
Fixpoint decideAll (assets : list string) (assetsData : list assetData)
    (activeCount : Z) : list assetData * Z :=
  match assets with
  | [] => (assetsData, activeCount)
  | asset :: rest =>
      if negb (resolveMarket asset) then decideAll rest assetsData activeCount
      else
        let '(d, activeCount) := decide asset activeCount in
        decideAll rest (assetsData ++ [d]) activeCount
  end.

End Loop.

End Foreman.

(** The assets the foreman would start on their own: an adjusted score of
    0.55 at least, out of a choppy regime. *)
Definition candidate (d : Foreman.assetData) : bool :=
  JS.ge (Foreman.a_score d) 0.55 &&
  negb (Foreman.is_choppy (Foreman.a_regime d)).

Definition candidates (l : list Foreman.assetData) : Z :=
  Z.of_nat (length (filter (fun d => candidate d = true) l)).

(** The number of START orders among the decisions of the foreman. *)
Definition starts (l : list Foreman.assetData) : Z :=
  Z.of_nat
    (length
       (filter (fun d => Foreman.is_start (Foreman.a_order d) = true) l)).

(** The micro directions of the scores are signs. *)
Definition directions_are_signs (scores : Foreman.scores) : Prop :=
  Forall
    (fun p =>
       (-1 <= ScoreCalculator.micro (ScoreCalculator.r_directions p.2) <= 1)%Z)
    scores.

(** Three scored assets, all pointing up. *)
Definition example_scores : Foreman.scores :=
  map (fun a =>
         (a, ScoreCalculator.mkResult a 0.8 ScoreCalculator.START
               (ScoreCalculator.mkComponents 0.8 0.8 0.8 0.8)
               (ScoreCalculator.mkDirections 1 1 1) false))
      ["BTC"; "SOL"; "XRP"]%string.

(** A clock for examples: it advances by one second at every reading. *)
Definition ticking : Clock := fun n => (1700000000000 + 1000 * Z.of_nat n)%Z.

(** An exchange for examples, kept as the list of its resting orders:
    a GTC order rests, any other order fills at its limit price. *)
Definition paperPlaceOrder (o : order) (ex : list order)
    : M (option placed * list order) :=
  mret (match type o with
        | GTC => (Some OPEN, ex ++ [o])
        | _ => (Some (FILLED (price o) None), ex)
        end).

#[export] Instance paperExchange : ExchangeInterface (list order) :=
  {| placeOrder := paperPlaceOrder; orders := fun ex => ex |}.

(** * Properties *)

(** Linear arithmetic over the rationals and over the reals. *)
Ltac qlra := Lqa.lra.
Ltac rlra := Lra.lra.

(** ** Facts on the number operators *)

Lemma JS_lt_spec x y : JS.lt x y = true <-> x < y.
Proof.
  unfold JS.lt. rewrite negb_true_iff. split.
  - intros H. apply Qnot_le_lt. intros Hle.
    apply Qle_bool_iff in Hle. congruence.
  - intros H. destruct (Qle_bool y x) eqn:E; [|reflexivity].
    apply Qle_bool_iff in E. exfalso. exact (Qlt_not_le _ _ H E).
Qed.

Lemma JS_lt_false x y : JS.lt x y = false <-> y <= x.
Proof. unfold JS.lt. rewrite negb_false_iff. apply Qle_bool_iff. Qed.

Lemma JS_gt_spec x y : JS.gt x y = true <-> y < x.
Proof. apply JS_lt_spec. Qed.

Lemma JS_gt_false x y : JS.gt x y = false <-> x <= y.
Proof. apply JS_lt_false. Qed.

Lemma JS_le_spec x y : JS.le x y = true <-> x <= y.
Proof. apply Qle_bool_iff. Qed.

Lemma JS_le_false x y : JS.le x y = false <-> y < x.
Proof.
  unfold JS.le. split.
  - intros H. apply Qnot_le_lt. intros Hle.
    apply Qle_bool_iff in Hle. congruence.
  - intros H. destruct (Qle_bool x y) eqn:E; [|reflexivity].
    apply Qle_bool_iff in E. exfalso. exact (Qlt_not_le _ _ H E).
Qed.

Lemma JS_ge_spec x y : JS.ge x y = true <-> y <= x.
Proof. apply Qle_bool_iff. Qed.

Lemma JS_ge_false x y : JS.ge x y = false <-> x < y.
Proof. apply JS_le_false. Qed.

Lemma JS_eq_spec x y : JS.eq x y = true <-> x == y.
Proof. apply Qeq_bool_iff. Qed.

Lemma JS_eq_false x y : JS.eq x y = false <-> ~ x == y.
Proof.
  rewrite <- JS_eq_spec. destruct (JS.eq x y); split; congruence.
Qed.

Lemma JS_or_zero x : JS.or x 0 == x.
Proof.
  unfold JS.or. destruct (JS.eq x 0) eqn:E; [|reflexivity].
  apply JS_eq_spec in E. symmetry. exact E.
Qed.

(** ** LockDetector *)

Lemma calculatePayoff_YES p :
  LockDetector.calculatePayoff p YES == yesShares p - (yesCost p + noCost p).
Proof. unfold LockDetector.calculatePayoff. ring. Qed.

Lemma calculatePayoff_NO p :
  LockDetector.calculatePayoff p NO == noShares p - (yesCost p + noCost p).
Proof. unfold LockDetector.calculatePayoff. ring. Qed.

Lemma isDualLock_spec p :
  LockDetector.isDualLock (LockDetector.analyzePosition p) = true <->
  0 < LockDetector.pnlIfYesWins (LockDetector.analyzePosition p) /\
  0 < LockDetector.pnlIfNoWins (LockDetector.analyzePosition p).
Proof.
  cbn [LockDetector.analyzePosition LockDetector.isDualLock
       LockDetector.pnlIfYesWins LockDetector.pnlIfNoWins].
  rewrite andb_true_iff, !JS_gt_spec. reflexivity.
Qed.

(** C1.  For every position, [analyzePosition] returns
    [pnlIfYesWins = yesShares * 1.00 - (yesCost + noCost)] and
    [pnlIfNoWins = noShares * 1.00 - (yesCost + noCost)], and [isDualLock]
    is true exactly when both are strictly positive; for the position
    [{yesShares: 20, yesCost: 9, noShares: 20, noCost: 9}] both payoffs are 2
    and [isDualLock] is true.  (Non-negative fields are not needed.) *)
Theorem analyzePosition_payoffs_and_dual_lock :
  (forall p : Position,
     let a := LockDetector.analyzePosition p in
     LockDetector.pnlIfYesWins a = yesShares p * 1 - (yesCost p + noCost p) /\
     LockDetector.pnlIfNoWins a = noShares p * 1 - (yesCost p + noCost p) /\
     (LockDetector.isDualLock a = true <->
      0 < LockDetector.pnlIfYesWins a /\ 0 < LockDetector.pnlIfNoWins a) /\
     (LockDetector.isDualLock a = true <->
      yesCost p + noCost p < yesShares p /\
      yesCost p + noCost p < noShares p)) /\
  (let a := LockDetector.analyzePosition (mkPosition 20 9 20 9) in
   LockDetector.pnlIfYesWins a == 2 /\
   LockDetector.pnlIfNoWins a == 2 /\
   LockDetector.isDualLock a = true).
Proof.
  split.
  - intros p a. split; [reflexivity|]. split; [reflexivity|]. split.
    + apply isDualLock_spec.
    + unfold a. rewrite isDualLock_spec.
      cbn [LockDetector.analyzePosition LockDetector.pnlIfYesWins
           LockDetector.pnlIfNoWins].
      rewrite calculatePayoff_YES, calculatePayoff_NO.
      split; intros [H1 H2]; split; qlra.
  - cbv zeta. repeat split.
Qed.

(** Unfolding the clock monad. *)
Ltac unfold_M := unfold mbind, M_bind, mret, M_ret, Date_now in *.

Lemma checkLock_locked p d c :
  LockDetector.c_locked (LockDetector.checkLock p d c).1.1 =
    LockDetector.locked (LockDetector.checkLock p d c).1.2 /\
  LockDetector.locked (LockDetector.checkLock p d c).1.2 =
    LockDetector.locked d ||
    LockDetector.isDualLock (LockDetector.analyzePosition p) /\
  LockDetector.c_analysis (LockDetector.checkLock p d c).1.1 =
    LockDetector.analyzePosition p.
Proof.
  unfold LockDetector.checkLock. unfold_M.
  destruct (LockDetector.isDualLock (LockDetector.analyzePosition p)),
           (LockDetector.locked d) eqn:E; cbn; auto.
Qed.

Lemma lock_run_cons k ks d c :
  (lock_run (k :: ks) d c).1.1 =
  (lock_step k d c).1.1 ::
  (lock_run ks (lock_step k d c).1.2 (lock_step k d c).2).1.1.
Proof.
  cbn [lock_run]. unfold_M.
  destruct (lock_step k d c) as [[r d'] c']. cbn [fst snd].
  destruct (lock_run ks d' c') as [[rs d''] c'']. reflexivity.
Qed.

Lemma lock_step_check p d c :
  lock_step (CheckLock p) d c =
  (Some (LockDetector.checkLock p d c).1.1,
   (LockDetector.checkLock p d c).1.2, (LockDetector.checkLock p d c).2).
Proof.
  cbn [lock_step]. unfold_M.
  destruct (LockDetector.checkLock p d c) as [[r d'] c']. reflexivity.
Qed.

(** A locked detector answers [locked = true] to every check up to the
    next [reset]. *)
Lemma lock_run_locked ks :
  forall d c j rj,
    LockDetector.locked d = true ->
    (forall k, (k <= j)%nat -> ks !! k ≠ Some Reset) ->
    (lock_run ks d c).1.1 !! j = Some (Some rj) ->
    LockDetector.c_locked rj = true.
Proof.
  induction ks as [|k ks IH]; intros d c j rj Hd Hno Hj.
  - discriminate.
  - rewrite lock_run_cons in Hj.
    destruct k as [p|]; [|exfalso; apply (Hno 0%nat); [lia|reflexivity]].
    rewrite lock_step_check in Hj. cbn [fst snd] in Hj.
    destruct (checkLock_locked p d c) as (Hr & Hl & _).
    rewrite Hd in Hl. cbn in Hl.
    destruct j as [|j]; cbn in Hj.
    + inversion Hj; subst. congruence.
    + eapply IH; [exact Hl| |exact Hj].
      intros k Hk. apply (Hno (S k)). lia.
Qed.

Lemma lock_run_sticky ks :
  forall d c i j ri rj,
    (i <= j)%nat ->
    (lock_run ks d c).1.1 !! i = Some (Some ri) ->
    (lock_run ks d c).1.1 !! j = Some (Some rj) ->
    (forall k, (i < k <= j)%nat -> ks !! k ≠ Some Reset) ->
    LockDetector.c_locked ri = true ->
    LockDetector.c_locked rj = true.
Proof.
  induction ks as [|k ks IH]; intros d c i j ri rj Hij Hi Hj Hno Hri.
  - discriminate.
  - rewrite lock_run_cons in Hi, Hj.
    destruct i as [|i].
    + destruct j as [|j]; [cbn in Hi, Hj; congruence|].
      cbn in Hi, Hj.
      destruct k as [p|]; [|cbn in Hi; unfold_M; cbn in Hi; congruence].
      rewrite lock_step_check in Hi, Hj. cbn [fst snd] in Hi, Hj.
      destruct (checkLock_locked p d c) as (Hr & _).
      inversion Hi; subst ri. rewrite Hr in Hri.
      eapply lock_run_locked; [exact Hri| |exact Hj].
      intros k Hk. apply (Hno (S k)). lia.
    + destruct j as [|j]; [lia|]. cbn in Hi, Hj.
      eapply (IH _ _ i j); eauto; [lia|].
      intros k' Hk. apply (Hno (S k')). lia.
Qed.

(** C2.  Over every run of [checkLock] and [reset] calls on one detector:
    once a [checkLock] has returned [locked = true], every later [checkLock]
    with no [reset] in between returns [locked = true], whatever position it
    is given -- also one whose analysis has [isDualLock = false], as the run
    of the positions (20,9,20,9) and (0,0,0,0) shows; [reset] makes [locked]
    false again, and among the calls only [reset] can turn it off. *)
Theorem checkLock_sticky_until_reset :
  (forall ks d c i j ri rj,
     (i <= j)%nat ->
     (lock_run ks d c).1.1 !! i = Some (Some ri) ->
     (lock_run ks d c).1.1 !! j = Some (Some rj) ->
     (forall k, (i < k <= j)%nat -> ks !! k ≠ Some Reset) ->
     LockDetector.c_locked ri = true ->
     LockDetector.c_locked rj = true) /\
  (forall c,
     exists r1 r2,
       (lock_run [CheckLock (mkPosition 20 9 20 9);
                  CheckLock (mkPosition 0 0 0 0)] LockDetector.new c).1.1
         = [Some r1; Some r2] /\
       LockDetector.c_locked r1 = true /\
       LockDetector.isDualLock (LockDetector.c_analysis r2) = false /\
       LockDetector.c_locked r2 = true) /\
  (forall d p c,
     LockDetector.locked (LockDetector.reset d) = false /\
     (LockDetector.isDualLock (LockDetector.analyzePosition p) = false ->
      LockDetector.c_locked
        (LockDetector.checkLock p (LockDetector.reset d) c).1.1 = false)) /\
  (forall k d c,
     LockDetector.locked d = true ->
     LockDetector.locked (lock_step k d c).1.2 = false ->
     k = Reset).
Proof.
  split; [exact (fun ks => lock_run_sticky ks)|]. split; [|split].
  - intros c. eexists _, _. split; [reflexivity|]. repeat split.
  - intros d p c. split; [reflexivity|]. intros Hp.
    destruct (checkLock_locked p (LockDetector.reset d) c) as (Hr & Hl & _).
    rewrite Hr, Hl, Hp. reflexivity.
  - intros [p|] d c Hd Hl; [|reflexivity]. exfalso.
    rewrite lock_step_check in Hl. cbn [fst snd] in Hl.
    destruct (checkLock_locked p d c) as (_ & Hl' & _).
    rewrite Hl', Hd in Hl. discriminate.
Qed.

Lemma checkLock_sticky_until_reset_witness :
  LockDetector.c_locked
    (LockDetector.checkLock (mkPosition 0 0 0 0)
       (LockDetector.checkLock (mkPosition 20 9 20 9)
          LockDetector.new ticking).1.2
       (LockDetector.checkLock (mkPosition 20 9 20 9)
          LockDetector.new ticking).2).1.1 = true.
Proof.
  destruct checkLock_sticky_until_reset as [H _].
  apply (H [CheckLock (mkPosition 20 9 20 9); CheckLock (mkPosition 0 0 0 0)]
           LockDetector.new ticking 0%nat 1%nat
           (LockDetector.checkLock (mkPosition 20 9 20 9)
              LockDetector.new ticking).1.1).
  - lia.
  - reflexivity.
  - reflexivity.
  - intros k Hk. assert (k = 1%nat) by lia. subst k. discriminate.
  - reflexivity.
Defined.

(** ** The risk limiter of the worker *)



(** ** Recovery sizing *)



(** ** Trendiness *)

Lemma fold_left_sum rs :
  forall a, fold_left (fun sum r => sum + r) rs a == a + Qsum rs.
Proof.
  unfold Qsum.
  induction rs as [|r rs IH]; intros a; cbn [fold_left fold_right].
  - ring.
  - rewrite IH. ring.
Qed.

Lemma fold_left_sum_abs rs :
  forall a,
    fold_left (fun sum r => sum + JS.Math_abs r) rs a == a + Qsum_abs rs.
Proof.
  unfold Qsum_abs.
  induction rs as [|r rs IH]; intros a; cbn [fold_left fold_right].
  - ring.
  - rewrite IH. unfold JS.Math_abs. ring.
Qed.

Lemma Qsum_abs_cons r rs : Qsum_abs (r :: rs) = Qabs r + Qsum_abs rs.
Proof. reflexivity. Qed.

Lemma Qsum_cons r rs : Qsum (r :: rs) = r + Qsum rs.
Proof. reflexivity. Qed.

Lemma Qsum_abs_nonneg rs : 0 <= Qsum_abs rs.
Proof.
  induction rs as [|r rs IH]; [apply Qle_refl|].
  rewrite Qsum_abs_cons. pose proof (Qabs_nonneg r). qlra.
Qed.

Lemma Qsum_triangle rs : Qabs (Qsum rs) <= Qsum_abs rs.
Proof.
  induction rs as [|r rs IH]; [apply Qle_refl|].
  rewrite Qsum_abs_cons, Qsum_cons.
  eapply Qle_trans; [apply Qabs_triangle|]. qlra.
Qed.

Lemma Qsum_abs_zeros rs : Forall (fun r => r == 0) rs -> Qsum_abs rs == 0.
Proof.
  induction 1 as [|r rs Hr _ IH]; [reflexivity|].
  rewrite Qsum_abs_cons, IH, Hr. reflexivity.
Qed.

Lemma Qsum_positive rs :
  Forall (fun r => 0 < r) rs -> Qsum rs == Qsum_abs rs /\ 0 <= Qsum rs.
Proof.
  induction 1 as [|r rs Hr _ [IH1 IH2]];
    [split; [reflexivity|apply Qle_refl]|].
  rewrite Qsum_abs_cons, Qsum_cons.
  rewrite (Qabs_pos r) by (apply Qlt_le_weak; exact Hr). split; qlra.
Qed.

Lemma Qsum_negative rs :
  Forall (fun r => r < 0) rs -> Qsum rs == - Qsum_abs rs /\ Qsum rs <= 0.
Proof.
  induction 1 as [|r rs Hr _ [IH1 IH2]];
    [split; [reflexivity|apply Qle_refl]|].
  rewrite Qsum_abs_cons, Qsum_cons.
  rewrite (Qabs_neg r) by (apply Qlt_le_weak; exact Hr). split; qlra.
Qed.

Lemma Qsum_abs_one_sign_pos rs :
  rs <> [] ->
  Forall (fun r => 0 < r) rs \/ Forall (fun r => r < 0) rs ->
  0 < Qsum_abs rs.
Proof.
  intros Hne H. destruct rs as [|r rs]; [congruence|].
  rewrite Qsum_abs_cons.
  pose proof (Qsum_abs_nonneg rs) as Hn.
  assert (0 < Qabs r); [|qlra].
  destruct H as [H|H]; inversion H; subst.
  - rewrite Qabs_pos; [assumption|apply Qlt_le_weak; assumption].
  - rewrite Qabs_neg; [qlra|apply Qlt_le_weak; assumption].
Qed.

Lemma calculateTrendiness_unfold rs :
  ScoreCalculator.calculateTrendiness (Some rs) =
  if JS.eq (fold_left (fun sum r => sum + JS.Math_abs r) rs 0) 0 then 0
  else JS.Math_abs (fold_left (fun sum r => sum + r) rs 0) /
       fold_left (fun sum r => sum + JS.Math_abs r) rs 0.
Proof.
  unfold ScoreCalculator.calculateTrendiness.
  destruct rs as [|r rs]; reflexivity.
Qed.

Lemma calculateTrendiness_nonzero rs :
  ~ Qsum_abs rs == 0 ->
  ScoreCalculator.calculateTrendiness (Some rs) ==
  Qabs (Qsum rs) / Qsum_abs rs.
Proof.
  intros Hnz. rewrite calculateTrendiness_unfold.
  destruct (JS.eq _ 0) eqn:E.
  - apply JS_eq_spec in E. rewrite fold_left_sum_abs in E.
    exfalso. apply Hnz. rewrite <- E. ring.
  - unfold JS.Math_abs. rewrite fold_left_sum, fold_left_sum_abs.
    rewrite !Qplus_0_l. reflexivity.
Qed.

Lemma calculateTrendiness_zero rs :
  Qsum_abs rs == 0 -> ScoreCalculator.calculateTrendiness (Some rs) = 0.
Proof.
  intros Hz. rewrite calculateTrendiness_unfold.
  destruct (JS.eq _ 0) eqn:E; [reflexivity|].
  apply JS_eq_false in E. exfalso. apply E.
  rewrite fold_left_sum_abs, Hz. reflexivity.
Qed.

(** C9.  Trendiness of a return series is [|sum| / sum of absolute values];
    it always lies in [0, 1]; it is 0 for a missing or empty series and for
    every series whose absolute values sum to 0, in particular an all-zero
    one; it is 1 for every non-empty series whose returns are all strictly
    positive or all strictly negative. *)
Theorem calculateTrendiness_spec :
  ScoreCalculator.calculateTrendiness None = 0 /\
  forall rs : list Q,
    let t := ScoreCalculator.calculateTrendiness (Some rs) in
    (~ Qsum_abs rs == 0 -> t == Qabs (Qsum rs) / Qsum_abs rs) /\
    (0 <= t /\ t <= 1) /\
    (rs = [] -> t = 0) /\
    (Qsum_abs rs == 0 -> t = 0) /\
    (Forall (fun r => r == 0) rs -> t = 0) /\
    (rs <> [] ->
     Forall (fun r => 0 < r) rs \/ Forall (fun r => r < 0) rs ->
     t == 1).
Proof.
  split; [reflexivity|]. intros rs t. subst t.
  split; [apply calculateTrendiness_nonzero|].
  split; [|split; [|split; [|split]]].
  - pose proof (Qsum_abs_nonneg rs) as Hn.
    pose proof (Qsum_triangle rs) as Ht.
    destruct (Qeq_dec (Qsum_abs rs) 0) as [Hz|Hnz].
    + rewrite (calculateTrendiness_zero rs Hz). split; [apply Qle_refl|discriminate].
    + rewrite (calculateTrendiness_nonzero rs Hnz).
      assert (Hpos : 0 < Qsum_abs rs).
      { destruct (Qlt_le_dec 0 (Qsum_abs rs)) as [H|H]; [exact H|].
        exfalso. apply Hnz. apply Qle_antisym; assumption. }
      split.
      * apply Qle_shift_div_l; [exact Hpos|].
        rewrite Qmult_0_l. apply Qabs_nonneg.
      * apply Qle_shift_div_r; [exact Hpos|]. rewrite Qmult_1_l. exact Ht.
  - intros ->. reflexivity.
  - apply calculateTrendiness_zero.
  - intros Hz. apply calculateTrendiness_zero, Qsum_abs_zeros, Hz.
  - intros Hne Hsign.
    pose proof (Qsum_abs_one_sign_pos rs Hne Hsign) as Hpos.
    assert (Hnz : ~ Qsum_abs rs == 0) by (intros Hz; rewrite Hz in Hpos; discriminate).
    rewrite (calculateTrendiness_nonzero rs Hnz).
    assert (Habs : Qabs (Qsum rs) == Qsum_abs rs).
    { destruct Hsign as [Hp|Hn].
      - destruct (Qsum_positive rs Hp) as [Heq Hge].
        rewrite Qabs_pos; assumption.
      - destruct (Qsum_negative rs Hn) as [Heq Hle].
        rewrite Qabs_neg by assumption. rewrite Heq. ring. }
    rewrite Habs. field. exact Hnz.
Qed.

Lemma calculateTrendiness_spec_witness :
  ScoreCalculator.calculateTrendiness (Some [0.01; 0.02; 0.005]) == 1 /\
  ScoreCalculator.calculateTrendiness (Some [0; 0; 0]) = 0 /\
  ScoreCalculator.calculateTrendiness (Some [0.02; -0.01]) ==
    Qabs (Qsum [0.02; -0.01]) / Qsum_abs [0.02; -0.01].
Proof.
  destruct calculateTrendiness_spec as [_ H]. split; [|split].
  - apply (H [0.01; 0.02; 0.005]); [discriminate|].
    left. repeat constructor.
  - apply (H [0; 0; 0]). repeat constructor.
  - apply (H [0.02; -0.01]). discriminate.
Defined.

(** ** OBI without samples *)

Lemma filter_stale (l : list RollingAverage.sample) (cutoff : Z) :
  Forall (fun s => (RollingAverage.timestamp s < cutoff)%Z) l ->
  List.filter (fun s => (cutoff <=? RollingAverage.timestamp s)%Z) l = [].
Proof.
  induction 1 as [|s l Hs _ IH]; cbn; [reflexivity|].
  destruct (Z.leb_spec cutoff (RollingAverage.timestamp s)); [lia|exact IH].
Qed.

Lemma getAverage_no_sample ra c :
  no_sample_in_window ra (c 0%nat) ->
  (RollingAverage.getAverage ra c).1.1 = None.
Proof.
  intros H. unfold RollingAverage.getAverage, RollingAverage.cleanup.
  unfold_M. cbn [RollingAverage.samples RollingAverage.windowMs].
  rewrite (filter_stale _ _ H). reflexivity.
Qed.

Lemma getRollingOBI_cases side o c :
  exists ra,
    (ra = OBICalculator.obiYes o \/ ra = OBICalculator.obiNo o \/
     ra = OBICalculator.obiCombined o) /\
    (default "YES"%string side = "YES"%string -> ra = OBICalculator.obiYes o) /\
    (side = Some "NO"%string -> ra = OBICalculator.obiNo o) /\
    (OBICalculator.getRollingOBI side o c).1.1 =
      OBICalculator.or0 (RollingAverage.getAverage ra c).1.1.
Proof.
  unfold OBICalculator.getRollingOBI. unfold_M.
  destruct (String.eqb (default "YES"%string side) "YES") eqn:E1;
    [|destruct (String.eqb (default "YES"%string side) "NO") eqn:E2].
  - exists (OBICalculator.obiYes o).
    apply String.eqb_eq in E1.
    destruct (RollingAverage.getAverage _ c) as [[avg ra] c'].
    repeat split; auto. intros ->. discriminate.
  - exists (OBICalculator.obiNo o).
    apply String.eqb_neq in E1.
    destruct (RollingAverage.getAverage _ c) as [[avg ra] c'].
    repeat split; auto. intros; congruence.
  - exists (OBICalculator.obiCombined o).
    apply String.eqb_neq in E1. apply String.eqb_neq in E2.
    destruct (RollingAverage.getAverage _ c) as [[avg ra] c'].
    repeat split; auto; [intros; congruence|].
    intros ->. cbn in E2. congruence.
Qed.

Lemma isBlocking_unfold side threshold o c :
  (OBICalculator.isBlocking side threshold o c).1.1 =
  JS.le (OBICalculator.getRollingOBI side o c).1.1
        (default OBICalculator.default_threshold threshold).
Proof.
  unfold OBICalculator.isBlocking. unfold_M.
  destruct (OBICalculator.getRollingOBI side o c) as [[obi o'] c'].
  reflexivity.
Qed.

(** C10.  When the rolling average of a side holds no sample inside its
    window at the time of the call -- in particular on a new or freshly
    reset calculator -- [getAverage] returns [null], [getRollingOBI] of
    that side returns 0, and [isBlocking] against the default threshold
    -0.30 returns false. *)
Theorem getRollingOBI_without_samples :
  (forall ra c,
     no_sample_in_window ra (c 0%nat) ->
     (RollingAverage.getAverage ra c).1.1 = None) /\
  (forall o c,
     no_sample_in_window (OBICalculator.obiYes o) (c 0%nat) ->
     (OBICalculator.getRollingOBI (Some "YES"%string) o c).1.1 = 0 /\
     (OBICalculator.getRollingOBI None o c).1.1 = 0 /\
     (OBICalculator.isBlocking (Some "YES"%string) None o c).1.1 = false /\
     (OBICalculator.isBlocking None None o c).1.1 = false) /\
  (forall o c,
     no_sample_in_window (OBICalculator.obiNo o) (c 0%nat) ->
     (OBICalculator.getRollingOBI (Some "NO"%string) o c).1.1 = 0 /\
     (OBICalculator.isBlocking (Some "NO"%string) None o c).1.1 = false) /\
  (forall o side c,
     no_sample_in_window (OBICalculator.obiYes o) (c 0%nat) ->
     no_sample_in_window (OBICalculator.obiNo o) (c 0%nat) ->
     no_sample_in_window (OBICalculator.obiCombined o) (c 0%nat) ->
     (OBICalculator.getRollingOBI side o c).1.1 = 0 /\
     (OBICalculator.isBlocking side None o c).1.1 = false) /\
  (forall windowMs topN o side c,
     (OBICalculator.getRollingOBI side (OBICalculator.new windowMs topN) c).1.1
       = 0 /\
     (OBICalculator.isBlocking side None
        (OBICalculator.new windowMs topN) c).1.1 = false /\
     (OBICalculator.getRollingOBI side (OBICalculator.reset o) c).1.1 = 0 /\
     (OBICalculator.isBlocking side None (OBICalculator.reset o) c).1.1
       = false).
Proof.
  assert (Hside : forall side o c ra,
    no_sample_in_window ra (c 0%nat) ->
    (OBICalculator.getRollingOBI side o c).1.1 =
      OBICalculator.or0 (RollingAverage.getAverage ra c).1.1 ->
    (OBICalculator.getRollingOBI side o c).1.1 = 0 /\
    (OBICalculator.isBlocking side None o c).1.1 = false).
  { intros side o c ra Hra Heq.
    rewrite isBlocking_unfold, Heq, (getAverage_no_sample ra c Hra).
    split; reflexivity. }
  split; [exact getAverage_no_sample|]. split; [|split; [|split]].
  - intros o c Hy.
    destruct (getRollingOBI_cases (Some "YES"%string) o c)
      as (ra & _ & Hr & _ & Heq).
    rewrite (Hr eq_refl) in Heq.
    destruct (getRollingOBI_cases None o c) as (ra' & _ & Hr' & _ & Heq').
    rewrite (Hr' eq_refl) in Heq'.
    destruct (Hside _ _ _ _ Hy Heq) as [H1 H2].
    destruct (Hside _ _ _ _ Hy Heq') as [H3 H4].
    auto.
  - intros o c Hn.
    destruct (getRollingOBI_cases (Some "NO"%string) o c)
      as (ra & _ & _ & Hr & Heq).
    rewrite (Hr eq_refl) in Heq.
    exact (Hside _ _ _ _ Hn Heq).
  - intros o side c Hy Hn Hc.
    destruct (getRollingOBI_cases side o c) as (ra & Hra & _ & _ & Heq).
    apply (Hside _ _ _ ra); [|exact Heq].
    destruct Hra as [->|[->| ->]]; assumption.
  - intros windowMs topN o side c.
    assert (Hnew : forall w n side,
      (OBICalculator.getRollingOBI side (OBICalculator.new w n) c).1.1 = 0 /\
      (OBICalculator.isBlocking side None (OBICalculator.new w n) c).1.1
        = false).
    { intros w n s.
      destruct (getRollingOBI_cases s (OBICalculator.new w n) c)
        as (ra & Hra & _ & _ & Heq).
      apply (Hside _ _ _ ra); [|exact Heq].
      destruct Hra as [->|[->| ->]]; constructor. }
    destruct (Hnew windowMs topN side) as [H1 H2].
    destruct (getRollingOBI_cases side (OBICalculator.reset o) c)
      as (ra & Hra & _ & _ & Heq).
    destruct (Hside side (OBICalculator.reset o) c ra) as [H3 H4];
      [destruct Hra as [->|[->| ->]]; constructor|exact Heq|].
    auto.
Qed.

(** A calculator whose only YES sample is a blocking value that has long
    left the window. *)
Lemma getRollingOBI_without_samples_witness :
  let o :=
    OBICalculator.set_obiYes
      (RollingAverage.mk 90000 [RollingAverage.mkSample 1699999000000 (-0.9)])
      (OBICalculator.new None None) in
  (OBICalculator.getRollingOBI (Some "YES"%string) o ticking).1.1 = 0 /\
  (OBICalculator.isBlocking (Some "YES"%string) None o ticking).1.1 = false.
Proof.
  intros o.
  destruct getRollingOBI_without_samples as (_ & H & _).
  destruct (H o ticking) as (H1 & _ & H3 & _).
  - repeat constructor.
  - split; assumption.
Defined.

(** ** LeaderTracker *)

(** The effect of one [update] on the leader and on the pending flip,
    case by case. *)
Lemma update_effect pY pN t c :
  let nl := observed (pY, pN) in
  let i := (LeaderTracker.update pY pN t c).1.1 in
  let t' := (LeaderTracker.update pY pN t c).1.2 in
  LeaderTracker.leader i = LeaderTracker.currentLeader t' /\
  LeaderTracker.i_totalFlips i = LeaderTracker.totalFlips t' /\
  match LeaderTracker.currentLeader t with
  | None =>
      LeaderTracker.flipped i = false /\
      LeaderTracker.currentLeader t' = Some nl /\
      LeaderTracker.pendingFlip t' = LeaderTracker.pendingFlip t /\
      LeaderTracker.pendingFlipCount t' = LeaderTracker.pendingFlipCount t /\
      LeaderTracker.totalFlips t' = LeaderTracker.totalFlips t
  | Some cur =>
      if decide (nl = cur) then
        LeaderTracker.flipped i = false /\
        LeaderTracker.currentLeader t' = Some cur /\
        LeaderTracker.pendingFlip t' = None /\
        LeaderTracker.pendingFlipCount t' = 0%Z /\
        LeaderTracker.totalFlips t' = LeaderTracker.totalFlips t
      else if decide (LeaderTracker.pendingFlip t = Some nl) then
        if (2 <=? LeaderTracker.pendingFlipCount t + 1)%Z then
          LeaderTracker.flipped i = true /\
          LeaderTracker.currentLeader t' = Some nl /\
          LeaderTracker.pendingFlip t' = None /\
          LeaderTracker.pendingFlipCount t' = 0%Z /\
          LeaderTracker.totalFlips t' = (LeaderTracker.totalFlips t + 1)%Z
        else
          LeaderTracker.flipped i = false /\
          LeaderTracker.currentLeader t' = Some cur /\
          LeaderTracker.pendingFlip t' = LeaderTracker.pendingFlip t /\
          LeaderTracker.pendingFlipCount t' =
            (LeaderTracker.pendingFlipCount t + 1)%Z /\
          LeaderTracker.totalFlips t' = LeaderTracker.totalFlips t
      else
        LeaderTracker.flipped i = false /\
        LeaderTracker.currentLeader t' = Some cur /\
        LeaderTracker.pendingFlip t' = Some nl /\
        LeaderTracker.pendingFlipCount t' = 1%Z /\
        LeaderTracker.totalFlips t' = LeaderTracker.totalFlips t
  end.
Proof.
  intros nl i t'. subst i t'. unfold LeaderTracker.update. unfold_M.
  change (if JS.gt pY pN then YES else NO) with nl.
  destruct (RollingAverage.add _ _ _ _) as [lh c1].
  cbn [LeaderTracker.currentLeader LeaderTracker.set_leaderHistory
       LeaderTracker.pendingFlip LeaderTracker.pendingFlipCount].
  destruct (LeaderTracker.currentLeader t) as [cur|] eqn:Ecur.
  - destruct (decide (nl = cur)) as [Heq|Hne].
    + rewrite bool_decide_eq_false_2 by auto.
      destruct (RollingCounter.getCount _ c1) as [[n fc] c2].
      cbn. rewrite Ecur. repeat split; auto.
    + rewrite bool_decide_eq_true_2 by auto.
      destruct (decide (LeaderTracker.pendingFlip t = Some nl)) as [Hp|Hp].
      * rewrite bool_decide_eq_true_2 by auto.
        cbn [LeaderTracker.set_pendingFlipCount LeaderTracker.pendingFlipCount].
        destruct (2 <=? LeaderTracker.pendingFlipCount t + 1)%Z.
        -- destruct (RollingCounter.record _ _ c1) as [fc c2].
           destruct (RollingCounter.getCount _ c2) as [[n fc'] c3].
           cbn. repeat split; auto.
        -- destruct (RollingCounter.getCount _ c1) as [[n fc'] c3].
           cbn. rewrite Ecur. repeat split; auto.
      * rewrite bool_decide_eq_false_2 by auto.
        destruct (RollingCounter.getCount _ c1) as [[n fc'] c3].
        cbn. rewrite Ecur. repeat split; auto.
  - destruct (RollingCounter.getCount _ c1) as [[n fc] c2].
    cbn. repeat split; auto.
Qed.

Lemma leader_run_cons o obs t c :
  (leader_run (o :: obs) t c).1.1 =
  (LeaderTracker.update o.1 o.2 t c).1.1 ::
  (leader_run obs (LeaderTracker.update o.1 o.2 t c).1.2
                  (LeaderTracker.update o.1 o.2 t c).2).1.1.
Proof.
  cbn [leader_run]. unfold_M.
  destruct (LeaderTracker.update o.1 o.2 t c) as [[i t'] c']. cbn [fst snd].
  destruct (leader_run obs t' c') as [[infos t''] c'']. reflexivity.
Qed.

Lemma leader_run_cons_state o obs t c :
  (leader_run (o :: obs) t c).1.2 =
  (leader_run obs (LeaderTracker.update o.1 o.2 t c).1.2
                  (LeaderTracker.update o.1 o.2 t c).2).1.2.
Proof.
  cbn [leader_run]. unfold_M.
  destruct (LeaderTracker.update o.1 o.2 t c) as [[i t'] c']. cbn [fst snd].
  destruct (leader_run obs t' c') as [[infos t''] c'']. reflexivity.
Qed.

(** One update from a state that satisfies [pending_inv]. *)
Lemma update_step (o : Q * Q) t last c :
  pending_inv t last ->
  let i := (LeaderTracker.update o.1 o.2 t c).1.1 in
  let t' := (LeaderTracker.update o.1 o.2 t c).1.2 in
  pending_inv t' (Some (observed o)) /\
  LeaderTracker.leader i = LeaderTracker.currentLeader t' /\
  LeaderTracker.i_totalFlips i = LeaderTracker.totalFlips t' /\
  LeaderTracker.currentLeader t' <> None /\
  (LeaderTracker.flipped i = true <->
   last = Some (observed o) /\
   LeaderTracker.currentLeader t <> None /\
   LeaderTracker.currentLeader t <> Some (observed o)) /\
  (LeaderTracker.flipped i = true ->
   LeaderTracker.currentLeader t' = Some (observed o) /\
   LeaderTracker.totalFlips t' = (LeaderTracker.totalFlips t + 1)%Z) /\
  (LeaderTracker.flipped i = false ->
   (LeaderTracker.currentLeader t <> None ->
    LeaderTracker.currentLeader t' = LeaderTracker.currentLeader t) /\
   LeaderTracker.totalFlips t' = LeaderTracker.totalFlips t).
Proof.
  intros Hinv i t'. subst i t'.
  destruct o as [pY pN]. cbn [fst snd].
  pose proof (update_effect pY pN t c) as H. cbv zeta in H.
  set (nl := observed (pY, pN)) in *.
  destruct H as (Hl & Ht & H).
  unfold pending_inv in *.
  destruct (LeaderTracker.currentLeader t) as [cur|] eqn:Ecur.
  - destruct (decide (nl = cur)) as [Heq|Hne].
    + destruct H as (Hf & Hc & Hp & Hn & Htot).
      rewrite Hc, Hf, Htot. rewrite decide_True by auto.
      repeat split; try congruence.
      intros (_ & _ & Hx). congruence.
    + destruct (decide (LeaderTracker.pendingFlip t = Some nl)) as [Hp|Hp].
      * assert (Hlast : last = Some nl /\
                        LeaderTracker.pendingFlipCount t = 1%Z).
        { destruct last as [l|]; [|congruence].
          destruct (decide (l = cur)); [congruence|].
          destruct Hinv as [Hq Hcnt]. split; congruence. }
        destruct Hlast as [-> Hcnt]. rewrite Hcnt in H. cbn in H.
        destruct H as (Hf & Hc & Hp' & Hn & Htot).
        rewrite Hc, Hf, Htot. rewrite decide_True by auto.
        repeat split; try congruence.
      * destruct H as (Hf & Hc & Hp' & Hn & Htot).
        rewrite Hc, Hf, Htot. rewrite decide_False by auto.
        repeat split; try congruence.
        intros (Hlast & _ & _). subst last.
        destruct (decide (nl = cur)); [congruence|].
        destruct Hinv; congruence.
  - destruct H as (Hf & Hc & Hp & Hn & Htot).
    rewrite Hc, Hf, Htot. rewrite decide_True by auto.
    repeat split; try congruence.
    intros (_ & Hx & _). congruence.
Qed.

Lemma pending_inv_new w : pending_inv (LeaderTracker.new w) None.
Proof. reflexivity. Qed.

(** Between two consecutive updates of a run, a flip is confirmed exactly
    when both show the same side and that side is not the leader standing
    after the first of them. *)
Lemma leader_run_consecutive obs :
  forall t last c k o0 o1 i0 i1,
    pending_inv t last ->
    obs !! k = Some o0 -> obs !! S k = Some o1 ->
    (leader_run obs t c).1.1 !! k = Some i0 ->
    (leader_run obs t c).1.1 !! S k = Some i1 ->
    (LeaderTracker.flipped i1 = true <->
     observed o1 = observed o0 /\
     LeaderTracker.leader i0 <> Some (observed o1)) /\
    (LeaderTracker.flipped i1 = true ->
     LeaderTracker.leader i1 = Some (observed o1) /\
     LeaderTracker.i_totalFlips i1 = (LeaderTracker.i_totalFlips i0 + 1)%Z) /\
    (LeaderTracker.flipped i1 = false ->
     LeaderTracker.leader i1 = LeaderTracker.leader i0 /\
     LeaderTracker.i_totalFlips i1 = LeaderTracker.i_totalFlips i0).
Proof.
  induction obs as [|o obs IH]; intros t last c k o0 o1 i0 i1 Hinv Ho0 Ho1 Hi0 Hi1.
  - discriminate.
  - rewrite leader_run_cons in Hi0, Hi1.
    destruct (update_step o t last c Hinv)
      as (Hinv' & Hl & Htot & Hsome & _).
    destruct k as [|k].
    + cbn in Ho0, Hi0. inversion Ho0; subst o0. inversion Hi0; subst i0.
      destruct obs as [|o' obs]; [discriminate|].
      cbn in Ho1. inversion Ho1; subst o'.
      cbn [lookup list_lookup] in Hi1. rewrite leader_run_cons in Hi1.
      cbn in Hi1. inversion Hi1; subst i1. clear Hi1 Hi0 Ho0 Ho1.
      set (t1 := (LeaderTracker.update o.1 o.2 t c).1.2) in *.
      set (c1 := (LeaderTracker.update o.1 o.2 t c).2) in *.
      destruct (update_step o1 t1 _ c1 Hinv')
        as (_ & Hl1 & Htot1 & _ & Hflip & Hyes & Hno).
      rewrite Hl, Hl1, Htot, Htot1. split; [|split].
      * rewrite Hflip. split.
        -- intros (Hlast & _ & Hne). split; congruence.
        -- intros (Heq & Hne). repeat split; congruence.
      * exact Hyes.
      * intros Hf. destruct (Hno Hf) as [Hc Ht]. split; auto.
    + cbn in Ho0, Ho1, Hi0, Hi1.
      exact (IH _ _ _ k o0 o1 i0 i1 Hinv' Ho0 Ho1 Hi0 Hi1).
Qed.

Lemma pending_inv_settled t L :
  LeaderTracker.currentLeader t = Some L ->
  LeaderTracker.pendingFlip t = None ->
  pending_inv t (Some L).
Proof.
  intros Hc Hp. unfold pending_inv. rewrite Hc.
  rewrite decide_True by reflexivity. exact Hp.
Qed.

Lemma not_flipped (b : bool) (P : Prop) : (b = true <-> P) -> ~ P -> b = false.
Proof. destruct b; intuition. Qed.

(** C4.  After a leader is established and with no candidate pending, one
    observation of the opposite side does not confirm a flip ([flipped] is
    false, leader and [totalFlips] unchanged); two consecutive observations
    of the opposite side confirm exactly one flip, on the second ([flipped]
    true once, leader updated, [totalFlips] one more); an observation of the
    current leader clears the pending candidate, so opposite observations
    separated by one do not add up.  Over every run of updates of a new
    tracker, the first update sets the leader without a flip and a later
    update confirms a flip exactly when it and the update before show the
    same side, which is not the leader standing between them. *)
Theorem leader_flip_needs_two_consecutive :
  (forall t o c L,
     LeaderTracker.currentLeader t = Some L ->
     LeaderTracker.pendingFlip t = None ->
     observed o <> L ->
     let i := (LeaderTracker.update o.1 o.2 t c).1.1 in
     let t' := (LeaderTracker.update o.1 o.2 t c).1.2 in
     LeaderTracker.flipped i = false /\
     LeaderTracker.leader i = Some L /\
     LeaderTracker.currentLeader t' = Some L /\
     LeaderTracker.totalFlips t' = LeaderTracker.totalFlips t) /\
  (forall t o1 o2 c L i1 i2,
     LeaderTracker.currentLeader t = Some L ->
     LeaderTracker.pendingFlip t = None ->
     observed o1 <> L -> observed o2 = observed o1 ->
     (leader_run [o1; o2] t c).1.1 = [i1; i2] ->
     LeaderTracker.flipped i1 = false /\
     LeaderTracker.flipped i2 = true /\
     LeaderTracker.leader i2 = Some (observed o1) /\
     LeaderTracker.i_totalFlips i2 = (LeaderTracker.totalFlips t + 1)%Z /\
     LeaderTracker.currentLeader (leader_run [o1; o2] t c).1.2 =
       Some (observed o1) /\
     LeaderTracker.totalFlips (leader_run [o1; o2] t c).1.2 =
       (LeaderTracker.totalFlips t + 1)%Z) /\
  (forall t o c L,
     LeaderTracker.currentLeader t = Some L ->
     observed o = L ->
     let i := (LeaderTracker.update o.1 o.2 t c).1.1 in
     let t' := (LeaderTracker.update o.1 o.2 t c).1.2 in
     LeaderTracker.flipped i = false /\
     LeaderTracker.pendingFlip t' = None /\
     LeaderTracker.pendingFlipCount t' = 0%Z /\
     LeaderTracker.currentLeader t' = Some L /\
     LeaderTracker.totalFlips t' = LeaderTracker.totalFlips t) /\
  (forall t o1 o2 o3 c L,
     LeaderTracker.currentLeader t = Some L ->
     LeaderTracker.pendingFlip t = None ->
     observed o1 <> L -> observed o2 = L -> observed o3 <> L ->
     Forall (fun i => LeaderTracker.flipped i = false /\
                      LeaderTracker.leader i = Some L /\
                      LeaderTracker.i_totalFlips i = LeaderTracker.totalFlips t)
            (leader_run [o1; o2; o3] t c).1.1) /\
  (forall w o obs c i,
     (leader_run (o :: obs) (LeaderTracker.new w) c).1.1 !! 0%nat = Some i ->
     LeaderTracker.flipped i = false /\
     LeaderTracker.leader i = Some (observed o) /\
     LeaderTracker.i_totalFlips i = 0%Z) /\
  (forall w obs c k o0 o1 i0 i1,
     obs !! k = Some o0 -> obs !! S k = Some o1 ->
     (leader_run obs (LeaderTracker.new w) c).1.1 !! k = Some i0 ->
     (leader_run obs (LeaderTracker.new w) c).1.1 !! S k = Some i1 ->
     (LeaderTracker.flipped i1 = true <->
      observed o1 = observed o0 /\
      LeaderTracker.leader i0 <> Some (observed o1)) /\
     (LeaderTracker.flipped i1 = true ->
      LeaderTracker.leader i1 = Some (observed o1) /\
      LeaderTracker.i_totalFlips i1 =
        (LeaderTracker.i_totalFlips i0 + 1)%Z) /\
     (LeaderTracker.flipped i1 = false ->
      LeaderTracker.leader i1 = LeaderTracker.leader i0 /\
      LeaderTracker.i_totalFlips i1 = LeaderTracker.i_totalFlips i0)).
Proof.
  assert (Hone : forall t o c l L,
    pending_inv t (Some l) ->
    LeaderTracker.currentLeader t = Some L ->
    observed o <> l \/ observed o = L ->
    LeaderTracker.flipped (LeaderTracker.update o.1 o.2 t c).1.1 = false /\
    LeaderTracker.leader (LeaderTracker.update o.1 o.2 t c).1.1 = Some L /\
    LeaderTracker.i_totalFlips (LeaderTracker.update o.1 o.2 t c).1.1 =
      LeaderTracker.totalFlips t /\
    LeaderTracker.currentLeader (LeaderTracker.update o.1 o.2 t c).1.2 =
      Some L /\
    LeaderTracker.totalFlips (LeaderTracker.update o.1 o.2 t c).1.2 =
      LeaderTracker.totalFlips t /\
    pending_inv (LeaderTracker.update o.1 o.2 t c).1.2 (Some (observed o))).
  { intros t o c l L Hinv HL Hobs.
    destruct (update_step o t _ c Hinv)
      as (Hinv' & Hl & Htot & _ & Hflip & _ & Hno).
    assert (Hf : LeaderTracker.flipped
                   (LeaderTracker.update o.1 o.2 t c).1.1 = false).
    { apply (not_flipped _ _ Hflip). intros (Hlast & _ & Hne).
      destruct Hobs; congruence. }
    destruct (Hno Hf) as [Hc Ht]. rewrite Hl, Htot, Hc, Ht by congruence.
    repeat split; auto. }
  split; [|split; [|split; [|split; [|split]]]].
  - intros t o c L HL Hp Hobs i t'. subst i t'.
    destruct (Hone t o c L L (pending_inv_settled t L HL Hp) HL (or_introl Hobs))
      as (? & ? & ? & ? & ? & ?). auto.
  - intros t o1 o2 c L i1 i2 HL Hp Hobs1 Hobs2 Hrun.
    rewrite leader_run_cons_state, leader_run_cons_state.
    rewrite leader_run_cons, leader_run_cons in Hrun.
    set (t1 := (LeaderTracker.update o1.1 o1.2 t c).1.2) in *.
    set (c1 := (LeaderTracker.update o1.1 o1.2 t c).2) in *.
    cbn [leader_run] in *. unfold_M. cbn [fst snd] in *.
    inversion Hrun; subst i1 i2; clear Hrun.
    destruct (Hone t o1 c L L (pending_inv_settled t L HL Hp) HL (or_introl Hobs1))
      as (Hf1 & Hl1 & Ht1 & Hc1 & Htot1 & Hinv1). fold t1 in Hc1, Htot1, Hinv1.
    destruct (update_step o2 t1 _ c1 Hinv1)
      as (_ & Hl2 & Htot2 & _ & Hflip & Hyes & _).
    assert (Hf2 : LeaderTracker.flipped
                    (LeaderTracker.update o2.1 o2.2 t1 c1).1.1 = true).
    { apply Hflip. rewrite Hc1. repeat split; congruence. }
    destruct (Hyes Hf2) as [Hc2 Ht2].
    rewrite Hl2, Htot2, Hc2, Ht2, Htot1, Hobs2. repeat split; auto.
  - intros t o c L HL Hobs i t'. subst i t'.
    pose proof (update_effect o.1 o.2 t c) as H. cbv zeta in H.
    rewrite HL in H. replace (o.1, o.2) with o in H by (destruct o; reflexivity).
    rewrite decide_True in H by exact Hobs.
    destruct H as (_ & _ & ? & ? & ? & ? & ?). auto.
  - intros t o1 o2 o3 c L HL Hp Hobs1 Hobs2 Hobs3.
    rewrite !leader_run_cons.
    set (t1 := (LeaderTracker.update o1.1 o1.2 t c).1.2) in *.
    set (c1 := (LeaderTracker.update o1.1 o1.2 t c).2) in *.
    set (t2 := (LeaderTracker.update o2.1 o2.2 t1 c1).1.2) in *.
    set (c2 := (LeaderTracker.update o2.1 o2.2 t1 c1).2) in *.
    destruct (Hone t o1 c L L (pending_inv_settled t L HL Hp) HL (or_introl Hobs1))
      as (Hf1 & Hl1 & Ht1 & Hc1 & Htot1 & Hinv1). fold t1 in Hc1, Htot1, Hinv1.
    destruct (Hone t1 o2 c1 _ L Hinv1 Hc1 (or_intror Hobs2))
      as (Hf2 & Hl2 & Ht2 & Hc2 & Htot2 & Hinv2). fold t2 in Hc2, Htot2, Hinv2.
    assert (Hobs3' : observed o3 <> observed o2) by congruence.
    destruct (Hone t2 o3 c2 _ L Hinv2 Hc2 (or_introl Hobs3'))
      as (Hf3 & Hl3 & Ht3 & _).
    repeat constructor; auto; congruence.
  - intros w o obs c i Hi. rewrite leader_run_cons in Hi.
    assert (Hi' : Some (LeaderTracker.update o.1 o.2 (LeaderTracker.new w) c).1.1
                  = Some i) by exact Hi.
    assert (Hi'' : i = (LeaderTracker.update o.1 o.2 (LeaderTracker.new w) c).1.1)
      by congruence.
    subst i. clear Hi Hi'.
    pose proof (update_effect o.1 o.2 (LeaderTracker.new w) c) as H.
    cbv zeta in H. replace (o.1, o.2) with o in H by (destruct o; reflexivity).
    assert (Hnone : LeaderTracker.currentLeader (LeaderTracker.new w) = None)
      by reflexivity.
    assert (Hzero : LeaderTracker.totalFlips (LeaderTracker.new w) = 0%Z)
      by reflexivity.
    rewrite Hnone in H.
    destruct H as (Hl & Ht & Hf & Hc & _ & _ & Htot).
    rewrite Hl, Ht, Hc, Htot, Hzero. auto.
  - intros w obs c k o0 o1 i0 i1.
    apply (leader_run_consecutive obs _ None). apply pending_inv_new.
Qed.

(** A tracker led by YES sees NO once, then NO again. *)
Lemma leader_flip_needs_two_consecutive_witness :
  let t := LeaderTracker.set_currentLeader (Some YES) (LeaderTracker.new None) in
  (LeaderTracker.flipped
     (LeaderTracker.update 0.45 0.55 t ticking).1.1 = false /\
   LeaderTracker.currentLeader
     (LeaderTracker.update 0.45 0.55 t ticking).1.2 = Some YES) /\
  LeaderTracker.currentLeader
    (leader_run [(0.45, 0.55); (0.4, 0.6)] t ticking).1.2 = Some NO.
Proof.
  intros t.
  destruct leader_flip_needs_two_consecutive as (H1 & H2 & _).
  split.
  - destruct (H1 t (0.45, 0.55) ticking YES) as (Hf & _ & Hc & _);
      [reflexivity|reflexivity|discriminate|].
    split; [exact Hf|exact Hc].
  - set (o1 := (0.45, 0.55)). set (o2 := (0.4, 0.6)).
    set (u1 := LeaderTracker.update o1.1 o1.2 t ticking).
    destruct (H2 t o1 o2 ticking YES u1.1.1
                 (LeaderTracker.update o2.1 o2.2 u1.1.2 u1.2).1.1)
      as (_ & _ & _ & _ & Hc2 & _);
      [reflexivity|reflexivity|discriminate|reflexivity| |exact Hc2].
    rewrite !leader_run_cons. reflexivity.
Defined.

(** ** Guardrails *)

Section GuardrailFacts.

Variable toFixed : Q -> nat -> string.
Variable str : Q -> string.
Variable cfg : Guardrails.config.

Lemma checkRHR_passed elapsedSec windowSec :
  Guardrails.passed (Guardrails.checkRHR toFixed str cfg elapsedSec windowSec)
    = true <->
  Guardrails.RHR_THRESHOLD cfg <= elapsedSec / default 900 windowSec.
Proof. cbn. apply JS_ge_spec. Qed.

Lemma checkOBI_passed obi side :
  Guardrails.passed (Guardrails.checkOBI toFixed str cfg obi side) = true <->
  Guardrails.OBI_BLOCK_THRESHOLD cfg < obi.
Proof. cbn. rewrite negb_true_iff. apply JS_le_false. Qed.

Lemma checkFlips_passed flipCount shares :
  Guardrails.passed (Guardrails.checkFlips str cfg flipCount shares) = true <->
  ~ (Guardrails.FLIP_SKIP_COUNT cfg <= flipCount /\ shares == 0).
Proof.
  unfold Guardrails.checkFlips.
  destruct (JS.ge flipCount (Guardrails.FLIP_SKIP_COUNT cfg)) eqn:E1;
    destruct (JS.eq shares 0) eqn:E2; cbn [andb].
  - apply JS_ge_spec in E1. apply JS_eq_spec in E2. cbn.
    split; [discriminate|]. intros H. exfalso. apply H. split; assumption.
  - apply JS_eq_false in E2.
    destruct (_ && _); cbn; (split; [intros _ [_ H]; contradiction|reflexivity]).
  - apply JS_ge_false in E1.
    destruct (_ && _); cbn;
      (split; [intros _ [H _]; revert H; apply Qlt_not_le; exact E1
              |reflexivity]).
  - apply JS_eq_false in E2.
    destruct (_ && _); cbn; (split; [intros _ [_ H]; contradiction|reflexivity]).
Qed.

Lemma checkFlips_mode flipCount shares :
  Guardrails.mode (Guardrails.checkFlips str cfg flipCount shares)
    = Some "RECOVERY"%string <->
  ~ (Guardrails.FLIP_SKIP_COUNT cfg <= flipCount /\ shares == 0) /\
  Guardrails.FLIP_RECOVERY_COUNT cfg <= flipCount /\ 0 < shares.
Proof.
  pose proof (checkFlips_passed flipCount shares) as Hp.
  unfold Guardrails.checkFlips in *.
  destruct (JS.ge flipCount (Guardrails.FLIP_SKIP_COUNT cfg) && JS.eq shares 0).
  - cbn in *. split; [discriminate|]. intros [H _].
    apply Hp in H. discriminate.
  - destruct (JS.ge flipCount (Guardrails.FLIP_RECOVERY_COUNT cfg)) eqn:E1;
      destruct (JS.gt shares 0) eqn:E2; cbn in *.
    + apply JS_ge_spec in E1. apply JS_gt_spec in E2.
      split; [intros _|reflexivity]. split; [apply Hp; reflexivity|].
      split; assumption.
    + apply JS_gt_false in E2. split; [discriminate|].
      intros (_ & _ & H). exfalso. revert E2. apply Qlt_not_le. exact H.
    + apply JS_ge_false in E1. split; [discriminate|].
      intros (_ & H & _). exfalso. revert H. apply Qlt_not_le. exact E1.
    + apply JS_ge_false in E1. split; [discriminate|].
      intros (_ & H & _). exfalso. revert H. apply Qlt_not_le. exact E1.
Qed.

Lemma checkStability_passed stability :
  Guardrails.passed (Guardrails.checkStability toFixed str cfg stability)
    = true <->
  Guardrails.MIN_STABILITY cfg <= stability.
Proof. cbn. apply JS_ge_spec. Qed.

Lemma checkSpread_passed priceYes priceNo :
  Guardrails.passed (Guardrails.checkSpread toFixed cfg priceYes priceNo)
    = true <->
  Guardrails.MIN_SPREAD cfg <= Qabs (priceYes - priceNo) /\
  Qabs (priceYes - priceNo) <= Guardrails.MAX_SPREAD cfg.
Proof.
  cbn. rewrite andb_true_iff, !negb_true_iff.
  rewrite JS_lt_false, JS_gt_false. reflexivity.
Qed.

Lemma checkPairCost_passed pairCost :
  Guardrails.passed (Guardrails.checkPairCost toFixed str cfg pairCost)
    = true <->
  match pairCost with
  | None => True
  | Some pc => pc <= Guardrails.MAX_PAIR_COST cfg
  end.
Proof.
  destruct pairCost as [pc|]; cbn; [apply JS_le_spec|].
  split; auto.
Qed.

(** Every failing sub-check gives a reason. *)
Lemma failing_check_has_reason i name r :
  In (name, r)
     (Guardrails.entries
        (Guardrails.d_results (Guardrails.checkAll toFixed str cfg i))) ->
  Guardrails.passed r = false -> is_Some (Guardrails.reason r).
Proof.
  cbn [Guardrails.checkAll Guardrails.d_results Guardrails.entries
       Guardrails.r_foreman Guardrails.r_rhr Guardrails.r_obi
       Guardrails.r_flips Guardrails.r_stability Guardrails.r_spread
       Guardrails.r_pairCost In].
  intros [H|[H|[H|[H|[H|[H|[H|[]]]]]]]]; inversion H; subst; clear H.
  - cbn. intros ->. cbn. eauto.
  - cbn. intros ->. eauto.
  - cbn. rewrite negb_false_iff. intros ->. eauto.
  - unfold Guardrails.checkFlips.
    destruct (_ && _); [cbn; eauto|].
    destruct (_ && _); cbn; discriminate.
  - cbn. intros ->. eauto.
  - cbn. destruct (JS.lt _ _); [eauto|]. destruct (JS.gt _ _); [eauto|].
    discriminate.
  - destruct (Guardrails.pairCost i); cbn; [|discriminate].
    intros ->. eauto.
Qed.

End GuardrailFacts.

Lemma checkAll_allowed toFixed str cfg i :
  Guardrails.allowed (Guardrails.checkAll toFixed str cfg i) = true <->
  Forall (fun r => Guardrails.passed r = true)
         (Guardrails.values
            (Guardrails.d_results (Guardrails.checkAll toFixed str cfg i))).
Proof.
  cbn [Guardrails.checkAll Guardrails.allowed Guardrails.d_results].
  rewrite List.forallb_forall, List.Forall_forall. reflexivity.
Qed.

Lemma checkAll_blockers toFixed str cfg i b :
  In b (Guardrails.blockers (Guardrails.checkAll toFixed str cfg i)) <->
  exists r,
    In (Guardrails.name b, r)
       (Guardrails.entries
          (Guardrails.d_results (Guardrails.checkAll toFixed str cfg i))) /\
    Guardrails.passed r = false /\
    Guardrails.b_reason b = Guardrails.reason r.
Proof.
  cbn [Guardrails.checkAll Guardrails.blockers Guardrails.d_results].
  rewrite in_map_iff. split.
  - intros ([name r] & <- & Hin). apply filter_In in Hin as [Hin Hp].
    exists r. rewrite negb_true_iff in Hp. auto.
  - intros (r & Hin & Hp & Hr). exists (Guardrails.name b, r). split.
    + destruct b; cbn in *. congruence.
    + apply filter_In. rewrite negb_true_iff. auto.
Qed.

Lemma blockers_of_entries (l : list (string * Guardrails.result)) :
  map Guardrails.name
    (map (fun '(name, r) => Guardrails.mkBlocker name (Guardrails.reason r))
         (List.filter (fun '(_, r) => negb (Guardrails.passed r)) l)) =
  map fst (List.filter (fun e => negb (Guardrails.passed e.2)) l) /\
  length (List.filter (fun '(_, r) => negb (Guardrails.passed r)) l) =
  length (List.filter (fun r => negb (Guardrails.passed r)) (map snd l)).
Proof.
  induction l as [|[name r] l [IH1 IH2]]; [split; reflexivity|].
  cbn [List.filter map snd fst].
  destruct (negb (Guardrails.passed r)); cbn [map length fst Guardrails.name];
    split; congruence.
Qed.

Lemma NoDup_map_fst_filter {A B} (P : A * B -> bool) (l : list (A * B)) :
  NoDup (map fst l) -> NoDup (map fst (List.filter P l)).
Proof.
  induction l as [|e l IH]; cbn [List.filter map]; [auto|].
  intros Hnd. apply NoDup_cons in Hnd as [Hnotin Hnd].
  destruct (P e); cbn [map]; [|auto].
  apply NoDup_cons. split; [|auto].
  intros Hin. apply Hnotin.
  apply list_elem_of_In in Hin. apply list_elem_of_In.
  apply in_map_iff in Hin as (x & Hx & Hin). apply in_map_iff.
  exists x. split; [exact Hx|]. apply filter_In in Hin. tauto.
Qed.

Lemma checkAll_blocker_names toFixed str cfg i :
  NoDup (map Guardrails.name
           (Guardrails.blockers (Guardrails.checkAll toFixed str cfg i))) /\
  length (Guardrails.blockers (Guardrails.checkAll toFixed str cfg i)) =
  length (List.filter (fun r => negb (Guardrails.passed r))
            (Guardrails.values
               (Guardrails.d_results
                  (Guardrails.checkAll toFixed str cfg i)))).
Proof.
  cbn [Guardrails.checkAll Guardrails.blockers Guardrails.d_results].
  unfold Guardrails.values.
  match goal with
  | |- context [List.filter _ (Guardrails.entries ?rs)] =>
      destruct (blockers_of_entries (Guardrails.entries rs)) as [Hn Hl]
  end.
  rewrite Hn, length_map, Hl. split; [|reflexivity].
  apply NoDup_map_fst_filter.
  apply (bool_decide_unpack _). vm_compute. exact I.
Qed.



(** ** RegimeTracker *)

Lemma fold_left_Rsum (l : list R) :
  forall a, fold_left (fun a b => a + b)%R l a = (a + Rsum l)%R.
Proof.
  induction l as [|x l IH]; intros a; cbn [fold_left Rsum fold_right].
  - ring.
  - rewrite IH. unfold Rsum. ring.
Qed.

Lemma fold_left_Rsum_sq (l : list R) (m : R) :
  forall a,
    fold_left (fun sum s => sum + (s - m) ^ 2)%R l a =
    (a + Rsum (map (fun x => (x - m) ^ 2)%R l))%R.
Proof.
  induction l as [|x l IH]; intros a; cbn [fold_left Rsum fold_right map].
  - ring.
  - rewrite IH. unfold Rsum. ring.
Qed.

Lemma calculateStats_short asset t :
  (length (scores asset t) < 3)%nat ->
  RegimeTracker.calculateStats asset t =
  RegimeTracker.mkStats (5 / 10) (5 / 10) 0.
Proof.
  unfold scores, RegimeTracker.calculateStats. intros H.
  rewrite length_map in H. apply Nat.ltb_lt in H. rewrite H. reflexivity.
Qed.

Lemma calculateStats_long asset t :
  (3 <= length (scores asset t))%nat ->
  RegimeTracker.calculateStats asset t =
  RegimeTracker.mkStats (mean (scores asset t))
                        (population_std (scores asset t))
                        (half_trend (scores asset t)).
Proof.
  unfold scores, RegimeTracker.calculateStats. intros H.
  set (hist := default [] _) in *.
  assert (E : (length hist <? 3)%nat = false)
    by (apply Nat.ltb_ge; rewrite length_map in H; exact H).
  rewrite E. set (h := map RegimeTracker.score hist).
  unfold mean, population_std, half_trend, mean.
  rewrite !fold_left_Rsum, fold_left_Rsum_sq, !Rplus_0_l. reflexivity.
Qed.

Lemma updateRegime_regime asset t c :
  (RegimeTracker.updateRegime asset t c).1.1 = regime_of (scores asset t) /\
  RegimeTracker.getRegime asset (RegimeTracker.updateRegime asset t c).1.2 =
    regime_of (scores asset t) /\
  RegimeTracker.r_stats
    (RegimeTracker.getRegimeDetails asset
       (RegimeTracker.updateRegime asset t c).1.2) =
    RegimeTracker.calculateStats asset t /\
  RegimeTracker.history (RegimeTracker.updateRegime asset t c).1.2 =
    RegimeTracker.history t.
Proof.
  assert (Hr : (let stats := RegimeTracker.calculateStats asset t in
                if Rlt_dec (RegimeTracker.std stats)
                           RegimeTracker.STEADY_THRESHOLD
                then if Rlt_dec (5 / 100) (RegimeTracker.trend stats)
                     then RegimeTracker.WAKING
                     else if Rlt_dec (RegimeTracker.trend stats) (- (5 / 100))
                          then RegimeTracker.FADING
                          else RegimeTracker.STEADY
                else RegimeTracker.CHOPPY) = regime_of (scores asset t)).
  { unfold regime_of, RegimeTracker.STEADY_THRESHOLD. cbv zeta.
    destruct (length (scores asset t) <? 3)%nat eqn:E.
    - apply Nat.ltb_lt in E. rewrite (calculateStats_short _ _ E).
      cbn [RegimeTracker.std]. destruct (Rlt_dec _ _); [rlra|reflexivity].
    - apply Nat.ltb_ge in E. rewrite (calculateStats_long _ _ E).
      reflexivity. }
  unfold RegimeTracker.updateRegime, RegimeTracker.getRegime,
    RegimeTracker.getRegimeDetails. unfold_M.
  cbn [fst snd RegimeTracker.regimes RegimeTracker.history].
  rewrite lookup_insert_eq. cbn [RegimeTracker.regime RegimeTracker.r_stats].
  cbv zeta in Hr. rewrite Hr. auto.
Qed.

Lemma regime_of_classifies asset t :
  classifies (scores asset t) (RegimeTracker.calculateStats asset t)
             (regime_of (scores asset t)).
Proof.
  unfold classifies, regime_of. split.
  - intros H. rewrite (calculateStats_short _ _ H).
    apply Nat.ltb_lt in H. rewrite H. auto.
  - intros H. rewrite (calculateStats_long _ _ H).
    apply Nat.ltb_ge in H. rewrite H. split; [reflexivity|].
    destruct (Rlt_dec (population_std _) _) as [Hs|Hs];
      [destruct (Rlt_dec (5 / 100) _) as [Hw|Hw];
       [|destruct (Rlt_dec _ (- (5 / 100))) as [Hf|Hf]]|];
      repeat split; intros; try reflexivity; exfalso; rlra.
Qed.

Lemma addScore_scores asset s t c :
  scores asset (RegimeTracker.addScore asset s t c).1 =
  (let h := scores asset t ++ [s] in
   if (RegimeTracker.HISTORY_SIZE <? length h)%nat then tail h else h) /\
  RegimeTracker.getRegime asset (RegimeTracker.addScore asset s t c).1 =
    regime_of (scores asset (RegimeTracker.addScore asset s t c).1) /\
  classifies (scores asset (RegimeTracker.addScore asset s t c).1)
    (RegimeTracker.r_stats
       (RegimeTracker.getRegimeDetails asset
          (RegimeTracker.addScore asset s t c).1))
    (RegimeTracker.getRegime asset (RegimeTracker.addScore asset s t c).1).
Proof.
  unfold RegimeTracker.addScore. unfold_M.
  set (hist := default [] (RegimeTracker.history t !! asset)).
  set (hist' := if (RegimeTracker.HISTORY_SIZE <?
                    length (hist ++ [RegimeTracker.mkEntry s (c 0%nat)]))%nat
                then tail (hist ++ [RegimeTracker.mkEntry s (c 0%nat)])
                else hist ++ [RegimeTracker.mkEntry s (c 0%nat)]).
  set (t1 := RegimeTracker.mk (<[asset:=hist']> (RegimeTracker.history t))
                              (RegimeTracker.regimes t)).
  set (c1 := fun n => c (S n)).
  destruct (updateRegime_regime asset t1 c1) as (_ & Hg & Hst & Hh).
  destruct (RegimeTracker.updateRegime asset t1 c1) as [[r t2] c2].
  cbn [fst snd] in *.
  assert (Hs2 : scores asset t2 = scores asset t1)
    by (unfold scores; rewrite Hh; reflexivity).
  assert (Hs1 : scores asset t1 = map RegimeTracker.score hist').
  { unfold scores, t1. cbn [RegimeTracker.history].
    rewrite lookup_insert_eq. reflexivity. }
  split; [|split].
  - rewrite Hs2, Hs1. clear. subst hist'. unfold scores. fold hist. cbv zeta.
    rewrite !length_app, !length_map.
    assert (Hm : map RegimeTracker.score
                   (hist ++ [RegimeTracker.mkEntry s (c 0%nat)]) =
                 map RegimeTracker.score hist ++ [s])
      by (rewrite map_app; reflexivity).
    rewrite <- Hm. cbn [length].
    destruct (RegimeTracker.HISTORY_SIZE <? length hist + 1)%nat;
      [|reflexivity].
    destruct (hist ++ _); reflexivity.
  - rewrite Hg, Hs2. reflexivity.
  - rewrite Hg, Hst, Hs2. apply regime_of_classifies.
Qed.



(** ** The per-asset state machine *)

Lemma detectNewWindow_new asset assetOrder window st rt c :
  Some (Worker.w_id window) <> Worker.lastWindowId st ->
  let st' := (Worker.detectNewWindow asset assetOrder window st rt c).1.1 in
  freshly_reset (Worker.w_id window) st' /\
  LeaderTracker.pendingFlip (Worker.leaderTracker st') = None /\
  LeaderTracker.pendingFlipCount (Worker.leaderTracker st') = 0%Z /\
  LeaderTracker.currentLeader (Worker.leaderTracker st') =
    LeaderTracker.currentLeader (Worker.leaderTracker st) /\
  Worker.obiCalculator st' = Worker.obiCalculator st /\
  Worker.lastTokens st' =
    Worker.mkTokens (Worker.up assetOrder) (Worker.down assetOrder).
Proof.
  intros Hnew st'. subst st'. unfold Worker.detectNewWindow.
  rewrite bool_decide_eq_true_2 by exact Hnew. unfold_M.
  match goal with
  | |- context [let '(_, _) := ?m c in _] => destruct (m c) as [rt' c']
  end.
  cbn. unfold freshly_reset. cbn. repeat split; reflexivity.
Qed.

Lemma detectNewWindow_same asset assetOrder window st rt c :
  Some (Worker.w_id window) = Worker.lastWindowId st ->
  Worker.detectNewWindow asset assetOrder window st rt c = (st, rt, c).
Proof.
  intros Hsame. unfold Worker.detectNewWindow.
  rewrite bool_decide_eq_false_2 by (intros H; apply H; exact Hsame).
  reflexivity.
Qed.

(** [beginTick] after the new-window block: the trackers are updated, the
    rest of the state is as the block left it. *)
Lemma beginTick_effect asset assetOrder window feed st rt c :
  let st1 := (Worker.detectNewWindow asset assetOrder window st rt c).1.1 in
  let r := (Worker.beginTick asset assetOrder window feed st rt c).1 in
  let st2 := r.1.1.1.1 in
  let info := r.1.1.2 in
  (exists c1,
     info = (LeaderTracker.update r.1.2 r.2 (Worker.leaderTracker st1) c1).1.1 /\
     Worker.leaderTracker st2 =
       (LeaderTracker.update r.1.2 r.2 (Worker.leaderTracker st1) c1).1.2) /\
  Worker.state st2 = Worker.state st1 /\
  Worker.position st2 = Worker.position st1 /\
  Worker.entryDone st2 = Worker.entryDone st1 /\
  Worker.ladderDone st2 = Worker.ladderDone st1 /\
  Worker.lockDetector st2 = Worker.lockDetector st1 /\
  Worker.lastWindowId st2 = Worker.lastWindowId st1 /\
  Worker.lastTokens st2 = Worker.lastTokens st1.
Proof.
  cbv zeta. unfold Worker.beginTick. unfold_M.
  destruct (Worker.detectNewWindow asset assetOrder window st rt c)
    as [[st1 rt1] c1].
  cbn [fst snd].
  match goal with
  | |- context [let '(_, _) := ?pp in _] => destruct pp as [pY pN]
  end.
  destruct (LeaderTracker.update pY pN (Worker.leaderTracker st1) c1)
    as [[info lt] c2] eqn:Eu.
  match goal with
  | |- context [OBICalculator.updateOBIFromMarket ?a ?b ?m ?o ?k] =>
      destruct (OBICalculator.updateOBIFromMarket a b m o k) as [[meth oc] c3]
  end.
  cbn. split; [|repeat split; reflexivity].
  exists c1. rewrite Eu. split; reflexivity.
Qed.

Lemma checkAll_recovery_needs_shares toFixed str g i :
  String.eqb (Guardrails.d_mode (Guardrails.checkAll toFixed str g i))
             "RECOVERY" = true ->
  0 < Guardrails.shares i.
Proof.
  cbn [Guardrails.checkAll Guardrails.d_mode Guardrails.r_flips].
  destruct (forallb _ _); [|discriminate].
  destruct (bool_decide _) eqn:E; [|discriminate]. intros _.
  apply bool_decide_eq_true_1 in E. apply checkFlips_mode in E. tauto.
Qed.

(** Case analysis on the code of a handler. *)
Ltac handler_cases :=
  repeat first
    [ progress cbn [fst snd]
    | match goal with
      | |- context [if ?b then _ else _] => destruct b eqn:?
      | |- context [match ?x with Some _ => _ | None => _ end] =>
          destruct x eqn:?
      | |- context [match ?x with FILLED _ _ => _ | _ => _ end] =>
          destruct x eqn:?
      | |- context [match ?x with
                    | LockDetector.Finite _ => _
                    | LockDetector.Infinity => _
                    end] => destruct x eqn:?
      | |- context [let '(_, _) := ?m in _] => destruct m as [? ?] eqn:?
      end ].

Ltac keeps_done :=
  unfold keeps_window_state; cbn;
  repeat split; auto; try discriminate; try lia; try congruence;
  try (right;
       first [ do 3 eexists; reflexivity
             | exists YES; do 2 eexists; reflexivity
             | exists NO; do 2 eexists; reflexivity ]).

Section StateMachineFacts.

Context {E : Type} `{ExchangeInterface E}.
Variable toFixed : Q -> nat -> string.
Variable str : Q -> string.

Lemma handleArmed_effect st window info g c :
  let st' := (Worker.handleArmed toFixed str st window info g c).1 in
  (Worker.state st' = Worker.state st \/ Worker.state st' = Worker.ENTRY \/
   (Worker.state st' = Worker.RECOVERY /\
    0 < yesShares (Worker.position st) + noShares (Worker.position st))) /\
  Worker.position st' = Worker.position st /\
  Worker.entryDone st' = Worker.entryDone st /\
  Worker.ladderDone st' = Worker.ladderDone st /\
  Worker.lockDetector st' = Worker.lockDetector st /\
  Worker.leaderTracker st' = Worker.leaderTracker st /\
  Worker.lastWindowId st' = Worker.lastWindowId st /\
  Worker.lastTokens st' = Worker.lastTokens st.
Proof.
  cbv zeta. unfold Worker.handleArmed. unfold_M.
  destruct (OBICalculator.getRollingOBI _ _ c) as [[obi oc] c1].
  destruct (Guardrails.allowed _) eqn:Ea;
    [destruct (String.eqb _ _) eqn:Em|]; cbn; repeat split; auto.
  apply checkAll_recovery_needs_shares in Em. cbn in Em. auto.
Qed.

Lemma dispatch_keeps st assetOrder window orders info pY pN g (ex : E) c :
  let st' :=
    (Worker.dispatch toFixed str st assetOrder window orders info pY pN g
                     ex c).1.1 in
  keeps_window_state st st' /\
  Worker.leaderTracker st' = Worker.leaderTracker st.
Proof.
  cbv zeta. unfold Worker.dispatch.
  destruct (Worker.state st) eqn:Est.
  - (* IDLE *) cbn. keeps_done.
  - (* ARMED *)
    unfold_M.
    pose proof (handleArmed_effect st window info g c) as Ha. cbv zeta in Ha.
    destruct (Worker.handleArmed toFixed str st window info g c) as [st' c'].
    cbn [fst snd] in *.
    destruct Ha as (Hs & Hp & He & Hl & Hk & Ht & Hw & Hto).
    unfold keeps_window_state. rewrite Hp, He, Hl, Hk, Ht, Hw, Hto.
    repeat split; auto; try lia.
  - (* ENTRY *)
    unfold Worker.handleEntry. unfold_M. handler_cases; keeps_done.
  - (* LADDERING *)
    unfold Worker.handleLaddering. unfold_M. handler_cases; keeps_done.
  - (* LOCKING *)
    unfold Worker.handleLocking. unfold_M.
    pose proof (checkLock_locked (Worker.position st) (Worker.lockDetector st) c)
      as (Hr & Hl & _).
    destruct (LockDetector.checkLock _ _ c) as [[r ld] c1].
    cbn [fst snd] in *.
    assert (Hmono : LockDetector.locked (Worker.lockDetector st) = true ->
                    LockDetector.locked ld = true)
      by (intros Hx; rewrite Hl, Hx; reflexivity).
    handler_cases; keeps_done.
  - (* LOCKED *)
    handler_cases; keeps_done.
  - (* RECOVERY *)
    unfold Worker.handleRecovery. unfold_M. handler_cases; keeps_done.
  - (* ENDGAME *)
    unfold_M.
    destruct (Worker.handleEndgame _ _ _ _ _ _ _ _) as [ex' c']. keeps_done.
Qed.

End StateMachineFacts.

Lemma update_totalFlips_mono pY pN t c :
  (LeaderTracker.totalFlips t <=
   LeaderTracker.totalFlips (LeaderTracker.update pY pN t c).1.2)%Z.
Proof.
  pose proof (update_effect pY pN t c) as H. cbv zeta in H.
  destruct H as (_ & _ & H).
  destruct (LeaderTracker.currentLeader t);
    repeat match type of H with
           | if ?b then _ else _ => destruct b
           end;
    destruct H as (_ & _ & _ & _ & ->); lia.
Qed.

(** An update of a tracker that has no candidate pending and no flip on
    record confirms nothing and records nothing. *)
Lemma update_no_pending pY pN t c :
  LeaderTracker.pendingFlip t = None ->
  RollingCounter.events (LeaderTracker.flipCounter t) = [] ->
  let i := (LeaderTracker.update pY pN t c).1.1 in
  let t' := (LeaderTracker.update pY pN t c).1.2 in
  LeaderTracker.flipped i = false /\
  LeaderTracker.flipCount i = 0%nat /\
  LeaderTracker.totalFlips t' = LeaderTracker.totalFlips t /\
  RollingCounter.events (LeaderTracker.flipCounter t') = [].
Proof.
  intros Hp Hev. cbv zeta. unfold LeaderTracker.update. unfold_M.
  destruct (RollingAverage.add _ _ _ _) as [lh c1].
  cbn [LeaderTracker.currentLeader LeaderTracker.set_leaderHistory
       LeaderTracker.pendingFlip LeaderTracker.pendingFlipCount].
  rewrite Hp.
  assert (Hcount : forall k,
    RollingCounter.getCount (LeaderTracker.flipCounter t) k =
    (0%nat, RollingCounter.mk
              (RollingCounter.windowMs (LeaderTracker.flipCounter t)) [],
     fun n => k (S n))).
  { intros k. unfold RollingCounter.getCount, RollingCounter.cleanup.
    unfold_M. rewrite Hev. reflexivity. }
  destruct (LeaderTracker.currentLeader t) as [cur|].
  - destruct (bool_decide _) eqn:E1.
    + rewrite bool_decide_eq_false_2 by discriminate.
      cbn [LeaderTracker.flipCounter LeaderTracker.set_pendingFlip
           LeaderTracker.set_pendingFlipCount LeaderTracker.set_leaderHistory].
      rewrite Hcount. cbn. auto.
    + cbn [LeaderTracker.flipCounter LeaderTracker.set_pendingFlip
           LeaderTracker.set_pendingFlipCount LeaderTracker.set_leaderHistory].
      rewrite Hcount. cbn. auto.
  - cbn [LeaderTracker.flipCounter LeaderTracker.set_currentLeader
         LeaderTracker.set_leaderHistory].
    rewrite Hcount. cbn. auto.
Qed.

Section ProcessAssetFacts.

Context {E : Type} `{ExchangeInterface E}.
Variable toFixed : Q -> nat -> string.
Variable str : Q -> string.

Lemma dispatch_armed st assetOrder window orders info pY pN g (ex : E) c :
  Worker.state st = Worker.ARMED ->
  Worker.dispatch toFixed str st assetOrder window orders info pY pN g ex c =
  ((Worker.handleArmed toFixed str st window info g c).1, ex,
   (Worker.handleArmed toFixed str st window info g c).2).
Proof.
  intros Hs. unfold Worker.dispatch. rewrite Hs. unfold_M.
  destruct (Worker.handleArmed toFixed str st window info g c). reflexivity.
Qed.

(** [processAsset] as the sequence of its three stages. *)
Lemma processAsset_stages asset assetOrder window orders feed
    (self : Worker.t) c :
  let st0 := Worker.initAssetState asset (Worker.assetState self) in
  let bt :=
    Worker.beginTick asset assetOrder window feed st0
                     (Worker.resolutionTracker self) c in
  let st2 := bt.1.1.1.1.1 in
  let dp :=
    Worker.dispatch toFixed str st2 assetOrder window orders bt.1.1.1.2
                    bt.1.1.2 bt.1.2 (Worker.guardrails self)
                    (Worker.exchange self) bt.2 in
  let ob :=
    OBICalculator.getRollingOBI (Some "YES"%string)
                                (Worker.obiCalculator dp.1.1) dp.2 in
  let out :=
    Worker.processAsset toFixed str asset assetOrder window orders feed
                        self c in
  Worker.assetState out.1.2 =
    <[asset := Worker.set_obiCalculator ob.1.2 dp.1.1]>
      (Worker.assetState self) /\
  Worker.exchange out.1.2 = dp.1.2 /\
  Worker.guardrails out.1.2 = Worker.guardrails self /\
  Worker.t_state out.1.1 = Worker.state dp.1.1 /\
  Worker.t_position out.1.1 = Worker.position dp.1.1 /\
  Worker.t_locked out.1.1 =
    LockDetector.locked (Worker.lockDetector dp.1.1) /\
  Worker.t_flips out.1.1 = LeaderTracker.flipCount bt.1.1.1.2.
Proof.
  cbv zeta. unfold Worker.processAsset. unfold_M.
  destruct (Worker.beginTick _ _ _ _ _ _ c) as [[[[[st2 rt2] info] pY] pN] c1].
  cbn [fst snd].
  destruct (Worker.dispatch _ _ _ _ _ _ _ _ _ _ _ c1) as [[st3 ex3] c2].
  cbn [fst snd].
  destruct (OBICalculator.getRollingOBI _ _ c2) as [[obi oc] c3].
  cbn. repeat split; reflexivity.
Qed.

End ProcessAssetFacts.



(** * Further properties of the code *)

(** ** LockDetector: deficits, pair cost and recovery sizing *)

Lemma Qabs_of_neg x : x < 0 -> Qabs x == - x.
Proof. intros H. apply Qabs_neg. apply Qlt_le_weak. exact H. Qed.

Lemma deficit_spec x :
  let d := if JS.lt x 0 then JS.Math_abs x else 0 in
  0 <= d /\ (x < 0 -> d == - x) /\ (0 <= x -> d = 0) /\ (0 < d <-> x < 0).
Proof.
  cbv zeta. unfold JS.Math_abs. destruct (JS.lt x 0) eqn:E.
  - apply JS_lt_spec in E. pose proof (Qabs_of_neg x E) as A.
    set (ax := Qabs x) in *.
    repeat split; intros; try qlra.
  - apply JS_lt_false in E.
    repeat split; intros; try reflexivity; try qlra.
Qed.

Lemma JS_ge_negb_lt x y : JS.ge x y = negb (JS.lt x y).
Proof. unfold JS.ge, JS.lt. rewrite negb_involutive. reflexivity. Qed.

(** X1.  In every analysis the deficits are non-negative, the deficit of a
    side is the loss on that side (0 when the side does not lose),
    [needsRecovery] is the negation of [isBreakeven], a dual lock is a
    breakeven without recovery need, the recovery side is YES exactly when
    fewer YES than NO shares are held, and the recovery side carries the
    larger deficit. *)
Theorem analysis_deficits_and_recovery :
  forall p : Position,
    let a := LockDetector.analyzePosition p in
    let d := if bool_decide (LockDetector.recoverySide a = YES)
             then LockDetector.yesDeficit a else LockDetector.noDeficit a in
    LockDetector.needsRecovery a = negb (LockDetector.isBreakeven a) /\
    (LockDetector.isDualLock a = true ->
     LockDetector.isBreakeven a = true /\
     LockDetector.needsRecovery a = false) /\
    (0 <= LockDetector.yesDeficit a /\ 0 <= LockDetector.noDeficit a) /\
    (LockDetector.pnlIfYesWins a < 0 ->
     LockDetector.yesDeficit a == - LockDetector.pnlIfYesWins a) /\
    (0 <= LockDetector.pnlIfYesWins a -> LockDetector.yesDeficit a = 0) /\
    (LockDetector.pnlIfNoWins a < 0 ->
     LockDetector.noDeficit a == - LockDetector.pnlIfNoWins a) /\
    (0 <= LockDetector.pnlIfNoWins a -> LockDetector.noDeficit a = 0) /\
    (LockDetector.needsRecovery a = true <->
     0 < LockDetector.yesDeficit a \/ 0 < LockDetector.noDeficit a) /\
    (LockDetector.recoverySide a = YES <-> yesShares p < noShares p) /\
    (LockDetector.yesDeficit a <= d /\ LockDetector.noDeficit a <= d).
Proof.
  intros p a d. subst d a.
  cbn [LockDetector.analyzePosition LockDetector.needsRecovery
       LockDetector.isBreakeven LockDetector.isDualLock
       LockDetector.yesDeficit LockDetector.noDeficit
       LockDetector.pnlIfYesWins LockDetector.pnlIfNoWins
       LockDetector.recoverySide].
  pose proof (calculatePayoff_YES p) as EY.
  pose proof (calculatePayoff_NO p) as EN.
  set (y := LockDetector.calculatePayoff p YES) in *.
  set (n := LockDetector.calculatePayoff p NO) in *.
  destruct (deficit_spec y) as (Y0 & Y1 & Y2 & Y3).
  destruct (deficit_spec n) as (N0 & N1 & N2 & N3).
  set (dy := if JS.lt y 0 then JS.Math_abs y else 0) in *.
  set (dn := if JS.lt n 0 then JS.Math_abs n else 0) in *.
  assert (Hside : (if JS.lt y n then YES else NO) = YES <-> y < n).
  { destruct (JS.lt y n) eqn:E.
    - apply JS_lt_spec in E. tauto.
    - apply JS_lt_false in E. split; [discriminate|].
      intros H. exfalso. revert E. apply Qlt_not_le. exact H. }
  split; [|split; [|split; [|split; [|split; [|split; [|split; [|split; [|split]]]]]]]].
  - rewrite !JS_ge_negb_lt. destruct (JS.lt y 0), (JS.lt n 0); reflexivity.
  - rewrite andb_true_iff, !JS_gt_spec. intros [Hy Hn].
    rewrite !JS_ge_negb_lt.
    assert (Ly : JS.lt y 0 = false) by (apply JS_lt_false; qlra).
    assert (Ln : JS.lt n 0 = false) by (apply JS_lt_false; qlra).
    rewrite Ly, Ln. split; reflexivity.
  - split; assumption.
  - exact Y1.
  - exact Y2.
  - exact N1.
  - exact N2.
  - rewrite orb_true_iff, !JS_lt_spec, Y3, N3. reflexivity.
  - rewrite Hside, EY, EN. split; intros; qlra.
  - destruct (JS.lt y n) eqn:E.
    + rewrite bool_decide_eq_true_2 by reflexivity.
      apply JS_lt_spec in E. split; [qlra|].
      destruct (Qlt_le_dec n 0) as [Hn|Hn].
      * rewrite (N1 Hn), (Y1 ltac:(qlra)). qlra.
      * rewrite (N2 Hn). exact Y0.
    + rewrite bool_decide_eq_false_2 by discriminate.
      apply JS_lt_false in E. split; [|qlra].
      destruct (Qlt_le_dec y 0) as [Hy|Hy].
      * rewrite (Y1 Hy), (N1 ltac:(qlra)). qlra.
      * rewrite (Y2 Hy). exact N0.
Qed.
Lemma Math_min_spec x y :
  (JS.Math_min x y == x \/ JS.Math_min x y == y) /\
  JS.Math_min x y <= x /\ JS.Math_min x y <= y.
Proof.
  unfold JS.Math_min. destruct (JS.lt y x) eqn:E.
  - apply JS_lt_spec in E. repeat split; try (right; reflexivity); qlra.
  - apply JS_lt_false in E. repeat split; try (left; reflexivity); qlra.
Qed.

(** X2.  For a position whose costs are non-negative, the dual lock holds
    exactly when the pair cost is defined and below 1; the pair cost is
    undefined exactly when one side holds no shares, and when defined it is
    the total cost divided by the shares of one of the sides. *)
Theorem dual_lock_iff_pair_cost_below_one :
  forall p : Position,
    0 <= yesCost p -> 0 <= noCost p ->
    let a := LockDetector.analyzePosition p in
    (LockDetector.isDualLock a = true <->
     exists pc, LockDetector.pairCost a = Some pc /\ pc < 1) /\
    (LockDetector.pairCost a = None <->
     yesShares p <= 0 \/ noShares p <= 0) /\
    (forall pc, LockDetector.pairCost a = Some pc ->
       0 <= pc /\
       (pc == (yesCost p + noCost p) / yesShares p \/
        pc == (yesCost p + noCost p) / noShares p)).
Proof.
  intros p Hyc Hnc a. subst a.
  rewrite isDualLock_spec.
  cbn [LockDetector.analyzePosition LockDetector.pairCost
       LockDetector.pnlIfYesWins LockDetector.pnlIfNoWins].
  rewrite calculatePayoff_YES, calculatePayoff_NO.
  destruct (Math_min_spec (yesShares p) (noShares p)) as (Hm & Hmy & Hmn).
  set (m := JS.Math_min (yesShares p) (noShares p)) in *.
  set (tc := yesCost p + noCost p) in *.
  assert (Htc : 0 <= tc) by (unfold tc; qlra).
  destruct (JS.gt m 0) eqn:E.
  - apply JS_gt_spec in E.
    assert (Hdiv : tc / m < 1 <-> tc < m).
    { split; intros H.
      - apply (Qmult_lt_r _ _ m E) in H.
        rewrite Qmult_1_l in H.
        assert (Hx : tc / m * m == tc) by (field; qlra).
        rewrite Hx in H. exact H.
      - apply Qlt_shift_div_r; [exact E|]. rewrite Qmult_1_l. exact H. }
    split; [|split].
    + split.
      * intros [H1 H2]. exists (tc / m). split; [reflexivity|].
        apply Hdiv. destruct Hm as [Hm|Hm]; rewrite Hm; qlra.
      * intros (pc & Hpc & Hlt). injection Hpc as <-.
        apply Hdiv in Hlt. split; qlra.
    + split; [discriminate|]. intros [H|H]; exfalso; qlra.
    + intros pc Hpc. injection Hpc as <-. split.
      * apply Qle_shift_div_l; [exact E|]. rewrite Qmult_0_l. exact Htc.
      * destruct Hm as [Hm|Hm]; [left|right]; rewrite Hm; reflexivity.
  - apply JS_gt_false in E. split; [|split].
    + split.
      * intros [H1 H2]. exfalso. destruct Hm as [Hm|Hm]; rewrite Hm in E; qlra.
      * intros (pc & Hpc & _). discriminate.
    + split; [intros _|reflexivity].
      destruct Hm as [Hm|Hm]; rewrite Hm in E; [left|right]; exact E.
    + intros pc Hpc. discriminate.
Qed.

Lemma dual_lock_iff_pair_cost_below_one_witness :
  exists pc,
    LockDetector.pairCost (LockDetector.analyzePosition (mkPosition 20 9 20 9))
      = Some pc /\ pc < 1.
Proof.
  apply (dual_lock_iff_pair_cost_below_one (mkPosition 20 9 20 9));
    [discriminate|discriminate|reflexivity].
Defined.
(** X3.  The share count [calculateRecoveryShares] returns for the deficit
    of a side is positive and, bought on that side at the given price (below
    1, buffer non-negative), brings the payoff of that side to at least
    [buffer * (1 - price)], so that the side has no deficit left. *)
Theorem recovery_shares_restore_the_side :
  forall (p : Position) (s : side) (price buffer : Q) (n : Z),
    let a := LockDetector.analyzePosition p in
    let deficit := if bool_decide (s = YES) then LockDetector.yesDeficit a
                   else LockDetector.noDeficit a in
    0 < deficit -> price < 1 -> 0 <= buffer ->
    LockDetector.calculateRecoveryShares deficit price (Some buffer) =
      LockDetector.Finite n ->
    let p' := Worker.buy s (inject_Z n) (inject_Z n * price) p in
    (0 < n)%Z /\
    buffer * (1 - price) <= LockDetector.calculatePayoff p' s /\
    (if bool_decide (s = YES)
     then LockDetector.yesDeficit (LockDetector.analyzePosition p')
     else LockDetector.noDeficit (LockDetector.analyzePosition p')) = 0.
Proof.
  intros p s price buffer n a deficit Hd Hp Hb Hn p'.
  assert (Hcalc : n = Qceiling (deficit / (1 - price) + buffer)).
  { unfold LockDetector.calculateRecoveryShares in Hn.
    apply JS_le_false in Hd. apply JS_ge_false in Hp.
    rewrite Hd, Hp in Hn. unfold JS.Math_ceil in Hn.
    injection Hn as <-. reflexivity. }
  pose proof (Qle_ceiling (deficit / (1 - price) + buffer)) as Hceil.
  rewrite <- Hcalc in Hceil.
  assert (H1p : 0 < 1 - price) by qlra.
  assert (Hmul : deficit + buffer * (1 - price) <= inject_Z n * (1 - price)).
  { apply (Qmult_le_compat_r _ _ (1 - price)) in Hceil; [|qlra].
    assert (Hx : (deficit / (1 - price) + buffer) * (1 - price) ==
                 deficit + buffer * (1 - price)) by (field; qlra).
    rewrite Hx in Hceil. exact Hceil. }
  assert (Hpnl : LockDetector.calculatePayoff p s == - deficit).
  { subst deficit a.
    cbn [LockDetector.analyzePosition LockDetector.yesDeficit
         LockDetector.noDeficit] in *.
    destruct s.
    - rewrite bool_decide_eq_true_2 in * by reflexivity.
      destruct (deficit_spec (LockDetector.calculatePayoff p YES))
        as (_ & D1 & _ & D3).
      rewrite (D1 (proj1 D3 Hd)). ring.
    - rewrite bool_decide_eq_false_2 in * by discriminate.
      destruct (deficit_spec (LockDetector.calculatePayoff p NO))
        as (_ & D1 & _ & D3).
      rewrite (D1 (proj1 D3 Hd)). ring. }
  assert (Hnew : LockDetector.calculatePayoff p' s ==
                 LockDetector.calculatePayoff p s + inject_Z n * (1 - price)).
  { subst p'. destruct s; unfold LockDetector.calculatePayoff, Worker.buy;
      cbn [yesShares yesCost noShares noCost]; ring. }
  assert (Hge : buffer * (1 - price) <= LockDetector.calculatePayoff p' s)
    by (rewrite Hnew, Hpnl; qlra).
  assert (Hbp : 0 <= buffer * (1 - price))
    by (apply Qmult_le_0_compat; qlra).
  split; [|split].
  - assert (Hq : 0 < inject_Z n).
    { apply (Qmult_lt_r _ _ (1 - price) H1p). qlra. }
    rewrite Zlt_Qlt. exact Hq.
  - exact Hge.
  - cbn [LockDetector.analyzePosition LockDetector.yesDeficit
         LockDetector.noDeficit].
    destruct s.
    + rewrite bool_decide_eq_true_2 by reflexivity.
      apply (deficit_spec (LockDetector.calculatePayoff p' YES)). qlra.
    + rewrite bool_decide_eq_false_2 by discriminate.
      apply (deficit_spec (LockDetector.calculatePayoff p' NO)). qlra.
Qed.

Lemma recovery_shares_restore_the_side_witness :
  let p' := Worker.buy NO 12 (12 * 0.4) (mkPosition 10 6 0 0) in
  (0 < 12)%Z /\
  2 * (1 - 0.4) <= LockDetector.calculatePayoff p' NO /\
  LockDetector.noDeficit (LockDetector.analyzePosition p') = 0.
Proof.
  apply (recovery_shares_restore_the_side (mkPosition 10 6 0 0) NO 0.4 2 12);
    [reflexivity|reflexivity|discriminate|reflexivity].
Defined.


(** ** Rolling averages and counters *)

Lemma fold_left_value_sum (l : list RollingAverage.sample) :
  forall a,
    fold_left (fun acc s => acc + RollingAverage.value s) l a ==
    a + Qsum (map RollingAverage.value l).
Proof.
  unfold Qsum.
  induction l as [|s l IH]; intros a; cbn [fold_left map fold_right].
  - ring.
  - rewrite IH. ring.
Qed.

Lemma Qsum_bounds (l : list Q) (lo hi : Q) :
  Forall (fun v => lo <= v /\ v <= hi) l ->
  lo * inject_Z (Z.of_nat (length l)) <= Qsum l /\
  Qsum l <= hi * inject_Z (Z.of_nat (length l)).
Proof.
  induction 1 as [|v l [Hlo Hhi] _ [IH1 IH2]].
  - unfold Qsum. cbn [length fold_right Z.of_nat].
    change (inject_Z 0) with 0.
    rewrite !Qmult_0_r. split; apply Qle_refl.
  - rewrite Qsum_cons. cbn [length]. rewrite Nat2Z.inj_succ.
    unfold Z.succ. rewrite inject_Z_plus. change (inject_Z 1) with 1.
    set (n := inject_Z (Z.of_nat (length l))) in *.
    assert (E1 : lo * (n + 1) == lo * n + lo) by ring.
    assert (E2 : hi * (n + 1) == hi * n + hi) by ring.
    rewrite E1, E2. split; qlra.
Qed.

Lemma cleanup_samples ra c :
  RollingAverage.samples (RollingAverage.cleanup ra c).1 =
    List.filter (fun s => (c 0%nat - RollingAverage.windowMs ra <=?
                           RollingAverage.timestamp s)%Z)
                (RollingAverage.samples ra) /\
  RollingAverage.windowMs (RollingAverage.cleanup ra c).1 =
    RollingAverage.windowMs ra /\
  (RollingAverage.cleanup ra c).2 = (fun n => c (S n)).
Proof. repeat split. Qed.

Lemma filter_nil_stale (l : list RollingAverage.sample) (cutoff : Z) :
  List.filter (fun s => (cutoff <=? RollingAverage.timestamp s)%Z) l = [] ->
  Forall (fun s => (RollingAverage.timestamp s < cutoff)%Z) l.
Proof.
  induction l as [|s l IH]; cbn; [constructor|].
  destruct (Z.leb_spec cutoff (RollingAverage.timestamp s)) as [Hle|Hlt];
    [discriminate|].
  intros Hnil. constructor; auto.
Qed.

(** What [getAverage] returns and keeps. *)
Lemma getAverage_effect :
  forall (ra : RollingAverage.t) (c : Clock) (lo hi : Q),
    values_within lo hi ra ->
    ((RollingAverage.getAverage ra c).1.1 = None <->
     no_sample_in_window ra (c 0%nat)) /\
    (forall v, (RollingAverage.getAverage ra c).1.1 = Some v ->
               lo <= v /\ v <= hi) /\
    values_within lo hi (RollingAverage.getAverage ra c).1.2 /\
    Forall (fun s => (c 0%nat - RollingAverage.windowMs ra <=
                      RollingAverage.timestamp s)%Z)
           (RollingAverage.samples (RollingAverage.getAverage ra c).1.2).
Proof.
  intros ra c lo hi Hv.
  unfold RollingAverage.getAverage. unfold_M.
  destruct (cleanup_samples ra c) as (Hs & Hw & Hc).
  destruct (RollingAverage.cleanup ra c) as [ra' c'] eqn:Ecl.
  cbn [fst snd] in *.
  assert (Hv' : values_within lo hi ra').
  { unfold values_within in *. rewrite Hs.
    rewrite List.Forall_forall in *. intros s Hin.
    apply filter_In in Hin as [Hin _]. auto. }
  assert (Hfresh : Forall (fun s => (c 0%nat - RollingAverage.windowMs ra <=
                                     RollingAverage.timestamp s)%Z)
                          (RollingAverage.samples ra')).
  { rewrite Hs. rewrite List.Forall_forall. intros s Hin.
    apply filter_In in Hin as [_ Hin]. apply Z.leb_le. exact Hin. }
  destruct (length (RollingAverage.samples ra') =? 0)%nat eqn:El.
  - cbn [fst snd]. apply Nat.eqb_eq in El.
    split; [|split; [|split]]; auto; [|discriminate].
    split; [intros _|reflexivity].
    unfold no_sample_in_window. apply filter_nil_stale.
    rewrite <- Hs. destruct (RollingAverage.samples ra'); [reflexivity|].
    discriminate.
  - cbn [fst snd]. apply Nat.eqb_neq in El.
    split; [|split; [|split]]; auto.
    + split; [discriminate|]. intros Hn. exfalso. apply El.
      rewrite Hs. rewrite (filter_stale _ _ Hn). reflexivity.
    + intros v Hv0. injection Hv0 as <-.
      rewrite fold_left_value_sum, Qplus_0_l.
      assert (Hb := Qsum_bounds (map RollingAverage.value
                                     (RollingAverage.samples ra')) lo hi).
      rewrite length_map in Hb.
      destruct Hb as [Hb1 Hb2].
      { unfold values_within in Hv'. rewrite List.Forall_forall in *.
        intros x Hx. apply in_map_iff in Hx as (s & <- & Hs'). auto. }
      assert (Hpos : 0 < inject_Z (Z.of_nat
                           (length (RollingAverage.samples ra')))).
      { change 0 with (inject_Z 0). rewrite <- Zlt_Qlt. lia. }
      split.
      * apply Qle_shift_div_l; assumption.
      * apply Qle_shift_div_r; assumption.
Qed.

(** X5. [RollingAverage.getAverage] first drops every sample older than
    the window, then averages what is left.  If every stored value lies
    between [lo] and [hi], the call returns [null] exactly when no sample
    is within the window of the time it reads, any number it returns lies
    between [lo] and [hi], and the samples it keeps are within the window
    and still between the bounds. *)
Theorem getAverage_within_sample_bounds :
  forall (ra : RollingAverage.t) (c : Clock) (lo hi : Q),
    values_within lo hi ra ->
    ((RollingAverage.getAverage ra c).1.1 = None <->
     no_sample_in_window ra (c 0%nat)) /\
    (forall v, (RollingAverage.getAverage ra c).1.1 = Some v ->
               lo <= v /\ v <= hi) /\
    values_within lo hi (RollingAverage.getAverage ra c).1.2 /\
    Forall (fun s => (c 0%nat - RollingAverage.windowMs ra <=
                      RollingAverage.timestamp s)%Z)
           (RollingAverage.samples (RollingAverage.getAverage ra c).1.2).
Proof. exact getAverage_effect. Qed.

Lemma getAverage_within_sample_bounds_witness :
  let ra := RollingAverage.mk 90000
              [RollingAverage.mkSample 1699999990000 (-0.2);
               RollingAverage.mkSample 1699999995000 0.6] in
  values_within (-1) 1 ra /\
  values_within (-1) 1 (RollingAverage.getAverage ra ticking).1.2.
Proof.
  intros ra.
  assert (Hv : values_within (-1) 1 ra)
    by (repeat constructor; discriminate).
  split; [exact Hv|].
  apply (getAverage_within_sample_bounds ra ticking (-1) 1 Hv).
Defined.

Lemma last_filter_snoc {A} (f : A -> bool) (l : list A) (x : A) :
  f x = true -> last (List.filter f (l ++ [x])) = Some x.
Proof.
  intros Hx. rewrite List.filter_app. cbn [List.filter]. rewrite Hx.
  apply last_snoc.
Qed.

Lemma last_filter_keep {A} (f : A -> bool) (l : list A) (x : A) :
  last l = Some x -> f x = true -> last (List.filter f l) = Some x.
Proof.
  intros Hl Hx.
  destruct l as [|y l] using rev_ind; [discriminate|].
  rewrite last_snoc in Hl. injection Hl as ->.
  apply last_filter_snoc. exact Hx.
Qed.

Lemma getLatest_spec ra c :
  let kept := List.filter
                (fun s => (c 0%nat - RollingAverage.windowMs ra <=?
                           RollingAverage.timestamp s)%Z)
                (RollingAverage.samples ra) in
  (RollingAverage.getLatest ra c).1.1 = RollingAverage.value <$> last kept /\
  RollingAverage.samples (RollingAverage.getLatest ra c).1.2 = kept /\
  RollingAverage.windowMs (RollingAverage.getLatest ra c).1.2 =
    RollingAverage.windowMs ra.
Proof. repeat split. Qed.

(** X6. A sample given to [RollingAverage.add] is what [getLatest]
    returns next, provided its timestamp is within the window both at the
    time [add] cleans up and at the time [getLatest] reads: the stamp is
    the one passed, or the time read by [add] when none is passed. *)
Theorem added_sample_is_latest_while_in_window :
  forall (ra : RollingAverage.t) (v : Q) (timestamp : option Z) (c : Clock),
    let ts := default (c 0%nat) timestamp in
    let added := RollingAverage.add v timestamp ra c in
    let read := RollingAverage.getLatest added.1 added.2 in
    let t_add := match timestamp with
                 | Some _ => c 0%nat | None => c 1%nat end in
    let t_read := added.2 0%nat in
    (t_add - RollingAverage.windowMs ra <= ts)%Z ->
    (t_read - RollingAverage.windowMs ra <= ts)%Z ->
    read.1.1 = Some v /\
    last (RollingAverage.samples read.1.2) =
      Some (RollingAverage.mkSample ts v).
Proof.
  intros ra v timestamp c ts added read t_add t_read Hadd Hread.
  assert (Hlast : last (RollingAverage.samples added.1) =
                  Some (RollingAverage.mkSample ts v) /\
                  RollingAverage.windowMs added.1 =
                  RollingAverage.windowMs ra).
  { subst added ts t_add. unfold RollingAverage.add, RollingAverage.cleanup.
    unfold_M. destruct timestamp as [ts|]; cbn [fst snd default] in *;
      (split; [|reflexivity]);
      apply last_filter_snoc; cbn; apply Z.leb_le; exact Hadd. }
  destruct Hlast as [Hlast Hw].
  destruct (getLatest_spec added.1 added.2) as (E1 & E2 & _).
  fold read in E1, E2. rewrite E1, E2. clear E1 E2.
  assert (E : last (List.filter
                (fun s => (added.2 0%nat - RollingAverage.windowMs added.1 <=?
                           RollingAverage.timestamp s)%Z)
                (RollingAverage.samples added.1)) =
              Some (RollingAverage.mkSample ts v)).
  { apply last_filter_keep; [exact Hlast|]. cbn. rewrite Hw.
    apply Z.leb_le. exact Hread. }
  rewrite E. split; reflexivity.
Qed.

Lemma added_sample_is_latest_while_in_window_witness :
  let ra := RollingAverage.mk 90000
              [RollingAverage.mkSample 1699999990000 (-0.2)] in
  (RollingAverage.getLatest
     (RollingAverage.add 0.4 None ra ticking).1
     (RollingAverage.add 0.4 None ra ticking).2).1.1 = Some 0.4.
Proof.
  intros ra.
  apply (added_sample_is_latest_while_in_window ra 0.4 None ticking);
    vm_compute; discriminate.
Defined.

(** ** Order book imbalance *)

Lemma calculateOBI_nonzero a b :
  ~ a + b == 0 ->
  OBICalculator.calculateOBI a b == (a - b) / (a + b).
Proof.
  intros H. unfold OBICalculator.calculateOBI.
  apply JS_eq_false in H. rewrite H. reflexivity.
Qed.

Lemma calculateOBI_zero a b :
  a + b == 0 -> OBICalculator.calculateOBI a b = 0.
Proof.
  intros H. unfold OBICalculator.calculateOBI.
  apply JS_eq_spec in H. rewrite H. reflexivity.
Qed.

Lemma calculateOBI_range a b :
  0 <= a -> 0 <= b ->
  -1 <= OBICalculator.calculateOBI a b /\
  OBICalculator.calculateOBI a b <= 1.
Proof.
  intros Ha Hb.
  destruct (Qeq_dec (a + b) 0) as [E|E].
  - rewrite (calculateOBI_zero _ _ E). split; discriminate.
  - rewrite (calculateOBI_nonzero _ _ E).
    assert (Hpos : 0 < a + b).
    { destruct (Qlt_le_dec 0 (a + b)) as [|Hle]; [assumption|].
      exfalso. apply E. qlra. }
    split.
    + apply Qle_shift_div_l; [assumption|]. qlra.
    + apply Qle_shift_div_r; [assumption|]. qlra.
Qed.

(** X7. [calculateOBI] is antisymmetric in its two volumes and does not
    change when both are scaled by the same non-zero factor.  For volumes
    that are not negative it lies between -1 and 1, is positive exactly
    when the bid volume is the larger one, is 0 exactly when the volumes
    are equal, and is 1 exactly when there is bid volume and no ask
    volume. *)
Theorem calculateOBI_is_a_normalised_imbalance :
  forall bid ask : Q,
    OBICalculator.calculateOBI bid ask ==
      - OBICalculator.calculateOBI ask bid /\
    (forall k, ~ k == 0 ->
       OBICalculator.calculateOBI (k * bid) (k * ask) ==
       OBICalculator.calculateOBI bid ask) /\
    (0 <= bid -> 0 <= ask ->
       -1 <= OBICalculator.calculateOBI bid ask /\
       OBICalculator.calculateOBI bid ask <= 1 /\
       (0 < OBICalculator.calculateOBI bid ask <-> ask < bid) /\
       (OBICalculator.calculateOBI bid ask == 0 <-> bid == ask) /\
       (OBICalculator.calculateOBI bid ask == 1 <-> ask == 0 /\ 0 < bid)).
Proof.
  intros a b. split; [|split].
  - destruct (Qeq_dec (a + b) 0) as [E|E].
    + rewrite (calculateOBI_zero _ _ E).
      rewrite calculateOBI_zero; [reflexivity|]. qlra.
    + rewrite (calculateOBI_nonzero _ _ E).
      rewrite calculateOBI_nonzero; [|intros E'; apply E; qlra].
      field. intros E'; apply E; qlra.
  - intros k Hk.
    destruct (Qeq_dec (a + b) 0) as [E|E].
    + rewrite (calculateOBI_zero _ _ E).
      rewrite calculateOBI_zero; [reflexivity|].
      rewrite <- Qmult_plus_distr_r, E. ring.
    + assert (E' : ~ k * a + k * b == 0).
      { rewrite <- Qmult_plus_distr_r. intros E'.
        apply Qmult_integral in E'. tauto. }
      rewrite (calculateOBI_nonzero _ _ E).
      rewrite (calculateOBI_nonzero _ _ E').
      field. split; assumption.
  - intros Ha Hb.
    destruct (calculateOBI_range a b Ha Hb) as [H1 H2].
    split; [exact H1|split; [exact H2|]].
    destruct (Qeq_dec (a + b) 0) as [E|E].
    + rewrite (calculateOBI_zero _ _ E).
      assert (a == 0) by qlra. assert (b == 0) by qlra.
      repeat split; intros; try qlra; try discriminate.
    + rewrite (calculateOBI_nonzero _ _ E).
      assert (Hpos : 0 < a + b).
      { destruct (Qlt_le_dec 0 (a + b)) as [|Hle]; [assumption|].
        exfalso. apply E. qlra. }
      assert (Hd : forall x, (a - b) / (a + b) == x <-> a - b == x * (a + b)).
      { intros x. split; intros Hx.
        - rewrite <- Hx. field. exact E.
        - rewrite Hx. field. exact E. }
      split; [|split].
      * split; intros Hx.
        -- destruct (Qlt_le_dec b a) as [|Hle]; [assumption|]. exfalso.
           assert ((a - b) / (a + b) <= 0).
           { apply Qle_shift_div_r; [assumption|]. qlra. }
           qlra.
        -- apply Qlt_shift_div_l; [assumption|]. qlra.
      * rewrite Hd. split; intros; qlra.
      * rewrite Hd. split; [intros|intros []]; try split; qlra.
Qed.

Lemma calculateOBI_is_a_normalised_imbalance_witness :
  -1 <= OBICalculator.calculateOBI 30 10 /\
  OBICalculator.calculateOBI 30 10 <= 1.
Proof.
  destruct (calculateOBI_is_a_normalised_imbalance 30 10) as (_ & _ & H).
  destruct H as (H1 & H2 & _); [discriminate|discriminate|].
  split; assumption.
Defined.

Lemma values_within_filter lo hi w l f :
  values_within lo hi (RollingAverage.mk w l) ->
  values_within lo hi (RollingAverage.mk w (List.filter f l)).
Proof.
  unfold values_within. cbn. rewrite !List.Forall_forall.
  intros H s Hin. apply filter_In in Hin as [Hin _]. auto.
Qed.

Lemma add_values_within lo hi ra v ts c :
  values_within lo hi ra -> lo <= v -> v <= hi ->
  values_within lo hi (RollingAverage.add v ts ra c).1.
Proof.
  intros H Hlo Hhi.
  unfold RollingAverage.add, RollingAverage.cleanup. unfold_M.
  destruct ts as [ts|]; cbn [fst snd]; apply values_within_filter;
    unfold values_within in *; cbn; apply Forall_app; split; auto.
Qed.

Lemma getLatest_values_within lo hi ra c :
  values_within lo hi ra ->
  values_within lo hi (RollingAverage.getLatest ra c).1.2 /\
  forall v, (RollingAverage.getLatest ra c).1.1 = Some v ->
            lo <= v /\ v <= hi.
Proof.
  intros H.
  destruct (getLatest_spec ra c) as (E1 & E2 & _).
  assert (Hk : values_within lo hi (RollingAverage.getLatest ra c).1.2).
  { unfold values_within. rewrite E2.
    apply (values_within_filter lo hi (RollingAverage.windowMs ra)).
    destruct ra; exact H. }
  split; [exact Hk|].
  intros v Hv. rewrite E1 in Hv.
  unfold values_within in Hk. rewrite E2, List.Forall_forall in Hk.
  destruct (last _) as [s|] eqn:El; [|discriminate].
  injection Hv as <-. apply Hk.
  apply last_Some in El as [l' El]. rewrite El.
  apply in_or_app. right. left. reflexivity.
Qed.

Lemma or0_within lo hi (o : option Q) :
  lo <= 0 -> 0 <= hi ->
  (forall v, o = Some v -> lo <= v /\ v <= hi) ->
  lo <= OBICalculator.or0 o /\ OBICalculator.or0 o <= hi.
Proof.
  intros Hlo Hhi H. unfold OBICalculator.or0, JS.or_opt.
  destruct o as [v|]; [|split; assumption].
  rewrite JS_or_zero. auto.
Qed.

Lemma volume_nonneg (levels : list OBICalculator.level) :
  Forall (fun l => forall s, OBICalculator.l_size l = Some s -> 0 <= s)
         levels ->
  forall a, 0 <= a ->
    0 <= fold_left (fun sum level => sum + OBICalculator.or0
                                             (OBICalculator.l_size level))
                   levels a.
Proof.
  induction 1 as [|l levels Hl _ IH]; intros a Ha; cbn [fold_left]; auto.
  apply IH.
  assert (0 <= OBICalculator.or0 (OBICalculator.l_size l)); [|qlra].
  unfold OBICalculator.or0, JS.or_opt.
  destruct (OBICalculator.l_size l) as [s|]; [|discriminate].
  rewrite JS_or_zero. auto.
Qed.

Lemma add_values_within_eq lo hi ra v ts c ra' c' :
  RollingAverage.add v ts ra c = (ra', c') ->
  values_within lo hi ra -> lo <= v /\ v <= hi ->
  values_within lo hi ra'.
Proof.
  intros E H [Hlo Hhi].
  change ra' with (ra', c').1. rewrite <- E.
  apply add_values_within; assumption.
Qed.

Lemma getLatest_values_within_eq lo hi ra c r ra' c' :
  RollingAverage.getLatest ra c = (r, ra', c') ->
  values_within lo hi ra -> lo <= 0 -> 0 <= hi ->
  values_within lo hi ra' /\
  lo <= OBICalculator.or0 r /\ OBICalculator.or0 r <= hi.
Proof.
  intros E H Hlo Hhi.
  destruct (getLatest_values_within lo hi ra c H) as [H1 H2].
  rewrite E in H1, H2. cbn [fst snd] in H1, H2.
  split; [exact H1|]. apply or0_within; assumption.
Qed.

Lemma half_sum_within a b :
  -1 <= a /\ a <= 1 -> -1 <= b /\ b <= 1 ->
  -1 <= (a + b) / 2 /\ (a + b) / 2 <= 1.
Proof.
  intros [] []. split.
  - apply Qle_shift_div_l; [reflexivity|]. qlra.
  - apply Qle_shift_div_r; [reflexivity|]. qlra.
Qed.

Lemma half_diff_within a b :
  -1 <= a /\ a <= 1 -> -1 <= b /\ b <= 1 ->
  -1 <= (a - b) / 2 /\ (a - b) / 2 <= 1.
Proof.
  intros [] []. split.
  - apply Qle_shift_div_l; [reflexivity|]. qlra.
  - apply Qle_shift_div_r; [reflexivity|]. qlra.
Qed.

Ltac run_M := unfold_M; cbv beta iota zeta.

Lemma updateFromOrderbook_in_range book side o c :
  obi_in_range o -> book_sizes_nonneg book ->
  obi_in_range (OBICalculator.updateFromOrderbook book side o c).1.2 /\
  forall r, (OBICalculator.updateFromOrderbook book side o c).1.1 = Some r ->
    (-1 <= OBICalculator.obi r /\ OBICalculator.obi r <= 1) /\
    0 <= OBICalculator.bidVolume r /\ 0 <= OBICalculator.askVolume r.
Proof.
  intros (Hy & Hn & Hc) Hb.
  unfold OBICalculator.updateFromOrderbook.
  destruct book as [[[bids|] [asks|]]|];
    try (unfold_M; cbn [fst snd]; split; [repeat split; assumption|];
         intros r; discriminate).
  assert (Hbids : Forall (fun l => forall s,
                     OBICalculator.l_size l = Some s -> 0 <= s) bids)
    by (apply Hb; left; reflexivity).
  assert (Hasks : Forall (fun l => forall s,
                     OBICalculator.l_size l = Some s -> 0 <= s) asks)
    by (apply Hb; right; reflexivity).
  set (bidVol := fold_left _ (take _ bids) 0).
  set (askVol := fold_left _ (take _ asks) 0).
  assert (Hbv : 0 <= bidVol).
  { apply volume_nonneg; [|discriminate]. apply Forall_take. exact Hbids. }
  assert (Hav : 0 <= askVol).
  { apply volume_nonneg; [|discriminate]. apply Forall_take. exact Hasks. }
  assert (Ho := calculateOBI_range bidVol askVol Hbv Hav).
  set (obi := OBICalculator.calculateOBI bidVol askVol) in *.
  run_M.
  destruct (String.eqb (default "YES"%string side) "YES"); cbv beta.
  - destruct (RollingAverage.add obi None (OBICalculator.obiYes o) c)
      as [ra1 c1] eqn:E1.
    cbn [OBICalculator.obiYes OBICalculator.obiNo OBICalculator.obiCombined
         OBICalculator.set_obiYes OBICalculator.set_obiNo].
    destruct (RollingAverage.getLatest ra1 c1) as [[yl ra2] c2] eqn:E2.
    destruct (RollingAverage.getLatest (OBICalculator.obiNo o) c2)
      as [[nl ra3] c3] eqn:E3.
    destruct (RollingAverage.add _ None (OBICalculator.obiCombined o) c3)
      as [ra4 c4] eqn:E4.
    cbn [fst snd].
    pose proof (add_values_within_eq _ _ _ _ _ _ _ _ E1 Hy Ho) as Hy1.
    destruct (getLatest_values_within_eq (-1) 1 _ _ _ _ _ E2 Hy1)
      as [Hy2 Hyl]; try discriminate.
    destruct (getLatest_values_within_eq (-1) 1 _ _ _ _ _ E3 Hn)
      as [Hn2 Hnl]; try discriminate.
    pose proof (add_values_within_eq _ _ _ _ _ _ _ _ E4 Hc
                  (half_sum_within _ _ Hyl Hnl)) as Hc1.
    split; [repeat split; assumption|].
    intros r Hr. injection Hr as <-. cbn. tauto.
  - destruct (RollingAverage.add obi None (OBICalculator.obiNo o) c)
      as [ra1 c1] eqn:E1.
    cbn [OBICalculator.obiYes OBICalculator.obiNo OBICalculator.obiCombined
         OBICalculator.set_obiYes OBICalculator.set_obiNo].
    destruct (RollingAverage.getLatest (OBICalculator.obiYes o) c1)
      as [[yl ra2] c2] eqn:E2.
    destruct (RollingAverage.getLatest ra1 c2) as [[nl ra3] c3] eqn:E3.
    destruct (RollingAverage.add _ None (OBICalculator.obiCombined o) c3)
      as [ra4 c4] eqn:E4.
    cbn [fst snd].
    pose proof (add_values_within_eq _ _ _ _ _ _ _ _ E1 Hn Ho) as Hn1.
    destruct (getLatest_values_within_eq (-1) 1 _ _ _ _ _ E2 Hy)
      as [Hy2 Hyl]; try discriminate.
    destruct (getLatest_values_within_eq (-1) 1 _ _ _ _ _ E3 Hn1)
      as [Hn2 Hnl]; try discriminate.
    pose proof (add_values_within_eq _ _ _ _ _ _ _ _ E4 Hc
                  (half_sum_within _ _ Hyl Hnl)) as Hc1.
    split; [repeat split; assumption|].
    intros r Hr. injection Hr as <-. cbn. tauto.
Qed.

Lemma updateFromPrices_in_range priceYes priceNo o c :
  obi_in_range o ->
  0 <= priceYes /\ priceYes <= 1 -> 0 <= priceNo /\ priceNo <= 1 ->
  obi_in_range (OBICalculator.updateFromPrices priceYes priceNo o c).1.2.
Proof.
  intros (Hy & Hn & Hc) [HY0 HY1] [HN0 HN1].
  unfold OBICalculator.updateFromPrices.
  set (yi := (priceYes - 0.50) * 2). set (ni := (priceNo - 0.50) * 2).
  assert (Hyi : -1 <= yi /\ yi <= 1) by (subst yi; split; qlra).
  assert (Hni : -1 <= ni /\ ni <= 1) by (subst ni; split; qlra).
  run_M.
  destruct (RollingAverage.add yi None (OBICalculator.obiYes o) c)
    as [ra1 c1] eqn:E1.
  cbn [OBICalculator.obiYes OBICalculator.obiNo OBICalculator.obiCombined
       OBICalculator.set_obiYes OBICalculator.set_obiNo].
  destruct (RollingAverage.add ni None (OBICalculator.obiNo o) c1)
    as [ra2 c2] eqn:E2.
  destruct (RollingAverage.add _ None (OBICalculator.obiCombined o) c2)
    as [ra3 c3] eqn:E3.
  cbn [fst snd].
  pose proof (add_values_within_eq _ _ _ _ _ _ _ _ E1 Hy Hyi).
  pose proof (add_values_within_eq _ _ _ _ _ _ _ _ E2 Hn Hni).
  pose proof (add_values_within_eq _ _ _ _ _ _ _ _ E3 Hc
                (half_diff_within _ _ Hyi Hni)).
  repeat split; assumption.
Qed.

Lemma getRollingOBI_in_range side o c :
  obi_in_range o ->
  (-1 <= (OBICalculator.getRollingOBI side o c).1.1 /\
   (OBICalculator.getRollingOBI side o c).1.1 <= 1) /\
  obi_in_range (OBICalculator.getRollingOBI side o c).1.2.
Proof.
  intros (Hy & Hn & Hc).
  assert (Hra : forall ra, values_within (-1) 1 ra ->
            (-1 <= OBICalculator.or0 (RollingAverage.getAverage ra c).1.1 /\
             OBICalculator.or0 (RollingAverage.getAverage ra c).1.1 <= 1) /\
            values_within (-1) 1 (RollingAverage.getAverage ra c).1.2).
  { intros ra Hv.
    destruct (getAverage_effect ra c (-1) 1 Hv)
      as (_ & Hb & Hk & _).
    split; [|exact Hk]. apply or0_within; try discriminate. exact Hb. }
  unfold OBICalculator.getRollingOBI. run_M.
  destruct (String.eqb (default "YES"%string side) "YES");
    [|destruct (String.eqb (default "YES"%string side) "NO")].
  - destruct (Hra _ Hy) as [H1 H2].
    destruct (RollingAverage.getAverage _ c) as [[avg ra] c'].
    cbn [fst snd] in *. split; [exact H1|]. repeat split; assumption.
  - destruct (Hra _ Hn) as [H1 H2].
    destruct (RollingAverage.getAverage _ c) as [[avg ra] c'].
    cbn [fst snd] in *. split; [exact H1|]. repeat split; assumption.
  - destruct (Hra _ Hc) as [H1 H2].
    destruct (RollingAverage.getAverage _ c) as [[avg ra] c'].
    cbn [fst snd] in *. split; [exact H1|]. repeat split; assumption.
Qed.

Lemma new_in_range w n : obi_in_range (OBICalculator.new w n).
Proof. repeat split; constructor. Qed.

Lemma reset_in_range o : obi_in_range (OBICalculator.reset o).
Proof. repeat split; constructor. Qed.

Lemma or_opt_price (v : option Q) :
  (forall p, v = Some p -> 0 <= p /\ p <= 1) ->
  0 <= JS.or_opt v 0.50 /\ JS.or_opt v 0.50 <= 1.
Proof.
  intros H. unfold JS.or_opt, JS.or.
  destruct v as [p|]; [|split; discriminate].
  destruct (JS.eq p 0); [split; discriminate|]. auto.
Qed.

Lemma updateOBIFromMarket_in_range tokenIdYes tokenIdNo mkt o c :
  obi_in_range o -> market_sane mkt ->
  obi_in_range
    (OBICalculator.updateOBIFromMarket tokenIdYes tokenIdNo mkt o c).1.2.
Proof.
  intros Ho [Hbooks Hprices].
  unfold OBICalculator.updateOBIFromMarket.
  assert (Hfallback : forall o' c', obi_in_range o' ->
    obi_in_range
      (match OBICalculator.prices mkt with
       | Some (yesPrice, noPrice) =>
           '(_, calculator) ←
             OBICalculator.updateFromPrices (JS.or_opt yesPrice 0.50)
               (JS.or_opt noPrice 0.50) o';
           mret (Some "price-based"%string, calculator)
       | None => mret (None, o')
       end c').1.2).
  { intros o' c' Ho'.
    destruct (OBICalculator.prices mkt) as [[y n]|] eqn:Ep; [|exact Ho'].
    destruct (Hprices y n eq_refl) as [Hy Hn].
    pose proof (updateFromPrices_in_range _ _ o' c' Ho'
                  (or_opt_price y Hy) (or_opt_price n Hn)) as Hr.
    run_M.
    destruct (OBICalculator.updateFromPrices _ _ o' c') as [[r o''] c''].
    exact Hr. }
  destruct tokenIdYes as [ty|], tokenIdNo as [tn|];
    try (run_M; apply Hfallback; exact Ho).
  destruct (OBICalculator.books mkt) as [[yb nb]|] eqn:Eb;
    [|run_M; apply Hfallback; exact Ho].
  destruct (Hbooks yb nb eq_refl) as [Hyb Hnb].
  run_M.
  destruct (updateFromOrderbook_in_range yb (Some "YES"%string) o c Ho Hyb)
    as [H1 _].
  destruct (OBICalculator.updateFromOrderbook yb _ o c) as [[r1 o1] c1].
  cbn [fst snd] in H1.
  destruct (updateFromOrderbook_in_range nb (Some "NO"%string) o1 c1 H1 Hnb)
    as [H2 _].
  destruct (OBICalculator.updateFromOrderbook nb _ o1 c1) as [[r2 o2] c2].
  cbn [fst snd] in H2.
  destruct (bool_decide _); [exact H2|].
  apply Hfallback. exact H2.
Qed.



(** ** LeaderTracker: what the counters and the bias can be *)

Lemma length_filter_le {A} (f : A -> bool) (l : list A) :
  (length (List.filter f l) <= length l)%nat.
Proof.
  induction l as [|x l IH]; cbn; [lia|]. destruct (f x); cbn; lia.
Qed.

Lemma record_length ts fc c :
  (length (RollingCounter.events (RollingCounter.record ts fc c).1) <=
   S (length (RollingCounter.events fc)))%nat.
Proof.
  unfold RollingCounter.record, RollingCounter.cleanup. unfold_M.
  destruct ts as [ts|]; cbn [fst snd RollingCounter.events
                             RollingCounter.windowMs];
    (etransitivity; [apply length_filter_le|]);
    rewrite length_app; cbn; lia.
Qed.

Lemma getCount_length fc c :
  (RollingCounter.getCount fc c).1.1 =
    length (RollingCounter.events (RollingCounter.getCount fc c).1.2) /\
  ((RollingCounter.getCount fc c).1.1 <=
     length (RollingCounter.events fc))%nat.
Proof.
  unfold RollingCounter.getCount, RollingCounter.cleanup. unfold_M.
  cbn [fst snd RollingCounter.events]. split; [reflexivity|].
  apply length_filter_le.
Qed.

Lemma tracker_inv_new w : tracker_inv (LeaderTracker.new w).
Proof. split; [cbn; lia|constructor]. Qed.

Lemma tracker_inv_reset t :
  tracker_inv t -> tracker_inv (LeaderTracker.resetForNewWindow t).
Proof. intros [H1 H2]. split; [cbn; lia|exact H2]. Qed.

Lemma tracker_inv_update pY pN t c :
  tracker_inv t ->
  tracker_inv (LeaderTracker.update pY pN t c).1.2 /\
  (Z.of_nat (LeaderTracker.flipCount (LeaderTracker.update pY pN t c).1.1)
     <= LeaderTracker.i_totalFlips (LeaderTracker.update pY pN t c).1.1)%Z.
Proof.
  intros [Hc Hh]. unfold LeaderTracker.update. unfold_M.
  set (nl := if JS.gt pY pN then YES else NO).
  assert (Hmark : -1 <= (if bool_decide (nl = YES) then 1 else -1) /\
                  (if bool_decide (nl = YES) then 1 else -1) <= 1)
    by (destruct (bool_decide _); split; discriminate).
  pose proof (add_values_within (-1) 1 (LeaderTracker.leaderHistory t) _
                (Some (c 0%nat)) (fun n => c (S n)) Hh
                (proj1 Hmark) (proj2 Hmark)) as Hh'.
  destruct (RollingAverage.add _ _ _ _) as [lh c1]. cbn [fst snd] in Hh'.
  cbn [LeaderTracker.currentLeader LeaderTracker.set_leaderHistory
       LeaderTracker.pendingFlip LeaderTracker.pendingFlipCount].
  assert (Hkeep : forall fc tot c',
            (Z.of_nat (length (RollingCounter.events fc)) <= tot)%Z ->
            (Z.of_nat (length (RollingCounter.events
                                 (RollingCounter.getCount fc c').1.2))
               <= tot)%Z /\
            (Z.of_nat (RollingCounter.getCount fc c').1.1 <= tot)%Z).
  { intros fc tot c' H. destruct (getCount_length fc c') as [E1 E2].
    rewrite <- E1. lia. }
  destruct (LeaderTracker.currentLeader t) as [cur|].
  - destruct (bool_decide (nl <> cur)).
    + destruct (bool_decide (LeaderTracker.pendingFlip t = Some nl)).
      * cbn [LeaderTracker.set_pendingFlipCount
             LeaderTracker.pendingFlipCount].
        destruct (2 <=? LeaderTracker.pendingFlipCount t + 1)%Z.
        -- pose proof (record_length (Some (c 0%nat))
                         (LeaderTracker.flipCounter t) c1) as Hr.
           cbn [LeaderTracker.flipCounter LeaderTracker.set_currentLeader
                LeaderTracker.set_pendingFlipCount].
           destruct (RollingCounter.record _ _ c1) as [fc c2].
           cbn [fst snd] in Hr. cbv beta iota zeta.
           cbn [LeaderTracker.flipCounter LeaderTracker.set_flipCounter
                LeaderTracker.set_totalFlips LeaderTracker.set_pendingFlip
                LeaderTracker.set_pendingFlipCount].
           destruct (Hkeep fc (LeaderTracker.totalFlips t + 1)%Z c2)
             as [K1 K2]; [lia|].
           destruct (RollingCounter.getCount fc c2) as [[n fc'] c3].
           cbn [fst snd] in K1, K2. split; [split|]; cbn; assumption.
        -- destruct (Hkeep (LeaderTracker.flipCounter t)
                       (LeaderTracker.totalFlips t) c1 Hc) as [K1 K2].
           destruct (RollingCounter.getCount _ c1) as [[n fc'] c3].
           cbn [fst snd] in K1, K2. split; [split|]; cbn; assumption.
      * destruct (Hkeep (LeaderTracker.flipCounter t)
                    (LeaderTracker.totalFlips t) c1 Hc) as [K1 K2].
        destruct (RollingCounter.getCount _ c1) as [[n fc'] c3].
        cbn [fst snd] in K1, K2. split; [split|]; cbn; assumption.
    + destruct (Hkeep (LeaderTracker.flipCounter t)
                  (LeaderTracker.totalFlips t) c1 Hc) as [K1 K2].
      destruct (RollingCounter.getCount _ c1) as [[n fc'] c3].
      cbn [fst snd] in K1, K2. split; [split|]; cbn; assumption.
  - destruct (Hkeep (LeaderTracker.flipCounter t)
                (LeaderTracker.totalFlips t) c1 Hc) as [K1 K2].
    destruct (RollingCounter.getCount _ c1) as [[n fc'] c3].
    cbn [fst snd] in K1, K2. split; [split|]; cbn; assumption.
Qed.

Lemma tracker_run_cons k ks t c :
  tracker_run (k :: ks) t c =
  let s := tracker_step k t c in
  let r := tracker_run ks s.1.2 s.2 in
  (s.1.1 :: r.1.1, r.1.2, r.2).
Proof.
  cbn [tracker_run]. unfold_M.
  destruct (tracker_step k t c) as [[i t1] c1]. cbn [fst snd].
  destruct (tracker_run ks t1 c1) as [[rs t2] c2]. reflexivity.
Qed.

Lemma tracker_run_inv ks :
  forall t c, tracker_inv t ->
    tracker_inv (tracker_run ks t c).1.2 /\
    Forall (fun r => forall i, r = Some i ->
              (Z.of_nat (LeaderTracker.flipCount i)
                 <= LeaderTracker.i_totalFlips i)%Z)
           (tracker_run ks t c).1.1.
Proof.
  induction ks as [|k ks IH]; intros t c Ht.
  - split; [exact Ht|constructor].
  - rewrite tracker_run_cons. cbv zeta. cbn [fst snd].
    assert (Hs : tracker_inv (tracker_step k t c).1.2 /\
                 forall i, (tracker_step k t c).1.1 = Some i ->
                   (Z.of_nat (LeaderTracker.flipCount i)
                      <= LeaderTracker.i_totalFlips i)%Z).
    { destruct k as [pY pN|]; cbn [tracker_step]; unfold_M.
      - destruct (tracker_inv_update pY pN t c Ht) as [H1 H2].
        destruct (LeaderTracker.update pY pN t c) as [[i t1] c1].
        cbn [fst snd] in *. split; [exact H1|].
        intros i' E. injection E as <-. exact H2.
      - cbn [fst snd]. split; [apply tracker_inv_reset; exact Ht|].
        discriminate. }
    destruct Hs as [Hs1 Hs2].
    destruct (IH _ (tracker_step k t c).2 Hs1) as [IH1 IH2].
    split; [exact IH1|]. constructor; assumption.
Qed.

(** X9. Over any sequence of updates and new-window resets of a fresh
    [LeaderTracker], every update reports a rolling [flipCount] that is at
    most its [totalFlips]; afterwards [getFlipCount] is at most the total
    as well, and [getLeaderBias] lies between -1 and 1. *)
Theorem flips_in_window_never_exceed_total :
  forall (ks : list tracker_call) (windowMs : option Z) (c : Clock),
    let r := tracker_run ks (LeaderTracker.new windowMs) c in
    Forall (fun reply => forall i, reply = Some i ->
              (Z.of_nat (LeaderTracker.flipCount i)
                 <= LeaderTracker.i_totalFlips i)%Z)
           r.1.1 /\
    (Z.of_nat (LeaderTracker.getFlipCount r.1.2 r.2).1.1
       <= LeaderTracker.totalFlips r.1.2)%Z /\
    -1 <= (LeaderTracker.getLeaderBias r.1.2 r.2).1.1 /\
    (LeaderTracker.getLeaderBias r.1.2 r.2).1.1 <= 1.
Proof.
  intros ks w c r.
  destruct (tracker_run_inv ks _ c (tracker_inv_new w)) as [[Hc Hh] Hall].
  fold r in Hc, Hh, Hall.
  split; [exact Hall|]. split.
  - unfold LeaderTracker.getFlipCount. unfold_M.
    destruct (getCount_length (LeaderTracker.flipCounter r.1.2) r.2)
      as [_ Hle].
    destruct (RollingCounter.getCount _ r.2) as [[n fc] c'].
    cbn [fst snd] in *. lia.
  - unfold LeaderTracker.getLeaderBias. unfold_M.
    destruct (getAverage_effect (LeaderTracker.leaderHistory r.1.2) r.2
                (-1) 1 Hh) as (_ & Hb & _).
    destruct (RollingAverage.getAverage _ r.2) as [[avg lh] c'].
    cbn [fst snd] in *.
    apply (or0_within (-1) 1 avg); try discriminate. exact Hb.
Qed.

(** X10. [resetForNewWindow] keeps the leader and the leader history and
    forgets the flip that was pending: whatever the tracker held, the
    first update after it reports no flip, a rolling flip count of 0 and a
    total of 0, and its leader is the one held before the reset (the
    observed side when there was none). *)
Theorem first_update_of_a_window_never_flips :
  forall (t : LeaderTracker.t) (priceYes priceNo : Q) (c : Clock),
    let t0 := LeaderTracker.resetForNewWindow t in
    let i := (LeaderTracker.update priceYes priceNo t0 c).1.1 in
    LeaderTracker.getLeader t0 = LeaderTracker.getLeader t /\
    LeaderTracker.leaderHistory t0 = LeaderTracker.leaderHistory t /\
    LeaderTracker.flipped i = false /\
    LeaderTracker.flipCount i = 0%nat /\
    LeaderTracker.i_totalFlips i = 0%Z /\
    LeaderTracker.leader i =
      Some (default (observed (priceYes, priceNo))
                    (LeaderTracker.currentLeader t)).
Proof.
  intros t pY pN c t0 i.
  split; [reflexivity|]. split; [reflexivity|].
  subst i t0. unfold LeaderTracker.update. unfold_M.
  change (if JS.gt pY pN then YES else NO) with (observed (pY, pN)).
  set (nl := observed (pY, pN)).
  destruct (RollingAverage.add _ _ _ _) as [lh c1].
  cbn [LeaderTracker.currentLeader LeaderTracker.set_leaderHistory
       LeaderTracker.pendingFlip LeaderTracker.pendingFlipCount
       LeaderTracker.resetForNewWindow LeaderTracker.set_flipCounter
       LeaderTracker.set_totalFlips LeaderTracker.set_pendingFlip
       LeaderTracker.set_pendingFlipCount].
  destruct (LeaderTracker.currentLeader t) as [cur|] eqn:Ecur.
  - destruct (bool_decide (nl <> cur)) eqn:Ene.
    + rewrite bool_decide_eq_false_2 by discriminate.
      cbn. rewrite ?Ecur. repeat split.
    + cbn. rewrite ?Ecur. repeat split.
  - cbn. repeat split.
Qed.

(** ** ScoreCalculator: direction, stability and the score *)


Lemma calculateTrendiness_range rs :
  0 <= ScoreCalculator.calculateTrendiness (Some rs) /\
  ScoreCalculator.calculateTrendiness (Some rs) <= 1.
Proof.
  destruct (Qeq_dec (Qsum_abs rs) 0) as [E|E].
  - rewrite (calculateTrendiness_zero _ E). split; discriminate.
  - rewrite (calculateTrendiness_nonzero _ E).
    assert (Hpos : 0 < Qsum_abs rs).
    { pose proof (Qsum_abs_nonneg rs).
      destruct (Qlt_le_dec 0 (Qsum_abs rs)); [assumption|].
      exfalso. apply E. qlra. }
    split.
    + apply Qle_shift_div_l; [assumption|].
      pose proof (Qabs_nonneg (Qsum rs)). qlra.
    + apply Qle_shift_div_r; [assumption|].
      pose proof (Qsum_triangle rs). qlra.
Qed.

Lemma calculateDirection_unfold rs :
  ScoreCalculator.calculateDirection (Some rs) =
  if JS.gt (fold_left (fun sum r => sum + r) rs 0) 0.0001 then 1%Z
  else if JS.lt (fold_left (fun sum r => sum + r) rs 0) (-0.0001)
       then (-1)%Z else 0%Z.
Proof.
  unfold ScoreCalculator.calculateDirection.
  destruct rs as [|r rs]; reflexivity.
Qed.

Lemma calculateDirection_cases rs :
  let d := ScoreCalculator.calculateDirection (Some rs) in
  (0.0001 < Qsum rs /\ d = 1%Z) \/
  (Qsum rs < -0.0001 /\ d = (-1)%Z) \/
  (-0.0001 <= Qsum rs /\ Qsum rs <= 0.0001 /\ d = 0%Z).
Proof.
  intros d. subst d. rewrite calculateDirection_unfold.
  assert (E : fold_left (fun sum r => sum + r) rs 0 == Qsum rs)
    by (rewrite fold_left_sum; ring).
  destruct (JS.gt _ 0.0001) eqn:E1.
  - left. apply JS_gt_spec in E1. rewrite E in E1. auto.
  - apply JS_gt_false in E1. rewrite E in E1.
    destruct (JS.lt _ (-0.0001)) eqn:E2.
    + right. left. apply JS_lt_spec in E2. rewrite E in E2. auto.
    + right. right. apply JS_lt_false in E2. rewrite E in E2. auto.
Qed.

Lemma Qsum_opp rs : Qsum (map Qopp rs) == - Qsum rs.
Proof.
  induction rs as [|r rs IH]; [reflexivity|].
  cbn [map]. rewrite !Qsum_cons, IH. ring.
Qed.

Lemma Qsum_app rs1 rs2 : Qsum (rs1 ++ rs2) == Qsum rs1 + Qsum rs2.
Proof.
  induction rs1 as [|r rs IH]; cbn [app].
  - unfold Qsum at 2. cbn. ring.
  - rewrite !Qsum_cons, IH. ring.
Qed.

(** X11. [calculateDirection] returns 1, 0 or -1: 1 exactly when the net
    return is above 0.0001 and -1 exactly when it is below -0.0001.
    Negating every return negates the direction; a series with a non-zero
    direction has a positive trendiness; and joining two series of the
    same non-zero direction gives that direction again.  Without a series
    the direction is 0. *)
Theorem calculateDirection_is_the_sign_of_the_net_return :
  ScoreCalculator.calculateDirection None = 0%Z /\
  forall rs : list Q,
    let d := ScoreCalculator.calculateDirection (Some rs) in
    (d = 1%Z \/ d = 0%Z \/ d = (-1)%Z) /\
    (d = 1%Z <-> 0.0001 < Qsum rs) /\
    (d = (-1)%Z <-> Qsum rs < -0.0001) /\
    ScoreCalculator.calculateDirection (Some (map Qopp rs)) = (- d)%Z /\
    (d <> 0%Z -> 0 < ScoreCalculator.calculateTrendiness (Some rs)) /\
    (forall rs', d <> 0%Z ->
       ScoreCalculator.calculateDirection (Some rs') = d ->
       ScoreCalculator.calculateDirection (Some (rs ++ rs')) = d).
Proof.
  split; [reflexivity|]. intros rs d.
  pose proof (calculateDirection_cases rs) as Hc. fold d in Hc. cbv zeta in Hc.
  split; [|split; [|split; [|split; [|split]]]].
  - destruct Hc as [[_ ->]|[[_ ->]|(_ & _ & ->)]]; auto.
  - destruct Hc as [[H ->]|[[H ->]|(H1 & H2 & ->)]];
      split; intros; try assumption; try reflexivity; try discriminate;
      exfalso; qlra.
  - destruct Hc as [[H ->]|[[H ->]|(H1 & H2 & ->)]];
      split; intros; try assumption; try reflexivity; try discriminate;
      exfalso; qlra.
  - pose proof (calculateDirection_cases (map Qopp rs)) as Ho.
    cbv zeta in Ho. rewrite Qsum_opp in Ho.
    destruct Hc as [[H ->]|[[H ->]|(H1 & H2 & ->)]];
      destruct Ho as [[H' ->]|[[H' ->]|(H1' & H2' & ->)]];
      try reflexivity; exfalso; qlra.
  - intros Hd.
    assert (Hnet : 0 < Qabs (Qsum rs)).
    { destruct Hc as [[H _]|[[H _]|(_ & _ & H)]]; [| |congruence].
      - rewrite Qabs_pos; qlra.
      - rewrite Qabs_neg; qlra. }
    assert (Hpos : 0 < Qsum_abs rs)
      by (pose proof (Qsum_triangle rs); qlra).
    rewrite calculateTrendiness_nonzero by qlra.
    apply Qlt_shift_div_l; [assumption|]. qlra.
  - intros rs' Hd Hd'.
    pose proof (calculateDirection_cases rs') as Hc'.
    cbv zeta in Hc'. rewrite Hd' in Hc'.
    pose proof (calculateDirection_cases (rs ++ rs')) as Ha.
    cbv zeta in Ha. rewrite Qsum_app in Ha.
    destruct Hc as [[H E]|[[H E]|(H1 & H2 & E)]]; [| |congruence];
      rewrite E in Hc';
      destruct Hc' as [[H' E']|[[H' E']|(H1' & H2' & E')]];
      try discriminate;
      destruct Ha as [[Ha ->]|[[Ha ->]|(Ha1 & Ha2 & ->)]];
      try (symmetry; assumption); exfalso; qlra.
Qed.

Lemma Math_round_close x :
  x - (1 # 2) < inject_Z (JS.Math_round x) /\
  inject_Z (JS.Math_round x) <= x + (1 # 2).
Proof.
  unfold JS.Math_round.
  pose proof (Qfloor_le (x + (1 # 2))).
  pose proof (Qlt_floor (x + (1 # 2))) as Hlt.
  rewrite inject_Z_plus in Hlt. change (inject_Z 1) with 1 in Hlt.
  split; qlra.
Qed.

Lemma round2_close x :
  x - 0.005 < ScoreCalculator.round2 x /\
  ScoreCalculator.round2 x <= x + 0.005.
Proof.
  unfold ScoreCalculator.round2.
  destruct (Math_round_close (x * 100)) as [H1 H2].
  split.
  - apply Qlt_shift_div_l; [reflexivity|]. qlra.
  - apply Qle_shift_div_r; [reflexivity|]. qlra.
Qed.

Lemma round2_mono x y :
  x <= y -> ScoreCalculator.round2 x <= ScoreCalculator.round2 y.
Proof.
  intros H. unfold ScoreCalculator.round2, JS.Math_round.
  apply Qmult_le_compat_r; [|discriminate].
  rewrite <- Zle_Qle. apply Qfloor_resp_le. qlra.
Qed.

Section ScoreFacts.
Variable Math_sqrt : Q -> Q.

Lemma calculateStability_le_1 n v m :
  ScoreCalculator.calculateStability Math_sqrt n v m <= 1.
Proof.
  unfold ScoreCalculator.calculateStability.
  destruct (JS.eq v 0); [discriminate|].
  destruct (Math_min_spec 1.0
              (JS.Math_abs n / (v * Math_sqrt (default 30 m)) / 0.5))
    as (_ & H & _). qlra.
Qed.

Lemma calculateStability_nonneg n v m :
  0 <= v -> 0 <= Math_sqrt (default 30 m) ->
  0 <= ScoreCalculator.calculateStability Math_sqrt n v m.
Proof.
  intros Hv Hs. unfold ScoreCalculator.calculateStability.
  destruct (JS.eq v 0); [discriminate|].
  set (q := JS.Math_abs n / (v * Math_sqrt (default 30 m)) / 0.5).
  assert (Hq : 0 <= q).
  { subst q. unfold Qdiv. apply Qmult_le_0_compat; [|discriminate].
    apply Qmult_le_0_compat; [apply Qabs_nonneg|].
    apply Qinv_le_0_compat. apply Qmult_le_0_compat; assumption. }
  unfold JS.Math_min. destruct (JS.lt q 1.0); [exact Hq|discriminate].
Qed.

End ScoreFacts.
Section ScoreTheorems.
Variable Math_sqrt : Q -> Q.

(** The score before the penalties is a weighted mean of three
    trendiness values and the stability, with weights that add up to 1. *)
Lemma penalisedScore_cases d :
  let microDir := ScoreCalculator.calculateDirection
                    (Some (default [] (ScoreCalculator.microReturns d))) in
  let mesoDir := ScoreCalculator.calculateDirection
                   (Some (default [] (ScoreCalculator.mesoReturns d))) in
  let macroDir := ScoreCalculator.calculateDirection
                    (Some (default [] (ScoreCalculator.macroReturns d))) in
  exists base : Q,
    base <= 1 /\
    (0 <= default 0.01 (ScoreCalculator.volatility30m d) ->
     0 <= Math_sqrt 30 -> 0 <= base) /\
    ScoreCalculator.penalisedScore Math_sqrt d ==
      base *
      (if negb (microDir =? 0)%Z && negb (mesoDir =? 0)%Z &&
          negb (microDir =? mesoDir)%Z then 0.5 else 1) *
      (if negb (microDir =? 0)%Z && negb (macroDir =? 0)%Z &&
          negb (microDir =? macroDir)%Z then 0.8 else 1).
Proof.
  intros microDir mesoDir macroDir.
  unfold ScoreCalculator.penalisedScore. cbv zeta.
  fold microDir mesoDir macroDir.
  set (mi := ScoreCalculator.calculateTrendiness
               (Some (default [] (ScoreCalculator.microReturns d)))).
  set (me := ScoreCalculator.calculateTrendiness
               (Some (default [] (ScoreCalculator.mesoReturns d)))).
  set (ma := ScoreCalculator.calculateTrendiness
               (Some (default [] (ScoreCalculator.macroReturns d)))).
  set (st := ScoreCalculator.calculateStability Math_sqrt _ _ None).
  destruct (calculateTrendiness_range
              (default [] (ScoreCalculator.microReturns d))) as [A1 A2].
  destruct (calculateTrendiness_range
              (default [] (ScoreCalculator.mesoReturns d))) as [B1 B2].
  destruct (calculateTrendiness_range
              (default [] (ScoreCalculator.macroReturns d))) as [C1 C2].
  fold mi in A1, A2. fold me in B1, B2. fold ma in C1, C2.
  assert (S1 : st <= 1) by apply calculateStability_le_1.
  exists (mi * ScoreCalculator.CONFIG.MICRO_WEIGHT +
          st * ScoreCalculator.CONFIG.STABILITY_WEIGHT +
          me * ScoreCalculator.CONFIG.MESO_WEIGHT +
          ma * ScoreCalculator.CONFIG.MACRO_WEIGHT).
  unfold ScoreCalculator.CONFIG.MICRO_WEIGHT,
    ScoreCalculator.CONFIG.STABILITY_WEIGHT,
    ScoreCalculator.CONFIG.MESO_WEIGHT, ScoreCalculator.CONFIG.MACRO_WEIGHT,
    ScoreCalculator.CONFIG.MICRO_MESO_PENALTY,
    ScoreCalculator.CONFIG.MICRO_MACRO_PENALTY.
  split; [qlra|]. split.
  - intros Hv Hs.
    assert (S0 : 0 <= st)
      by (apply calculateStability_nonneg; assumption).
    qlra.
  - destruct (_ && negb (_ =? mesoDir)%Z);
      destruct (_ && negb (_ =? macroDir)%Z); ring.
Qed.

(** X12. In [calculateScore], whatever [Math.sqrt] returns: the score
    after penalties is at most 1 and so is the reported score, which is
    within 0.005 of it; the order is START exactly from 0.55 and STOP
    exactly below 0.35; when the micro and meso directions are both
    non-zero and differ, the score is at most 0.5 and the order is never
    START; with a volatility and a square root that are not negative the
    score is not negative either; and the result is stored as the last
    score of its asset, leaving the other assets alone. *)
Theorem calculateScore_bounds_and_divergence :
  forall (asset : string) (d : ScoreCalculator.data)
         (self : ScoreCalculator.t),
    let raw := ScoreCalculator.penalisedScore Math_sqrt d in
    let r := (ScoreCalculator.calculateScore Math_sqrt asset d self).1 in
    let self' := (ScoreCalculator.calculateScore Math_sqrt asset d self).2 in
    let microDir := ScoreCalculator.micro (ScoreCalculator.r_directions r) in
    let mesoDir := ScoreCalculator.meso (ScoreCalculator.r_directions r) in
    raw <= 1 /\ ScoreCalculator.score r <= 1 /\
    (raw - 0.005 < ScoreCalculator.score r /\
     ScoreCalculator.score r <= raw + 0.005) /\
    (ScoreCalculator.r_order r = ScoreCalculator.START <-> 0.55 <= raw) /\
    (ScoreCalculator.r_order r = ScoreCalculator.STOP <-> raw < 0.35) /\
    (microDir <> 0%Z -> mesoDir <> 0%Z -> microDir <> mesoDir ->
     raw <= 0.5 /\ ScoreCalculator.r_order r <> ScoreCalculator.START) /\
    (0 <= default 0.01 (ScoreCalculator.volatility30m d) ->
     0 <= Math_sqrt 30 ->
     0 <= raw /\ 0 <= ScoreCalculator.score r) /\
    ScoreCalculator.getLastScore asset self' = Some r /\
    (forall a, a <> asset ->
       ScoreCalculator.getLastScore a self' =
       ScoreCalculator.getLastScore a self).
Proof.
  intros asset d self raw r self' microDir mesoDir.
  destruct (penalisedScore_cases d) as (base & Hb1 & Hb0 & Hraw).
  fold raw in Hraw.
  change (ScoreCalculator.calculateDirection
            (Some (default [] (ScoreCalculator.microReturns d))))
    with microDir in Hraw.
  change (ScoreCalculator.calculateDirection
            (Some (default [] (ScoreCalculator.mesoReturns d))))
    with mesoDir in Hraw.
  set (p1 := negb (microDir =? 0)%Z && negb (mesoDir =? 0)%Z &&
             negb (microDir =? mesoDir)%Z) in Hraw.
  set (p2 := _ && _ && _) in Hraw.
  assert (Hraw1 : raw <= 1).
  { rewrite Hraw. destruct p1, p2; qlra. }
  assert (Horder : ScoreCalculator.r_order r =
            if JS.ge raw 0.55 then ScoreCalculator.START
            else if JS.ge raw 0.35 then ScoreCalculator.HOLD
            else ScoreCalculator.STOP) by reflexivity.
  assert (Hscore : ScoreCalculator.score r = ScoreCalculator.round2 raw)
    by reflexivity.
  assert (Hstart : ScoreCalculator.r_order r = ScoreCalculator.START <->
                   0.55 <= raw).
  { rewrite Horder. destruct (JS.ge raw 0.55) eqn:E.
    - apply JS_ge_spec in E. tauto.
    - apply JS_ge_false in E.
      split; [destruct (JS.ge raw 0.35); discriminate|intros; exfalso; qlra]. }
  split; [exact Hraw1|]. split; [|split; [|split; [|split; [|split;
    [|split; [|split]]]]]].
  - rewrite Hscore.
    assert (E1 : ScoreCalculator.round2 1 == 1) by reflexivity.
    rewrite <- E1. apply round2_mono. exact Hraw1.
  - rewrite Hscore. apply round2_close.
  - exact Hstart.
  - rewrite Horder. destruct (JS.ge raw 0.55) eqn:E.
    + apply JS_ge_spec in E. split; [discriminate|intros; exfalso; qlra].
    + destruct (JS.ge raw 0.35) eqn:E'.
      * apply JS_ge_spec in E'. split; [discriminate|intros; exfalso; qlra].
      * apply JS_ge_false in E'. tauto.
  - intros H1 H2 H3.
    assert (Hle : raw <= 0.5).
    { assert (P1 : p1 = true).
      { subst p1. apply Z.eqb_neq in H1, H2, H3.
        rewrite H1, H2, H3. reflexivity. }
      rewrite Hraw, P1. destruct p2; qlra. }
    split; [exact Hle|]. rewrite Hstart. intros Hge. qlra.
  - intros Hv Hs. specialize (Hb0 Hv Hs).
    assert (Hraw0 : 0 <= raw).
    { rewrite Hraw. destruct p1, p2; qlra. }
    split; [exact Hraw0|]. rewrite Hscore.
    assert (E0 : ScoreCalculator.round2 0 == 0) by reflexivity.
    rewrite <- E0. apply round2_mono. exact Hraw0.
  - unfold ScoreCalculator.getLastScore. subst self' r.
    cbn [ScoreCalculator.calculateScore snd fst ScoreCalculator.lastScores].
    apply lookup_insert_eq.
  - intros a Ha. unfold ScoreCalculator.getLastScore. subst self'.
    cbn [ScoreCalculator.calculateScore snd fst ScoreCalculator.lastScores].
    apply lookup_insert_ne. congruence.
Qed.

End ScoreTheorems.

Lemma calculateScore_bounds_and_divergence_witness :
  let d := ScoreCalculator.mkData (Some [0.01; 0.02]) (Some [-0.03; -0.01])
             None (Some 0.01) (Some 0.03) in
  ScoreCalculator.r_order
    (ScoreCalculator.calculateScore example_sqrt "BTC" d
       ScoreCalculator.new).1 <> ScoreCalculator.START.
Proof.
  intros d.
  apply (calculateScore_bounds_and_divergence example_sqrt "BTC"%string d
           ScoreCalculator.new); vm_compute; discriminate.
Defined.

(** ** RegimeTracker: the history is a sliding window *)


Lemma last_n_length {A} n (l : list A) :
  (length (last_n n l) <= n)%nat.
Proof. unfold last_n. rewrite length_drop. lia. Qed.

Lemma last_n_short {A} n (l : list A) :
  (length l <= n)%nat -> last_n n l = l.
Proof.
  intros H. unfold last_n. replace (length l - n)%nat with 0%nat by lia.
  reflexivity.
Qed.

Lemma last_n_app {A} n (a b : list A) :
  last_n n (last_n n a ++ b) = last_n n (a ++ b).
Proof.
  unfold last_n.
  destruct (Nat.le_gt_cases (length a) n) as [H|H].
  - replace (length a - n)%nat with 0%nat by lia. reflexivity.
  - rewrite <- (drop_app_le a b (length a - n)) by lia.
    rewrite drop_drop. f_equal.
    rewrite length_drop, !length_app. lia.
Qed.

Lemma history_step {A} (h : list A) (s : A) :
  (length h <= 24)%nat ->
  (let h' := h ++ [s] in
   if (24 <? length h')%nat then tail h' else h') = last_n 24 (h ++ [s]).
Proof.
  intros H. cbv zeta. unfold last_n. rewrite length_app. cbn [length].
  destruct (24 <? length h + 1)%nat eqn:E.
  - apply Nat.ltb_lt in E.
    replace (length h + 1 - 24)%nat with 1%nat by lia.
    destruct (h ++ [s]); reflexivity.
  - apply Nat.ltb_ge in E.
    replace (length h + 1 - 24)%nat with 0%nat by lia. reflexivity.
Qed.

(** An [addScore] for one asset leaves the history and the regime of every
    other asset as they were. *)
Lemma addScore_other asset a s t c :
  a <> asset ->
  scores asset (RegimeTracker.addScore a s t c).1 = scores asset t /\
  RegimeTracker.getRegimeDetails asset (RegimeTracker.addScore a s t c).1 =
    RegimeTracker.getRegimeDetails asset t /\
  RegimeTracker.getRegime asset (RegimeTracker.addScore a s t c).1 =
    RegimeTracker.getRegime asset t.
Proof.
  intros Hne.
  unfold RegimeTracker.addScore, RegimeTracker.updateRegime. unfold_M.
  cbn [fst snd]. unfold scores, RegimeTracker.getRegime,
    RegimeTracker.getRegimeDetails.
  cbn [RegimeTracker.history RegimeTracker.regimes].
  rewrite !lookup_insert_ne by congruence. repeat split.
Qed.

Lemma regime_run_cons a adds t c :
  regime_run (a :: adds) t c =
  regime_run adds (RegimeTracker.addScore a.1 a.2 t c).1
                  (RegimeTracker.addScore a.1 a.2 t c).2.
Proof.
  cbn [regime_run]. unfold_M.
  destruct (RegimeTracker.addScore a.1 a.2 t c) as [t1 c1]. reflexivity.
Qed.

Lemma regime_run_scores asset adds :
  forall t c,
    (length (scores asset t) <= 24)%nat ->
    scores asset (regime_run adds t c).1 =
      last_n 24 (scores asset t ++ scores_given asset adds) /\
    (scores_given asset adds <> [] ->
     RegimeTracker.getRegime asset (regime_run adds t c).1 =
       regime_of (scores asset (regime_run adds t c).1)) /\
    (scores_given asset adds = [] ->
     RegimeTracker.getRegimeDetails asset (regime_run adds t c).1 =
       RegimeTracker.getRegimeDetails asset t).
Proof.
  induction adds as [|[a s] adds IH]; intros t c Hlen.
  - cbn [regime_run]. unfold_M. cbn [fst]. unfold scores_given.
    cbn [List.filter map]. rewrite app_nil_r, last_n_short by exact Hlen.
    split; [reflexivity|]. split; [congruence|reflexivity].
  - rewrite regime_run_cons. cbn [fst snd].
    set (t1 := (RegimeTracker.addScore a s t c).1).
    set (c1 := (RegimeTracker.addScore a s t c).2).
    unfold scores_given. cbn [List.filter fst].
    destruct (String.eqb a asset) eqn:E.
    + apply String.eqb_eq in E. subst a.
      destruct (addScore_scores asset s t c) as (Hs & Hr & _).
      fold t1 in Hs, Hr.
      rewrite (history_step (A := R)) in Hs by exact Hlen.
      assert (Hlen1 : (length (scores asset t1) <= 24)%nat)
        by (rewrite Hs; apply last_n_length).
      destruct (IH t1 c1 Hlen1) as (IH1 & IH2 & IH3).
      fold (scores_given asset adds). cbn [map snd].
      split; [|split].
      * rewrite IH1, Hs, last_n_app, <- app_assoc. reflexivity.
      * intros _.
        destruct (scores_given asset adds) as [|x xs] eqn:Eg.
        -- rewrite app_nil_r, last_n_short in IH1 by exact Hlen1.
           unfold RegimeTracker.getRegime.
           specialize (IH3 eq_refl).
           unfold RegimeTracker.getRegimeDetails in IH3.
           rewrite IH1.
           unfold RegimeTracker.getRegime in Hr. rewrite <- Hr.
           destruct (RegimeTracker.regimes (regime_run adds t1 c1).1
                       !! asset) as [i|] eqn:Ei;
             destruct (RegimeTracker.regimes t1 !! asset) as [i1|] eqn:Ei1;
             try rewrite IH3; try reflexivity.
           rewrite <- IH3. reflexivity.
        -- apply IH2. discriminate.
      * discriminate.
    + apply String.eqb_neq in E.
      destruct (addScore_other asset a s t c E) as (Hs & Hd & Hr).
      fold t1 in Hs, Hd, Hr.
      assert (Hlen1 : (length (scores asset t1) <= 24)%nat)
        by (rewrite Hs; exact Hlen).
      destruct (IH t1 c1 Hlen1) as (IH1 & IH2 & IH3).
      fold (scores_given asset adds).
      split; [|split].
      * rewrite IH1, Hs. reflexivity.
      * exact IH2.
      * intros Hg. rewrite (IH3 Hg). exact Hd.
Qed.


(** ** RegimeTracker: the regime ignores the level of the scores *)

Section RegimeShape.
Local Open Scope R_scope.

Lemma Rsum_cons x l : Rsum (x :: l) = x + Rsum l.
Proof. reflexivity. Qed.

Lemma Rsum_shift k l :
  Rsum (map (fun x => x + k) l) = Rsum l + INR (length l) * k.
Proof.
  induction l as [|x l IH].
  - cbn. ring.
  - cbn [map]. rewrite !Rsum_cons, IH.
    change (length (x :: l)) with (S (length l)). rewrite S_INR. ring.
Qed.

Lemma mean_shift k l :
  l <> [] -> mean (map (fun x => x + k) l) = mean l + k.
Proof.
  intros Hne. unfold mean. rewrite Rsum_shift, length_map.
  assert (INR (length l) <> 0).
  { apply not_0_INR. destruct l; [congruence|discriminate]. }
  field. assumption.
Qed.

Lemma population_std_shift k l :
  population_std (map (fun x => x + k) l) = population_std l.
Proof.
  destruct l as [|y l]; [reflexivity|].
  unfold population_std. rewrite mean_shift by discriminate.
  rewrite length_map. f_equal. f_equal.
  rewrite map_map. f_equal. apply map_ext. intros x. ring.
Qed.

Lemma half_trend_shift k l :
  (2 <= length l)%nat ->
  half_trend (map (fun x => x + k) l) = half_trend l.
Proof.
  intros Hl. unfold half_trend. rewrite length_map.
  assert (Hmid : (1 <= length l / 2 < length l)%nat).
  { split; [apply Nat.div_le_lower_bound; lia|].
    apply Nat.div_lt; lia. }
  rewrite skipn_map, firstn_map.
  rewrite !mean_shift; [ring| |].
  - intros E.
    assert (E' : length (take (length l / 2) l) = 0%nat)
      by (rewrite E; reflexivity).
    rewrite length_take in E'. lia.
  - intros E.
    assert (E' : length (drop (length l / 2) l) = 0%nat)
      by (rewrite E; reflexivity).
    rewrite length_drop in E'. lia.
Qed.

Lemma regime_of_shift k h :
  regime_of (map (fun x => x + k) h) = regime_of h.
Proof.
  unfold regime_of. rewrite length_map.
  destruct (length h <? 3)%nat eqn:E; [reflexivity|].
  apply Nat.ltb_ge in E.
  rewrite population_std_shift, half_trend_shift by lia. reflexivity.
Qed.

Lemma Rsum_replicate n (s : R) : Rsum (replicate n s) = INR n * s.
Proof.
  induction n as [|n IH]; [cbn; ring|].
  cbn [replicate]. rewrite Rsum_cons, IH, S_INR. ring.
Qed.

Lemma mean_replicate n (s : R) :
  (1 <= n)%nat -> mean (replicate n s) = s.
Proof.
  intros Hn. unfold mean. rewrite Rsum_replicate, length_replicate.
  field. apply not_0_INR. lia.
Qed.

Lemma map_replicate {A B} (f : A -> B) n (x : A) :
  map f (replicate n x) = replicate n (f x).
Proof. induction n as [|n IH]; [reflexivity|]. cbn. rewrite IH. reflexivity. Qed.

Lemma regime_of_flat n (s : R) :
  (3 <= n)%nat -> regime_of (replicate n s) = RegimeTracker.STEADY.
Proof.
  intros Hn.
  assert (Hstd : population_std (replicate n s) = 0).
  { unfold population_std. rewrite mean_replicate by lia.
    rewrite map_replicate, Rsum_replicate, length_replicate.
    replace (INR n * (s - s) ^ 2 / INR n) with 0; [apply sqrt_0|].
    field. apply not_0_INR. lia. }
  assert (Hmid : (1 <= n / 2 < n)%nat).
  { split; [apply Nat.div_le_lower_bound; lia|].
    apply Nat.div_lt; lia. }
  assert (Htrend : half_trend (replicate n s) = 0).
  { unfold half_trend. rewrite length_replicate.
    rewrite drop_replicate, take_replicate.
    rewrite !mean_replicate by lia. ring. }
  unfold regime_of. rewrite length_replicate.
  apply Nat.ltb_ge in Hn. rewrite Hn, Hstd, Htrend.
  destruct (Rlt_dec 0 (15 / 100)) as [_|H]; [|exfalso; apply H; rlra].
  destruct (Rlt_dec (5 / 100) 0) as [H|_]; [exfalso; rlra|].
  destruct (Rlt_dec 0 (- (5 / 100))) as [H|_]; [exfalso; rlra|].
  reflexivity.
Qed.

End RegimeShape.

Lemma scores_given_replicate asset (s : R) n :
  scores_given asset (replicate n (asset, s)) = replicate n s.
Proof.
  unfold scores_given. induction n as [|n IH]; [reflexivity|].
  cbn [replicate List.filter fst]. rewrite String.eqb_refl.
  cbn [map snd]. rewrite IH. reflexivity.
Qed.

Lemma last_n_replicate {A} m n (x : A) :
  last_n m (replicate n x) = replicate (Nat.min n m) x.
Proof.
  unfold last_n. rewrite length_replicate, drop_replicate.
  f_equal. lia.
Qed.



(** ** Guardrails: better inputs never block *)

Lemma checkAll_conditions toFixed str cfg i :
  Guardrails.allowed (Guardrails.checkAll toFixed str cfg i) = true <->
  default "START"%string (Guardrails.foremanOrder i) = "START"%string /\
  Guardrails.RHR_THRESHOLD cfg <=
    Guardrails.elapsedSec i / default 900 (Guardrails.windowSec i) /\
  Guardrails.OBI_BLOCK_THRESHOLD cfg < Guardrails.obi i /\
  ~ (Guardrails.FLIP_SKIP_COUNT cfg <= Guardrails.flipCount i /\
     Guardrails.shares i == 0) /\
  Guardrails.MIN_STABILITY cfg <= Guardrails.stability i /\
  (Guardrails.MIN_SPREAD cfg <=
     Qabs (Guardrails.priceYes i - Guardrails.priceNo i) /\
   Qabs (Guardrails.priceYes i - Guardrails.priceNo i) <=
     Guardrails.MAX_SPREAD cfg) /\
  match Guardrails.pairCost i with
  | None => True
  | Some pc => pc <= Guardrails.MAX_PAIR_COST cfg
  end.
Proof.
  rewrite checkAll_allowed.
  cbn [Guardrails.checkAll Guardrails.d_results Guardrails.values
       Guardrails.entries map snd Guardrails.r_foreman Guardrails.r_rhr
       Guardrails.r_obi Guardrails.r_flips Guardrails.r_stability
       Guardrails.r_spread Guardrails.r_pairCost].
  rewrite !Forall_cons, Forall_nil.
  rewrite checkRHR_passed, checkOBI_passed, checkFlips_passed,
    checkStability_passed, checkSpread_passed, checkPairCost_passed.
  cbn [Guardrails.passed default]. rewrite String.eqb_eq.
  destruct (Guardrails.windowSec i); cbn [default]; tauto.
Qed.

(** X15. [checkAll] is monotone: for a positive window length, when an
    input is allowed, so is every input that differs from it only by more
    elapsed time, a higher OBI, a higher stability, or a pair cost that is
    lower or absent; and the mode it reports is the same. *)
Theorem checkAll_is_monotone :
  forall (toFixed : Q -> nat -> string) (str : Q -> string)
         (cfg : Guardrails.config) (i i' : Guardrails.inputs),
    0 < default 900 (Guardrails.windowSec i) ->
    Guardrails.windowSec i' = Guardrails.windowSec i ->
    Guardrails.foremanOrder i' = Guardrails.foremanOrder i ->
    Guardrails.flipCount i' = Guardrails.flipCount i ->
    Guardrails.shares i' = Guardrails.shares i ->
    Guardrails.priceYes i' = Guardrails.priceYes i ->
    Guardrails.priceNo i' = Guardrails.priceNo i ->
    Guardrails.elapsedSec i <= Guardrails.elapsedSec i' ->
    Guardrails.obi i <= Guardrails.obi i' ->
    Guardrails.stability i <= Guardrails.stability i' ->
    (forall p', Guardrails.pairCost i' = Some p' ->
       exists p, Guardrails.pairCost i = Some p /\ p' <= p) ->
    Guardrails.allowed (Guardrails.checkAll toFixed str cfg i) = true ->
    Guardrails.allowed (Guardrails.checkAll toFixed str cfg i') = true /\
    Guardrails.d_mode (Guardrails.checkAll toFixed str cfg i') =
      Guardrails.d_mode (Guardrails.checkAll toFixed str cfg i).
Proof.
  intros toFixed str cfg i i' Hw Ew Ef Efl Esh Ey En He Ho Hs Hp Hal.
  assert (Hal' : Guardrails.allowed (Guardrails.checkAll toFixed str cfg i')
                 = true).
  { apply checkAll_conditions. apply checkAll_conditions in Hal.
    destruct Hal as (A1 & A2 & A3 & A4 & A5 & A6 & A7).
    rewrite Ew, Ef, Efl, Esh, Ey, En.
    repeat split; try tauto.
    - eapply Qle_trans; [exact A2|].
      apply Qmult_le_compat_r; [exact He|].
      apply Qlt_le_weak, Qinv_lt_0_compat. exact Hw.
    - qlra.
    - qlra.
    - destruct (Guardrails.pairCost i') as [p'|]; [|exact I].
      destruct (Hp p' eq_refl) as (p & Ep & Hle).
      rewrite Ep in A7. qlra. }
  split; [exact Hal'|].
  cbn [Guardrails.checkAll Guardrails.d_mode Guardrails.r_flips].
  cbn [Guardrails.checkAll Guardrails.allowed] in Hal, Hal'.
  rewrite Hal, Hal', Efl, Esh. reflexivity.
Qed.

Lemma checkAll_is_monotone_witness :
  let i := Guardrails.mkInputs 400 None 0.1 None 0 0 0.8 0.6 0.4 None
             (Some 0.98) in
  let i' := Guardrails.mkInputs 500 None 0.2 None 0 0 0.9 0.6 0.4 None
              None in
  Guardrails.allowed
    (Guardrails.checkAll (fun _ _ => ""%string) (fun _ => ""%string)
       Guardrails.CONFIG i') = true.
Proof.
  intros i i'.
  apply (checkAll_is_monotone (fun _ _ => ""%string) (fun _ => ""%string)
           Guardrails.CONFIG i i');
    try reflexivity; try discriminate.
Defined.

(** ** The state machine of the worker: transitions and orders *)

Section WorkerTransitions.

Context {E : Type} `{ExchangeInterface E}.
Variable toFixed : Q -> nat -> string.
Variable str : Q -> string.

(** The successors of each state, and where the exchange and the position
    are left alone. *)
Lemma dispatch_cases :
  forall (st : Worker.AssetState) (assetOrder : Worker.tokens)
         (window : Worker.window) (orders : option Worker.risk_caps)
         (info : LeaderTracker.info) (priceYes priceNo : Q)
         (g : Guardrails.config) (ex : E) (c : Clock),
    let r := Worker.dispatch toFixed str st assetOrder window orders info
                             priceYes priceNo g ex c in
    let st' := r.1.1 in
    let ex' := r.1.2 in
    match Worker.state st with
    | Worker.IDLE => st' = st /\ ex' = ex
    | Worker.ARMED =>
        (Worker.state st' = Worker.ARMED \/ Worker.state st' = Worker.ENTRY \/
         Worker.state st' = Worker.RECOVERY) /\
        ex' = ex /\ Worker.position st' = Worker.position st
    | Worker.ENTRY =>
        Worker.state st' = Worker.LADDERING /\
        Worker.entryDone st' = true /\
        (Worker.entryDone st = true ->
         ex' = ex /\ Worker.position st' = Worker.position st)
    | Worker.LADDERING =>
        Worker.state st' = Worker.LOCKING /\
        Worker.ladderDone st' = true /\
        Worker.position st' = Worker.position st /\
        (Worker.ladderDone st = true -> ex' = ex)
    | Worker.LOCKING =>
        (Worker.state st' = Worker.LOCKING \/
         Worker.state st' = Worker.LOCKED \/
         Worker.state st' = Worker.RECOVERY) /\
        (Worker.state st' = Worker.LOCKED <->
         LockDetector.locked (Worker.lockDetector st') = true) /\
        ex' = ex /\ Worker.position st' = Worker.position st
    | Worker.LOCKED =>
        (Worker.remaining_sec window <= 10 ->
         st' = Worker.set_state Worker.ENDGAME st) /\
        (10 < Worker.remaining_sec window -> st' = st) /\
        ex' = ex
    | Worker.RECOVERY => Worker.state st' = Worker.LOCKING
    | Worker.ENDGAME => st' = st
    end.
Proof.
  intros st assetOrder window orders info pY pN g ex c.
  cbv zeta. unfold Worker.dispatch.
  destruct (Worker.state st) eqn:Est.
  - (* IDLE *) split; reflexivity.
  - (* ARMED *)
    unfold_M.
    pose proof (handleArmed_effect toFixed str st window info g c) as Ha.
    cbv zeta in Ha.
    destruct (Worker.handleArmed toFixed str st window info g c) as [st' c'].
    cbn [fst snd] in *.
    destruct Ha as (Hs & Hp & _). rewrite Est in Hs.
    split; [tauto|]. split; [reflexivity|exact Hp].
  - (* ENTRY *)
    unfold Worker.handleEntry. unfold_M.
    destruct (Worker.entryDone st) eqn:Ed.
    + cbn. rewrite Ed. repeat split; reflexivity.
    + handler_cases; cbn; repeat split; try reflexivity; discriminate.
  - (* LADDERING *)
    unfold Worker.handleLaddering. unfold_M.
    destruct (Worker.ladderDone st) eqn:Ed.
    + cbn. rewrite Ed. repeat split; reflexivity.
    + handler_cases; cbn; repeat split; try reflexivity; discriminate.
  - (* LOCKING *)
    unfold Worker.handleLocking. unfold_M.
    pose proof (checkLock_locked (Worker.position st)
                  (Worker.lockDetector st) c) as (Hr & _).
    destruct (LockDetector.checkLock _ _ c) as [[r ld] c1].
    cbn [fst snd] in *.
    destruct (LockDetector.c_locked r) eqn:El.
    + cbn. repeat split; auto.
    + handler_cases; cbn; rewrite ?Est, <- ?Hr;
        repeat split; auto; try discriminate; try congruence.
  - (* LOCKED *)
    unfold Worker.CONFIG.ENDGAME_SECONDS.
    destruct (JS.le (Worker.remaining_sec window) 10) eqn:El; cbn [fst snd].
    + apply JS_le_spec in El. repeat split; auto. intros. exfalso. qlra.
    + apply JS_le_false in El. repeat split; auto. intros. exfalso. qlra.
  - (* RECOVERY *)
    unfold Worker.handleRecovery. unfold_M. handler_cases; reflexivity.
  - (* ENDGAME *)
    unfold_M.
    destruct (Worker.handleEndgame _ _ _ _ _ _ _ _) as [ex' c'].
    reflexivity.
Qed.

(** X16. The transitions of the per-asset state machine, one [switch] of
    [processAsset] at a time.  ARMED stays or goes to ENTRY or RECOVERY;
    ENTRY always goes to LADDERING with [entryDone] set, and places no
    order when the entry was already done; LADDERING always goes to
    LOCKING with [ladderDone] set and never changes the position;
    LOCKING stays or goes to LOCKED or RECOVERY, to LOCKED exactly when
    the lock detector is locked; LOCKED goes to ENDGAME exactly when at
    most 10 seconds remain; RECOVERY always goes back to LOCKING; ENDGAME
    and IDLE leave the state as it is.  ARMED, LOCKING, LOCKED and IDLE
    never touch the exchange. *)
Theorem dispatch_transitions :
  forall (st : Worker.AssetState) (assetOrder : Worker.tokens)
         (window : Worker.window) (orders : option Worker.risk_caps)
         (info : LeaderTracker.info) (priceYes priceNo : Q)
         (g : Guardrails.config) (ex : E) (c : Clock),
    let r := Worker.dispatch toFixed str st assetOrder window orders info
                             priceYes priceNo g ex c in
    let st' := r.1.1 in
    let ex' := r.1.2 in
    match Worker.state st with
    | Worker.IDLE => st' = st /\ ex' = ex
    | Worker.ARMED =>
        (Worker.state st' = Worker.ARMED \/ Worker.state st' = Worker.ENTRY \/
         Worker.state st' = Worker.RECOVERY) /\
        ex' = ex /\ Worker.position st' = Worker.position st
    | Worker.ENTRY =>
        Worker.state st' = Worker.LADDERING /\
        Worker.entryDone st' = true /\
        (Worker.entryDone st = true ->
         ex' = ex /\ Worker.position st' = Worker.position st)
    | Worker.LADDERING =>
        Worker.state st' = Worker.LOCKING /\
        Worker.ladderDone st' = true /\
        Worker.position st' = Worker.position st /\
        (Worker.ladderDone st = true -> ex' = ex)
    | Worker.LOCKING =>
        (Worker.state st' = Worker.LOCKING \/
         Worker.state st' = Worker.LOCKED \/
         Worker.state st' = Worker.RECOVERY) /\
        (Worker.state st' = Worker.LOCKED <->
         LockDetector.locked (Worker.lockDetector st') = true) /\
        ex' = ex /\ Worker.position st' = Worker.position st
    | Worker.LOCKED =>
        (Worker.remaining_sec window <= 10 ->
         st' = Worker.set_state Worker.ENDGAME st) /\
        (10 < Worker.remaining_sec window -> st' = st) /\
        ex' = ex
    | Worker.RECOVERY => Worker.state st' = Worker.LOCKING
    | Worker.ENDGAME => st' = st
    end.
Proof. exact dispatch_cases. Qed.

End WorkerTransitions.

Lemma canPlaceOrder_true st price size caps :
  Worker.canPlaceOrder st price size caps = true ->
  yesShares (Worker.position st) + noShares (Worker.position st) + size
    <= Worker.maxShares caps /\
  yesCost (Worker.position st) + noCost (Worker.position st) + price * size
    <= Worker.maxNotional caps.
Proof.
  unfold Worker.canPlaceOrder.
  destruct (JS.gt _ (Worker.maxShares caps)) eqn:E1; [discriminate|].
  destruct (JS.gt _ (Worker.maxNotional caps)) eqn:E2; [discriminate|].
  intros _. apply JS_gt_false in E1, E2.
  cbv zeta in E1, E2. rewrite !JS_or_zero in E1, E2.
  rewrite (JS_or_zero price) in E2. split; assumption.
Qed.

Lemma within_caps_buy caps p side shares cost size limit :
  yesShares p + noShares p + size <= Worker.maxShares caps ->
  yesCost p + noCost p + limit <= Worker.maxNotional caps ->
  shares <= size -> cost <= limit ->
  within_caps caps (Worker.buy side shares cost p).
Proof.
  intros H1 H2 H3 H4. unfold within_caps.
  destruct side; cbn; split; qlra.
Qed.

Lemma Qmult_le_both a b f s :
  a <= b -> 0 <= b -> 0 <= f -> f <= s -> a * f <= b * s.
Proof.
  intros Hab Hb Hf Hfs.
  apply Qle_trans with (b * f).
  - apply Qmult_le_compat_r; assumption.
  - rewrite (Qmult_comm b f), (Qmult_comm b s).
    apply Qmult_le_compat_r; assumption.
Qed.

Section WorkerCaps.

Context {E : Type} `{ExchangeInterface E}.
Variable toFixed : Q -> nat -> string.
Variable str : Q -> string.
Hypothesis Hfills : honest_fills E.

Lemma handleEntry_within_caps st assetOrder pY pN caps (ex : E) c :
  within_caps caps (Worker.position st) ->
  within_caps caps
    (Worker.position (Worker.handleEntry st assetOrder pY pN caps ex c).1.1).
Proof.
  intros Hin. unfold Worker.handleEntry. unfold_M.
  destruct (Worker.entryDone st); [exact Hin|].
  set (isYes := bool_decide (_ = Some YES)).
  destruct (if isYes then Worker.up assetOrder else Worker.down assetOrder)
    as [tokenId|]; [|exact Hin].
  destruct (Worker.canPlaceOrder st _ _ caps) eqn:Ecan; [|exact Hin].
  cbn [negb].
  destruct (Worker.canAddPairPosition st _ _ _ FOK); [|exact Hin].
  cbn [negb].
  apply canPlaceOrder_true in Ecan. destruct Ecan as [Hs Hc].
  match goal with
  | |- context [placeOrder ?o ex c] =>
      pose proof (Hfills o ex c) as Hf;
      destruct (placeOrder o ex c) as [[res ex'] c']
  end.
  cbn [fst snd] in *.
  destruct res as [[fillPrice sz| |]|]; try exact Hin.
  destruct (Hf fillPrice sz eq_refl eq_refl) as [Hp1 _]. cbn [price] in Hp1.
  cbn [Worker.position Worker.set_state Worker.set_entryDone
       Worker.set_position].
  eapply within_caps_buy; [exact Hs|exact Hc|apply Qle_refl|].
  apply Qmult_le_compat_r; [exact Hp1|discriminate].
Qed.

Lemma handleRecovery_within_caps st assetOrder pY pN caps (ex : E) c :
  0 <= pY -> 0 <= pN ->
  within_caps caps (Worker.position st) ->
  within_caps caps
    (Worker.position
       (Worker.handleRecovery st assetOrder pY pN caps ex c).1.1).
Proof.
  intros HpY HpN Hin. unfold Worker.handleRecovery. unfold_M.
  set (a := LockDetector.analyzePosition (Worker.position st)).
  set (isYes := bool_decide (LockDetector.recoverySide a = YES)).
  set (prc := if isYes then pY else pN).
  assert (Hprc : 0 <= prc) by (subst prc; destruct isYes; assumption).
  destruct (LockDetector.calculateRecoveryShares _ prc (Some 2))
    as [n|]; [|exact Hin].
  destruct (JS.gt _ (Worker.maxShares caps)); [exact Hin|].
  destruct (JS.gt _ (Worker.maxNotional caps)); [exact Hin|].
  destruct (if isYes then Worker.up assetOrder else Worker.down assetOrder)
    as [tokenId|]; [|exact Hin].
  destruct (JS.gt (inject_Z n) 0 && JS.lt (inject_Z n) 50) eqn:Erange;
    [|exact Hin].
  apply andb_true_iff in Erange as [Epos _]. apply JS_gt_spec in Epos.
  set (qty := JS.Math_min (inject_Z n) 10).
  assert (Hsize : 0 <= qty).
  { subst qty. unfold JS.Math_min.
    destruct (JS.lt 10 (inject_Z n)); [discriminate|qlra]. }
  destruct (Worker.canPlaceOrder st _ qty caps) eqn:Ecan; [|exact Hin].
  cbn [negb].
  destruct (Worker.canAddPairPosition st _ _ qty IOC); [|exact Hin].
  cbn [negb].
  apply canPlaceOrder_true in Ecan. destruct Ecan as [Hs Hc].
  match goal with
  | |- context [placeOrder ?o ex c] =>
      pose proof (Hfills o ex c) as Hf;
      destruct (placeOrder o ex c) as [[res ex'] c']
  end.
  cbn [fst snd] in *.
  destruct res as [[fillPrice sz| |]|]; try exact Hin.
  destruct (Hf fillPrice sz eq_refl eq_refl) as [Hp1 Hsz].
  cbn [price size] in Hp1, Hsz.
  cbn [Worker.position Worker.set_state Worker.set_position].
  assert (Hfilled : 0 <= JS.or_opt sz qty /\ JS.or_opt sz qty <= qty).
  { unfold JS.or_opt, JS.or. destruct sz as [s|]; [|split; [exact Hsize|apply Qle_refl]].
    destruct (JS.eq s 0); [split; [exact Hsize|apply Qle_refl]|].
    apply Hsz. reflexivity. }
  assert (Hfp : JS.or fillPrice prc <= prc + 0.02).
  { unfold JS.or. destruct (JS.eq fillPrice 0); [qlra|exact Hp1]. }
  eapply within_caps_buy; [exact Hs|exact Hc|apply Hfilled|].
  apply Qmult_le_both; [exact Hfp|qlra|apply Hfilled|apply Hfilled].
Qed.

Lemma dispatch_within_caps st assetOrder window orders info pY pN g
    (ex : E) c :
  0 <= pY -> 0 <= pN ->
  within_caps (Worker.getRiskCaps orders) (Worker.position st) ->
  within_caps (Worker.getRiskCaps orders)
    (Worker.position
       (Worker.dispatch toFixed str st assetOrder window orders info pY pN
                        g ex c).1.1).
Proof.
  intros HpY HpN Hin.
  pose proof (dispatch_cases toFixed str st assetOrder window orders
                info pY pN g ex c) as Ht.
  cbv zeta in Ht.
  destruct (Worker.state st) eqn:Est.
  - destruct Ht as [-> _]. exact Hin.
  - destruct Ht as (_ & _ & ->). exact Hin.
  - unfold Worker.dispatch. rewrite Est.
    apply handleEntry_within_caps. exact Hin.
  - destruct Ht as (_ & _ & -> & _). exact Hin.
  - destruct Ht as (_ & _ & _ & ->). exact Hin.
  - destruct (Qlt_le_dec 10 (Worker.remaining_sec window)) as [Hr|Hr].
    + destruct Ht as (_ & Hsame & _). rewrite (Hsame Hr). exact Hin.
    + destruct Ht as (Hend & _). rewrite (Hend Hr). exact Hin.
  - unfold Worker.dispatch. rewrite Est.
    apply handleRecovery_within_caps; assumption.
  - rewrite Ht. exact Hin.
Qed.

Lemma beginTick_prices asset assetOrder window feed st rt c :
  feed_prices_nonneg feed ->
  let r := (Worker.beginTick asset assetOrder window feed st rt c).1 in
  0 <= r.1.2 /\ 0 <= r.2.
Proof.
  intros Hfeed. cbv zeta. unfold Worker.beginTick. unfold_M.
  destruct (Worker.detectNewWindow asset assetOrder window st rt c)
    as [[st1 rt1] c1].
  cbn [fst snd].
  assert (Hp : forall pp : Q * Q,
            pp = match Worker.up assetOrder, Worker.down assetOrder,
                       Worker.f_prices feed with
                 | Some _, Some _, Some (yesData, noData) =>
                     (JS.or_opt yesData 0.50, JS.or_opt noData 0.50)
                 | _, _, _ => (0.50, 0.50)
                 end ->
            0 <= pp.1 /\ 0 <= pp.2).
  { intros pp ->.
    assert (Hor : forall v : option Q,
              (forall p, v = Some p -> 0 <= p) -> 0 <= JS.or_opt v 0.50).
    { intros [p|] Hv; cbn; [|discriminate].
      unfold JS.or. destruct (JS.eq p 0); [discriminate|auto]. }
    destruct (Worker.up assetOrder), (Worker.down assetOrder);
      try (split; discriminate).
    destruct (Worker.f_prices feed) as [[y n]|] eqn:Ef;
      [|split; discriminate].
    destruct (Hfeed y n Ef) as [Hy Hn].
    split; apply Hor; assumption. }
  match goal with
  | |- context [let '(_, _) := ?pp in _] =>
      specialize (Hp pp eq_refl); destruct pp as [pY pN]
  end.
  destruct (LeaderTracker.update pY pN (Worker.leaderTracker st1) c1)
    as [[info lt] c2].
  match goal with
  | |- context [OBICalculator.updateOBIFromMarket ?a ?b ?m ?o ?k] =>
      destruct (OBICalculator.updateOBIFromMarket a b m o k) as [[meth oc] c3]
  end.
  exact Hp.
Qed.


End WorkerCaps.

Lemma paper_fills_are_honest : honest_fills (list order).
Proof.
  intros o ex c fillPrice sz _. cbn. unfold paperPlaceOrder. unfold_M.
  cbn [fst snd]. destruct (type o); intros E; inversion E; subst.
  - split; [apply Qle_refl|discriminate].
  - split; [apply Qle_refl|discriminate].
Qed.


(** ** Closed windows: registration and resolution *)

Lemma detectNewWindow_tracker asset assetOrder window st rt c :
  let rt' := (Worker.detectNewWindow asset assetOrder window st rt c).1.2 in
  (Worker.lastWindowId st = Some (Worker.w_id window) -> rt' = rt) /\
  (Worker.lastWindowId st = None -> rt' = rt) /\
  (forall last,
     Worker.lastWindowId st = Some last -> last <> Worker.w_id window ->
     (last = 0%Z \/
      (yesShares (Worker.position st) <= 0 /\
       noShares (Worker.position st) <= 0) ->
      rt' = rt) /\
     (last <> 0%Z ->
      0 < yesShares (Worker.position st) \/
      0 < noShares (Worker.position st) ->
      exists endTime registeredAt,
        rt' = <[(last, asset) :=
                  Worker.mkRegistration last asset (Worker.position st)
                    endTime (Worker.lastTokens st) registeredAt]> rt /\
        (forall ms, Worker.w_end window = Some (Some ms) -> endTime = ms))).
Proof.
  cbv zeta. unfold Worker.detectNewWindow. split; [|split].
  - intros El. rewrite El.
    rewrite bool_decide_eq_false_2 by (intros Hx; apply Hx; reflexivity).
    reflexivity.
  - intros El. rewrite El.
    rewrite bool_decide_eq_true_2 by discriminate. reflexivity.
  - intros last El Hne. rewrite El.
    rewrite bool_decide_eq_true_2 by congruence.
    unfold_M. split.
    + intros Hno.
      assert (Hb : bool_decide (last <> 0%Z) &&
                   (JS.gt (yesShares (Worker.position st)) 0 ||
                    JS.gt (noShares (Worker.position st)) 0) = false).
      { destruct Hno as [->|[Hy Hn]].
        - rewrite bool_decide_eq_false_2 by (intros Hx; apply Hx; reflexivity).
          reflexivity.
        - apply andb_false_iff. right.
          apply orb_false_iff. split; apply JS_gt_false; assumption. }
      rewrite Hb. reflexivity.
    + intros H0 Hpos.
      rewrite (bool_decide_eq_true_2 _ H0).
      assert (Hor : JS.gt (yesShares (Worker.position st)) 0 ||
                    JS.gt (noShares (Worker.position st)) 0 = true).
      { apply orb_true_iff.
        destruct Hpos; [left|right]; apply JS_gt_spec; assumption. }
      rewrite Hor. cbn [andb].
      unfold Worker.registerPosition. unfold_M.
      destruct (Worker.w_end window) as [[ms|]|]; cbn [fst snd];
        eexists _, _; (split; [reflexivity|]); intros ms' E;
        congruence.
Qed.

Section WorkerRegistration.

Context {E : Type} `{ExchangeInterface E}.
Variable toFixed : Q -> nat -> string.
Variable str : Q -> string.

Lemma beginTick_tracker asset assetOrder window feed st rt c :
  (Worker.beginTick asset assetOrder window feed st rt c).1.1.1.1.2 =
  (Worker.detectNewWindow asset assetOrder window st rt c).1.2.
Proof.
  unfold Worker.beginTick. unfold_M.
  destruct (Worker.detectNewWindow asset assetOrder window st rt c)
    as [[st1 rt1] c1].
  cbn [fst snd].
  match goal with
  | |- context [let '(_, _) := ?pp in _] => destruct pp as [pY pN]
  end.
  destruct (LeaderTracker.update pY pN (Worker.leaderTracker st1) c1)
    as [[info lt] c2].
  match goal with
  | |- context [OBICalculator.updateOBIFromMarket ?a ?b ?m ?o ?k] =>
      destruct (OBICalculator.updateOBIFromMarket a b m o k) as [[meth oc] c3]
  end.
  reflexivity.
Qed.

Lemma processAsset_tracker asset assetOrder window orders feed
    (self : Worker.t) c :
  Worker.resolutionTracker
    (Worker.processAsset toFixed str asset assetOrder window orders feed
                         self c).1.2 =
  (Worker.detectNewWindow asset assetOrder window
     (Worker.initAssetState asset (Worker.assetState self))
     (Worker.resolutionTracker self) c).1.2.
Proof.
  rewrite <- (beginTick_tracker asset assetOrder window feed).
  unfold Worker.processAsset. unfold_M.
  destruct (Worker.beginTick _ _ _ _ _ _ c) as [[[[[st2 rt2] info] pY] pN] c1].
  cbn [fst snd].
  destruct (Worker.dispatch _ _ _ _ _ _ _ _ _ _ _ c1) as [[st3 ex3] c2].
  cbn [fst snd].
  destruct (OBICalculator.getRollingOBI _ _ c2) as [[obi oc] c3].
  reflexivity.
Qed.

(** X18. [processAsset] hands the position of a closing window to the
    resolution tracker before it resets it.  With the same window, or for
    an asset without a window so far, nothing is registered.  When the
    window changes, nothing is registered if the last window id is 0 or
    no shares are held; otherwise exactly the entry of the last window and
    this asset is written, with the position and the tokens held before
    the reset and, where the new window has a parsable end, the end time
    of the new window. *)
Theorem closing_window_is_registered_before_the_reset :
  forall (asset : string) (assetOrder : Worker.tokens)
         (window : Worker.window) (orders : option Worker.risk_caps)
         (feed : Worker.feed) (self : Worker.t) (c : Clock),
    let st0 := Worker.initAssetState asset (Worker.assetState self) in
    let rt := Worker.resolutionTracker self in
    let rt' :=
      Worker.resolutionTracker
        (Worker.processAsset toFixed str asset assetOrder window orders
                             feed self c).1.2 in
    (Worker.lastWindowId st0 = Some (Worker.w_id window) -> rt' = rt) /\
    (Worker.lastWindowId st0 = None -> rt' = rt) /\
    (forall last,
       Worker.lastWindowId st0 = Some last ->
       last <> Worker.w_id window ->
       (last = 0%Z \/
        (yesShares (Worker.position st0) <= 0 /\
         noShares (Worker.position st0) <= 0) ->
        rt' = rt) /\
       (last <> 0%Z ->
        0 < yesShares (Worker.position st0) \/
        0 < noShares (Worker.position st0) ->
        (forall k, k <> (last, asset) -> rt' !! k = rt !! k) /\
        exists reg,
          rt' !! (last, asset) = Some reg /\
          Worker.reg_windowId reg = last /\
          Worker.reg_asset reg = asset /\
          Worker.reg_position reg = Worker.position st0 /\
          Worker.reg_tokens reg = Worker.lastTokens st0 /\
          (forall ms, Worker.w_end window = Some (Some ms) ->
                      Worker.reg_endTime reg = ms))).
Proof.
  intros asset assetOrder window orders feed self c st0 rt rt'.
  subst rt'. rewrite processAsset_tracker. fold st0 rt.
  destruct (detectNewWindow_tracker asset assetOrder window st0 rt c)
    as (H1 & H2 & H3).
  split; [exact H1|]. split; [exact H2|].
  intros last El Hne. destruct (H3 last El Hne) as [Hno Hyes].
  split; [exact Hno|].
  intros H0 Hpos.
  destruct (Hyes H0 Hpos) as (endTime & registeredAt & -> & Hend).
  split.
  - intros k Hk. apply lookup_insert_ne. congruence.
  - eexists. split; [apply lookup_insert_eq|].
    cbn. repeat split; auto.
Qed.

End WorkerRegistration.

Lemma closing_window_is_registered_before_the_reset_witness :
  let st := Worker.set_position (mkPosition 10 6 0 0)
              (Worker.set_lastWindowId (Some 1699999%Z)
                 Worker.initialAssetState) in
  let self := Worker.mk ([] : list order) Guardrails.CONFIG
                {[ "BTC"%string := st ]} ∅ in
  let out :=
    Worker.processAsset (fun _ _ => ""%string) (fun _ => ""%string)
      "BTC" (Worker.mkTokens (Some "up"%string) (Some "down"%string))
      (Worker.mkWindow 1700000 None 100 800) None
      (Worker.mkFeed None (OBICalculator.mkMarket None None)) self ticking in
  exists reg,
    Worker.resolutionTracker out.1.2 !! (1699999%Z, "BTC"%string) = Some reg /\
    Worker.reg_position reg = mkPosition 10 6 0 0.
Proof.
  intros st self out.
  assert (Hst : Worker.initAssetState "BTC" (Worker.assetState self) = st).
  { unfold Worker.initAssetState. cbn [Worker.assetState self].
    rewrite lookup_singleton_eq. reflexivity. }
  destruct (closing_window_is_registered_before_the_reset
              (fun _ _ => ""%string) (fun _ => ""%string)
              "BTC"%string
              (Worker.mkTokens (Some "up"%string) (Some "down"%string))
              (Worker.mkWindow 1700000 None 100 800) None
              (Worker.mkFeed None (OBICalculator.mkMarket None None))
              self ticking) as (_ & _ & Hreg).
  destruct (Hreg 1699999%Z) as [_ Hr].
  - rewrite Hst. reflexivity.
  - cbn. lia.
  - destruct Hr as (_ & reg & Hl & _ & _ & Hp & _).
    + lia.
    + rewrite Hst. left. reflexivity.
    + exists reg. split; [exact Hl|]. rewrite Hp, Hst. reflexivity.
Defined.


(** ** ResolutionTracker *)

Lemma resolvePosition_missing windowId asset winner self c :
  ResolutionTracker.pendingResolutions self !! (windowId, asset) = None ->
  ResolutionTracker.resolvePosition windowId asset winner self c =
    (None, self, c).
Proof.
  intros Hn. unfold ResolutionTracker.resolvePosition. rewrite Hn.
  reflexivity.
Qed.

Lemma count_totalTrades r pnl k :
  ResolutionTracker.totalTrades (ResolutionTracker.count r pnl k) =
    (ResolutionTracker.totalTrades k + 1)%Z /\
  ResolutionTracker.totalPnl (ResolutionTracker.count r pnl k) =
    ResolutionTracker.totalPnl k + pnl /\
  ResolutionTracker.tradesEntered (ResolutionTracker.count r pnl k) =
    ResolutionTracker.tradesEntered k.
Proof.
  unfold ResolutionTracker.totalTrades, ResolutionTracker.count.
  destruct r; cbn -[Z.add]; repeat split; lia.
Qed.

(** What a successful [resolvePosition] returns and leaves. *)
Lemma resolvePosition_found windowId asset winner self c reg :
  ResolutionTracker.pendingResolutions self !! (windowId, asset) = Some reg ->
  let p := Worker.reg_position reg in
  let pnl :=
    (if String.eqb winner "YES" then yesShares p * 1.00
     else if String.eqb winner "NO" then noShares p * 1.00 else 0) -
    (yesCost p + noCost p) in
  let result :=
    if JS.gt pnl 0.01 then ResolutionTracker.WIN
    else if JS.lt pnl (-0.01) then ResolutionTracker.LOSS
    else ResolutionTracker.BREAKEVEN in
  let tr :=
    ResolutionTracker.mkTrade (c 0%nat) windowId asset winner result pnl
      (ResolutionTracker.mkTraded (yesShares p) (noShares p)
                                  (yesCost p + noCost p)) in
  let st := ResolutionTracker.r_stats self in
  ResolutionTracker.resolvePosition windowId asset winner self c =
    (Some tr,
     ResolutionTracker.mk
       (delete (windowId, asset) (ResolutionTracker.pendingResolutions self))
       (ResolutionTracker.mkStats
          (ResolutionTracker.count result pnl (ResolutionTracker.session st))
          (ResolutionTracker.count result pnl (ResolutionTracker.allTime st))
          (if (100 <? length (tr :: ResolutionTracker.history st))%nat
           then take 100 (tr :: ResolutionTracker.history st)
           else tr :: ResolutionTracker.history st)),
     fun n => c (S n)).
Proof.
  intros Hs. cbv zeta. unfold ResolutionTracker.resolvePosition. rewrite Hs.
  reflexivity.
Qed.

Lemma cap_100 {A} (l : list A) :
  (if (100 <? length l)%nat then take 100 l else l) = take 100 l.
Proof.
  destruct (100 <? length l)%nat eqn:E; [reflexivity|].
  apply Nat.ltb_ge in E. symmetry. apply take_ge. exact E.
Qed.


Lemma take_app_take {A} (a b : list A) :
  forall n m, (n <= m)%nat -> take n (a ++ take m b) = take n (a ++ b).
Proof.
  induction a as [|x a IH]; intros n m Hnm.
  - cbn [app]. rewrite take_take. f_equal. lia.
  - destruct n as [|n]; [reflexivity|]. cbn [app take firstn].
    f_equal. apply IH. lia.
Qed.

Lemma count_result_cons r tr trades :
  count_result r (tr :: trades) =
  ((match ResolutionTracker.result tr, r with
    | ResolutionTracker.WIN, ResolutionTracker.WIN
    | ResolutionTracker.LOSS, ResolutionTracker.LOSS
    | ResolutionTracker.BREAKEVEN, ResolutionTracker.BREAKEVEN => 1
    | _, _ => 0
    end) + count_result r trades)%Z.
Proof.
  unfold count_result. cbn [List.filter].
  destruct (ResolutionTracker.result tr), r; cbn [length]; lia.
Qed.

Lemma counted_nil k : counted [] k k.
Proof.
  unfold counted, count_result. cbn. repeat split; try lia.
  unfold Qsum. cbn. ring.
Qed.

Lemma counted_cons tr trades k k' :
  counted trades
    (ResolutionTracker.count (ResolutionTracker.result tr)
                             (ResolutionTracker.pnl tr) k) k' ->
  counted (tr :: trades) k k'.
Proof.
  intros (H1 & H2 & H3 & H4 & H5 & H6).
  destruct (count_totalTrades (ResolutionTracker.result tr)
              (ResolutionTracker.pnl tr) k) as (T1 & T2 & T3).
  unfold counted.
  rewrite !(count_result_cons _ tr trades).
  rewrite H1, H2, H3, H4, H5, H6, T1, T2, T3.
  cbn [map length]. rewrite Qsum_cons.
  unfold ResolutionTracker.count.
  destruct (ResolutionTracker.result tr);
    cbn [ResolutionTracker.wins ResolutionTracker.losses
         ResolutionTracker.breakeven];
    repeat split; try lia; ring.
Qed.

Lemma tracker_ops_cons k ks self c :
  tracker_ops (k :: ks) self c =
  let s := tracker_op_step k self c in
  let r := tracker_ops ks s.1.2 s.2 in
  (match s.1.1 with Some tr => tr :: r.1.1 | None => r.1.1 end, r.1.2, r.2).
Proof.
  cbn [tracker_ops]. unfold_M.
  destruct (tracker_op_step k self c) as [[r t1] c1]. cbn [fst snd].
  destruct (tracker_ops ks t1 c1) as [[rs t2] c2]. reflexivity.
Qed.

Lemma tracker_op_step_cases k self c :
  let s := tracker_op_step k self c in
  (s.1.1 = None /\
   ResolutionTracker.r_stats s.1.2 = ResolutionTracker.r_stats self) \/
  (exists tr,
     s.1.1 = Some tr /\
     ResolutionTracker.session (ResolutionTracker.r_stats s.1.2) =
       ResolutionTracker.count (ResolutionTracker.result tr)
         (ResolutionTracker.pnl tr)
         (ResolutionTracker.session (ResolutionTracker.r_stats self)) /\
     ResolutionTracker.allTime (ResolutionTracker.r_stats s.1.2) =
       ResolutionTracker.count (ResolutionTracker.result tr)
         (ResolutionTracker.pnl tr)
         (ResolutionTracker.allTime (ResolutionTracker.r_stats self)) /\
     ResolutionTracker.history (ResolutionTracker.r_stats s.1.2) =
       take 100 (tr :: ResolutionTracker.history
                         (ResolutionTracker.r_stats self))).
Proof.
  cbv zeta. destruct k as [w a p e t|w a winner]; cbn [tracker_op_step].
  - left. unfold ResolutionTracker.registerPosition, Worker.registerPosition.
    unfold_M. cbn. split; reflexivity.
  - destruct (ResolutionTracker.pendingResolutions self !! (w, a))
      as [reg|] eqn:El.
    + right. rewrite (resolvePosition_found w a winner self c reg El).
      cbn [fst snd]. eexists. split; [reflexivity|].
      cbn [ResolutionTracker.r_stats ResolutionTracker.session
           ResolutionTracker.allTime ResolutionTracker.history
           ResolutionTracker.result ResolutionTracker.pnl].
      split; [reflexivity|]. split; [reflexivity|]. apply cap_100.
    + left. rewrite (resolvePosition_missing w a winner self c El).
      split; reflexivity.
Qed.

Lemma tracker_ops_counted ks :
  forall self c,
    let out := tracker_ops ks self c in
    counted out.1.1
      (ResolutionTracker.session (ResolutionTracker.r_stats self))
      (ResolutionTracker.session (ResolutionTracker.r_stats out.1.2)) /\
    counted out.1.1
      (ResolutionTracker.allTime (ResolutionTracker.r_stats self))
      (ResolutionTracker.allTime (ResolutionTracker.r_stats out.1.2)) /\
    ResolutionTracker.history (ResolutionTracker.r_stats out.1.2) =
      take 100 (rev out.1.1 ++
                take 100 (ResolutionTracker.history
                            (ResolutionTracker.r_stats self))) \/
    out.1.1 = [] /\
    ResolutionTracker.r_stats out.1.2 = ResolutionTracker.r_stats self.
Proof.
  induction ks as [|k ks IH]; intros self c.
  - right. split; reflexivity.
  - cbv zeta. rewrite tracker_ops_cons. cbv zeta. cbn [fst snd].
    pose proof (tracker_op_step_cases k self c) as Hs. cbv zeta in Hs.
    set (s := tracker_op_step k self c) in *.
    specialize (IH s.1.2 s.2). cbv zeta in IH.
    set (r := tracker_ops ks s.1.2 s.2) in *.
    destruct Hs as [[Hn Hst]|(tr & Hsome & Hse & Hal & Hh)].
    + rewrite Hn. rewrite Hst in IH.
      destruct IH as [IH|[IH1 IH2]]; [left; exact IH|].
      right. split; [exact IH1|]. rewrite IH2. reflexivity.
    + rewrite Hsome. left.
      rewrite Hse, Hal, Hh in IH.
      destruct IH as [(I1 & I2 & I3)|[I1 I2]].
      * split; [apply counted_cons; exact I1|].
        split; [apply counted_cons; exact I2|].
        rewrite I3. cbn [rev]. rewrite take_take.
        replace (100 `min` 100)%nat with 100%nat by reflexivity.
        rewrite (take_app_take (rev r.1.1) _ 100 100) by lia.
        rewrite (take_app_take (rev r.1.1 ++ [tr]) _ 100 100) by lia.
        rewrite <- app_assoc. reflexivity.
      * rewrite I1. rewrite I2.
        split; [apply counted_cons; rewrite Hse; apply counted_nil|].
        split; [apply counted_cons; rewrite Hal; apply counted_nil|].
        rewrite Hh. cbn [rev app].
        symmetry. apply (take_app_take [tr] _ 100 100). lia.
Qed.

(** X20. The statistics count every resolution exactly once.  Over any
    run of registrations and resolutions, the session counters and the
    all-time counters each grow by the number of returned trades with the
    matching result, their [totalPnl] by the sum of the profits of those
    trades and their total by the number of trades, [tradesEntered] never
    changes, and a history of at most 100 entries becomes the returned
    trades, newest first, followed by the old entries, cut at 100. *)
Theorem statistics_count_every_resolution :
  forall (ks : list tracker_op) (self : ResolutionTracker.t) (c : Clock),
    let out := tracker_ops ks self c in
    let trades := out.1.1 in
    let st := ResolutionTracker.r_stats self in
    let st' := ResolutionTracker.r_stats out.1.2 in
    counted trades (ResolutionTracker.session st)
                   (ResolutionTracker.session st') /\
    counted trades (ResolutionTracker.allTime st)
                   (ResolutionTracker.allTime st') /\
    ((length (ResolutionTracker.history st) <= 100)%nat ->
     ResolutionTracker.history st' =
       take 100 (rev trades ++ ResolutionTracker.history st)).
Proof.
  intros ks self c out trades st st'.
  destruct (tracker_ops_counted ks self c) as [(H1 & H2 & H3)|[H1 H2]];
    fold out in H1, H2; try fold out in H3;
    fold trades in H1; try fold trades in H2; try fold trades in H3.
  - split; [exact H1|]. split; [exact H2|].
    intros Hlen. fold st' in H3. rewrite H3. fold st.
    rewrite (take_ge (ResolutionTracker.history st)) by exact Hlen.
    reflexivity.
  - fold st st' in H2. rewrite H1, H2.
    split; [apply counted_nil|]. split; [apply counted_nil|].
    intros Hlen. cbn [rev app]. symmetry. apply take_ge. exact Hlen.
Qed.

(** ** ShadowExchange *)


Section ShadowFacts.

Variable fetchClobPrice : Z -> string -> string -> option (option Q).

(** Only the price cache is changed by a price fetch, and the price it
    returns is never 0. *)
Lemma fetchRealPrice_effect tokenId side self c :
  let r := ShadowExchange.fetchRealPrice fetchClobPrice tokenId side self c in
  ShadowExchange.positions r.1.2 = ShadowExchange.positions self /\
  ShadowExchange.orders r.1.2 = ShadowExchange.orders self /\
  ShadowExchange.pendingFills r.1.2 = ShadowExchange.pendingFills self /\
  ShadowExchange.balance r.1.2 = ShadowExchange.balance self /\
  ShadowExchange.totalFees r.1.2 = ShadowExchange.totalFees self /\
  ShadowExchange.orderIdCounter r.1.2 = ShadowExchange.orderIdCounter self /\
  ~ r.1.1 == 0.
Proof.
  cbv zeta. unfold ShadowExchange.fetchRealPrice. unfold_M.
  destruct (ShadowExchange.priceCache self !! _) as [p|] eqn:Ec;
    cbn [default].
  - destruct (negb (JS.eq p 0)) eqn:Ep; cbn [andb].
    + destruct (_ <? 5000)%Z.
      * cbn. repeat split; auto.
        apply negb_true_iff in Ep. apply JS_eq_false in Ep. exact Ep.
      * destruct (fetchClobPrice _ _ _) as [[q|]|]; cbn;
          repeat split; auto; try discriminate.
        unfold JS.or. destruct (JS.eq q 0) eqn:Eq; [discriminate|].
        apply JS_eq_false in Eq. exact Eq.
    + destruct (fetchClobPrice _ _ _) as [[q|]|]; cbn;
        repeat split; auto; try discriminate.
      unfold JS.or. destruct (JS.eq q 0) eqn:Eq; [discriminate|].
      apply JS_eq_false in Eq. exact Eq.
  - cbn [andb].
    destruct (fetchClobPrice _ _ _) as [[q|]|]; cbn;
      repeat split; auto; try discriminate.
    unfold JS.or. destruct (JS.eq q 0) eqn:Eq; [discriminate|].
    apply JS_eq_false in Eq. exact Eq.
Qed.

(** The three outcomes of [placeOrder] for a buy order. *)
Lemma placeOrder_buy o self c :
  JS.toUpperCase (o_side o) = "BUY"%string ->
  let mp := (ShadowExchange.fetchRealPrice fetchClobPrice (tokenId o)
               (Some (o_side o)) self c).1.1 in
  let out := ShadowExchange.placeOrder fetchClobPrice o self c in
  let ex' := out.1.2 in
  (type o = GTC /\
   out.1.1 = Some OPEN /\
   ShadowExchange.orders ex' =
     ShadowExchange.orders self ++
     [ShadowExchange.mkShadowOrder o (ShadowExchange.orderIdCounter self) mp]
   /\
   ShadowExchange.positions ex' = ShadowExchange.positions self /\
   ShadowExchange.balance ex' = ShadowExchange.balance self /\
   ShadowExchange.totalFees ex' = ShadowExchange.totalFees self /\
   ShadowExchange.pendingFills ex' = ShadowExchange.pendingFills self) \/
  (type o <> GTC /\ price o < mp /\
   out.1.1 = Some KILLED /\
   ShadowExchange.orders ex' = ShadowExchange.orders self /\
   ShadowExchange.positions ex' = ShadowExchange.positions self /\
   ShadowExchange.balance ex' = ShadowExchange.balance self /\
   ShadowExchange.totalFees ex' = ShadowExchange.totalFees self /\
   ShadowExchange.pendingFills ex' = ShadowExchange.pendingFills self /\
   ShadowExchange.orderIdCounter ex' = ShadowExchange.orderIdCounter self) \/
  (type o <> GTC /\ mp <= price o /\
   out.1.1 = Some (FILLED mp None) /\
   ShadowExchange.orders ex' = ShadowExchange.orders self /\
   ShadowExchange.balance ex' =
     ShadowExchange.balance self - (mp * size o + mp * size o * 0.02) /\
   ShadowExchange.totalFees ex' =
     ShadowExchange.totalFees self + mp * size o * 0.02 /\
   size_of (tokenId o) ex' = size_of (tokenId o) self + size o /\
   cost_of (tokenId o) ex' =
     cost_of (tokenId o) self + (mp * size o + mp * size o * 0.02) /\
   (forall tok, tok <> tokenId o ->
      ShadowExchange.positions ex' !! tok =
      ShadowExchange.positions self !! tok) /\
   length (ShadowExchange.pendingFills ex') =
     S (length (ShadowExchange.pendingFills self))).
Proof.
  intros Hbuy. cbv zeta.
  unfold ShadowExchange.placeOrder. unfold_M.
  pose proof (fetchRealPrice_effect (tokenId o) (Some (o_side o)) self c)
    as Hf. cbv zeta in Hf.
  destruct (ShadowExchange.fetchRealPrice fetchClobPrice (tokenId o)
              (Some (o_side o)) self c) as [[mp ex1] c1].
  cbn [fst snd] in *.
  destruct Hf as (F1 & F2 & F3 & F4 & F5 & F6 & _).
  rewrite Hbuy. cbn [String.eqb Ascii.eqb Bool.eqb andb].
  destruct (type o) eqn:Et; cbn [bool_decide decide_rel orb].
  - (* FOK *)
    rewrite bool_decide_eq_true_2 by reflexivity. cbn [orb].
    destruct (JS.ge (price o) mp) eqn:Eg.
    + apply JS_ge_spec in Eg. right. right.
      unfold ShadowExchange.executeFill. unfold_M.
      rewrite Hbuy. cbn [String.eqb Ascii.eqb Bool.eqb andb fst snd default].
      unfold size_of, cost_of.
      cbn [ShadowExchange.positions ShadowExchange.orders
           ShadowExchange.balance ShadowExchange.totalFees
           ShadowExchange.pendingFills].
      rewrite lookup_insert_eq. cbn [default ShadowExchange.p_size
                                  ShadowExchange.p_cost].
      rewrite F1, F2, F3, F4, F5.
      unfold ShadowExchange.FEES.TAKER.
      repeat split; auto; try discriminate.
      * intros tok Hne. apply lookup_insert_ne. congruence.
      * rewrite length_app. cbn. lia.
    + apply JS_ge_false in Eg. right. left.
      repeat split; auto; discriminate.
  - (* GTC *)
    rewrite !bool_decide_eq_false_2 by discriminate. cbn [orb fst snd].
    left. cbn. rewrite F1, F2, F3, F4, F5, F6. repeat split; auto.
  - (* IOC *)
    rewrite (bool_decide_eq_false_2 (IOC = FOK)) by discriminate.
    rewrite bool_decide_eq_true_2 by reflexivity. cbn [orb].
    destruct (JS.ge (price o) mp) eqn:Eg.
    + apply JS_ge_spec in Eg. right. right.
      unfold ShadowExchange.executeFill. unfold_M.
      rewrite Hbuy. cbn [String.eqb Ascii.eqb Bool.eqb andb fst snd default].
      unfold size_of, cost_of.
      cbn [ShadowExchange.positions ShadowExchange.orders
           ShadowExchange.balance ShadowExchange.totalFees
           ShadowExchange.pendingFills].
      rewrite lookup_insert_eq. cbn [default ShadowExchange.p_size
                                  ShadowExchange.p_cost].
      rewrite F1, F2, F3, F4, F5.
      unfold ShadowExchange.FEES.TAKER.
      repeat split; auto; try discriminate.
      * intros tok Hne. apply lookup_insert_ne. congruence.
      * rewrite length_app. cbn. lia.
    + apply JS_ge_false in Eg. right. left.
      repeat split; auto; discriminate.
Qed.

(** X21. What [placeOrder] of the shadow exchange does with a buy order.
    A GTC order is answered OPEN and appended to the resting orders,
    leaving balance and positions alone.  A FOK or IOC order never rests:
    it is KILLED, changing neither balance nor positions, or FILLED at
    the market price, which is never 0 and never above the limit; the
    balance then drops by 1.02 times price times size, the fees grow by
    0.02 times price times size, the position of the token grows by the
    size, balance plus recorded cost of the token is unchanged, and other
    tokens are untouched. *)
Theorem shadow_exchange_buy_accounting :
  forall (o : order) (self : ShadowExchange.t) (c : Clock),
    JS.toUpperCase (o_side o) = "BUY"%string ->
    let out := ShadowExchange.placeOrder fetchClobPrice o self c in
    let ex' := out.1.2 in
    let tok := tokenId o in
    (type o = GTC ->
     out.1.1 = Some OPEN /\
     map ShadowExchange.so_order (ShadowExchange.orders ex') =
       map ShadowExchange.so_order (ShadowExchange.orders self) ++ [o] /\
     ShadowExchange.positions ex' = ShadowExchange.positions self /\
     ShadowExchange.balance ex' = ShadowExchange.balance self) /\
    (type o <> GTC ->
     ShadowExchange.orders ex' = ShadowExchange.orders self /\
     ((out.1.1 = Some KILLED /\
       ShadowExchange.positions ex' = ShadowExchange.positions self /\
       ShadowExchange.balance ex' = ShadowExchange.balance self) \/
      exists p,
        out.1.1 = Some (FILLED p None) /\
        ~ p == 0 /\ p <= price o /\
        ShadowExchange.balance self - ShadowExchange.balance ex' ==
          1.02 * (p * size o) /\
        ShadowExchange.totalFees ex' - ShadowExchange.totalFees self ==
          0.02 * (p * size o) /\
        size_of tok ex' == size_of tok self + size o /\
        ShadowExchange.balance ex' + cost_of tok ex' ==
          ShadowExchange.balance self + cost_of tok self /\
        (forall tok', tok' <> tok ->
           ShadowExchange.positions ex' !! tok' =
           ShadowExchange.positions self !! tok'))).
Proof.
  intros o self c Hbuy out ex' tok.
  pose proof (placeOrder_buy o self c Hbuy) as Hc. cbv zeta in Hc.
  pose proof (fetchRealPrice_effect (tokenId o) (Some (o_side o)) self c)
    as Hf. cbv zeta in Hf. destruct Hf as (_ & _ & _ & _ & _ & _ & Hnz).
  fold out in Hc. fold ex' in Hc. fold tok in Hc.
  set (mp := (ShadowExchange.fetchRealPrice fetchClobPrice (tokenId o)
                (Some (o_side o)) self c).1.1) in *.
  destruct Hc as [(Ht & Hr & Ho & Hp & Hb & _)
                 |[(Ht & Hlt & Hr & Ho & Hp & Hb & _)
                  |(Ht & Hle & Hr & Ho & Hb & Hfee & Hs & Hco & Hoth & _)]].
  - split; [|congruence]. intros _.
    split; [exact Hr|]. rewrite Ho, map_app. cbn [map ShadowExchange.so_order].
    auto.
  - split; [congruence|]. intros _. split; [exact Ho|]. left. auto.
  - split; [congruence|]. intros _. split; [exact Ho|]. right.
    exists mp. rewrite Hb, Hfee, Hs, Hco.
    repeat split; auto; try (subst mp tok; ring).
Qed.

Lemma shadow_fills_are_honest :
  @honest_fills ShadowExchange.t (shadowInterface fetchClobPrice).
Proof.
  intros o ex c fillPrice sz Hside Hfill.
  assert (Hbuy : JS.toUpperCase (o_side o) = "BUY"%string)
    by (rewrite Hside; reflexivity).
  pose proof (placeOrder_buy o ex c Hbuy) as Hc. cbv zeta in Hc.
  cbn [placeOrder shadowInterface] in Hfill.
  destruct Hc as [(_ & Hr & _)|[(_ & _ & Hr & _)|(_ & Hle & Hr & _)]];
    rewrite Hr in Hfill; try discriminate.
  injection Hfill as <- <-. split; [exact Hle|discriminate].
Qed.

End ShadowFacts.

Lemma shadow_exchange_buy_accounting_witness :
  let fetch := fun (_ : Z) (_ _ : string) => Some (Some 0.55) in
  let o := mkOrder "up" "BUY" 0.60 10 FOK in
  let out := ShadowExchange.placeOrder fetch o ShadowExchange.new ticking in
  exists p,
    out.1.1 = Some (FILLED p None) /\
    ShadowExchange.balance ShadowExchange.new -
      ShadowExchange.balance out.1.2 == 1.02 * (p * 10).
Proof.
  intros fetch o out.
  destruct (shadow_exchange_buy_accounting fetch o ShadowExchange.new ticking)
    as [_ H]; [reflexivity|].
  destruct H as [_ [[Hk _]|(p & Hp & _ & _ & Hb & _)]]; [discriminate| |].
  - exfalso. revert Hk. vm_compute. discriminate.
  - exists p. split; [exact Hp|exact Hb].
Defined.

Section WorkerOnShadow.

Variable fetchClobPrice : Z -> string -> string -> option (option Q).
Variable toFixed : Q -> nat -> string.
Variable str : Q -> string.

Let X : ExchangeInterface ShadowExchange.t := shadowInterface fetchClobPrice.

(** What a buy order of the worker does to the balance, with the fill it
    reports. *)
Lemma worker_order_on_shadow (o : order) ex c :
  o_side o = "BUY"%string ->
  let out := @placeOrder _ X o ex c in
  (type o = GTC ->
   ShadowExchange.balance out.1.2 = ShadowExchange.balance ex /\
   forall p sz, out.1.1 <> Some (FILLED p sz)) /\
  (forall p sz, out.1.1 = Some (FILLED p sz) ->
     sz = None /\ ~ p == 0 /\
     ShadowExchange.balance ex - ShadowExchange.balance out.1.2 ==
       1.02 * (p * size o)) /\
  ((forall p sz, out.1.1 <> Some (FILLED p sz)) ->
   ShadowExchange.balance out.1.2 = ShadowExchange.balance ex).
Proof.
  intros Hside. cbv zeta.
  assert (Hbuy : JS.toUpperCase (o_side o) = "BUY"%string)
    by (rewrite Hside; reflexivity).
  pose proof (placeOrder_buy fetchClobPrice o ex c Hbuy) as Hc.
  cbv zeta in Hc.
  pose proof (fetchRealPrice_effect fetchClobPrice (tokenId o)
                (Some (o_side o)) ex c) as Hf.
  cbv zeta in Hf. destruct Hf as (_ & _ & _ & _ & _ & _ & Hnz).
  change (@placeOrder _ X o ex c)
    with (ShadowExchange.placeOrder fetchClobPrice o ex c).
  destruct Hc as [(Ht & Hr & _ & _ & Hb & _)
                 |[(Ht & _ & Hr & _ & _ & Hb & _)
                  |(Ht & _ & Hr & _ & Hb & _)]]; rewrite Hr.
  - split; [intros _; split; [exact Hb|discriminate]|].
    split; [discriminate|]. intros _. exact Hb.
  - split; [congruence|]. split; [discriminate|]. intros _. exact Hb.
  - split; [congruence|]. split.
    + intros p sz E. injection E as <- <-.
      split; [reflexivity|]. split; [exact Hnz|]. rewrite Hb. ring.
    + intros Hx. exfalso. eapply Hx. reflexivity.
Qed.

Lemma handleEntry_fee st assetOrder pY pN caps ex c :
  let r := @Worker.handleEntry _ X st assetOrder pY pN caps ex c in
  ShadowExchange.balance ex - ShadowExchange.balance r.1.2 ==
  1.02 * (recorded_cost (Worker.position r.1.1) -
          recorded_cost (Worker.position st)).
Proof.
  cbv zeta. unfold Worker.handleEntry. unfold_M.
  destruct (Worker.entryDone st); [cbn; ring|].
  set (isYes := bool_decide (_ = Some YES)).
  destruct (if isYes then Worker.up assetOrder else Worker.down assetOrder)
    as [tokenId|]; [|cbn; ring].
  destruct (Worker.canPlaceOrder st _ _ caps); [|cbn; ring].
  destruct (Worker.canAddPairPosition st _ _ _ FOK); [|cbn; ring].
  cbn [negb].
  match goal with
  | |- context [@placeOrder _ _ ?o ex c] =>
      pose proof (worker_order_on_shadow o ex c eq_refl) as Hw;
      cbv zeta in Hw;
      destruct (@placeOrder _ X o ex c) as [[res ex'] c']
  end.
  cbn [fst snd size] in *.
  destruct Hw as (_ & Hfill & Hno).
  destruct res as [[fillPrice sz| |]|].
  - destruct (Hfill fillPrice sz eq_refl) as (_ & _ & Hb).
    cbn [Worker.position Worker.set_state Worker.set_entryDone
         Worker.set_position].
    rewrite Hb. unfold recorded_cost.
    destruct (if isYes then YES else NO); cbn; ring.
  - rewrite Hno by discriminate. cbn. ring.
  - rewrite Hno by discriminate. cbn. ring.
  - rewrite Hno by discriminate. cbn. ring.
Qed.

Lemma handleRecovery_fee st assetOrder pY pN caps ex c :
  let r := @Worker.handleRecovery _ X st assetOrder pY pN caps ex c in
  ShadowExchange.balance ex - ShadowExchange.balance r.1.2 ==
  1.02 * (recorded_cost (Worker.position r.1.1) -
          recorded_cost (Worker.position st)).
Proof.
  cbv zeta. unfold Worker.handleRecovery. unfold_M.
  set (a := LockDetector.analyzePosition (Worker.position st)).
  set (isYes := bool_decide (LockDetector.recoverySide a = YES)).
  set (prc := if isYes then pY else pN).
  destruct (LockDetector.calculateRecoveryShares _ prc (Some 2))
    as [n|]; [|cbn; ring].
  destruct (JS.gt _ (Worker.maxShares caps)); [cbn; ring|].
  destruct (JS.gt _ (Worker.maxNotional caps)); [cbn; ring|].
  destruct (if isYes then Worker.up assetOrder else Worker.down assetOrder)
    as [tokenId|]; [|cbn; ring].
  destruct (JS.gt (inject_Z n) 0 && JS.lt (inject_Z n) 50); [|cbn; ring].
  set (qty := JS.Math_min (inject_Z n) 10).
  destruct (Worker.canPlaceOrder st _ qty caps); [|cbn; ring].
  destruct (Worker.canAddPairPosition st _ _ qty IOC); [|cbn; ring].
  cbn [negb].
  match goal with
  | |- context [@placeOrder _ _ ?o ex c] =>
      pose proof (worker_order_on_shadow o ex c eq_refl) as Hw;
      cbv zeta in Hw;
      destruct (@placeOrder _ X o ex c) as [[res ex'] c']
  end.
  cbn [fst snd size] in *.
  destruct Hw as (_ & Hfill & Hno).
  destruct res as [[fillPrice sz| |]|].
  - destruct (Hfill fillPrice sz eq_refl) as (-> & Hnz & Hb).
    cbn [Worker.position Worker.set_state Worker.set_position JS.or_opt].
    rewrite Hb. unfold recorded_cost, JS.or.
    apply JS_eq_false in Hnz. rewrite Hnz.
    destruct (LockDetector.recoverySide a); cbn; ring.
  - rewrite Hno by discriminate. cbn. ring.
  - rewrite Hno by discriminate. cbn. ring.
  - rewrite Hno by discriminate. cbn. ring.
Qed.

Lemma placeLadder_balance levels :
  forall st ladderSide tokenId tokenIds caps ex c,
    ShadowExchange.balance
      (@Worker.placeLadder _ X levels st ladderSide tokenId tokenIds caps
                           ex c).1 =
    ShadowExchange.balance ex.
Proof.
  induction levels as [|lvl levels IH];
    intros st ladderSide tokenId tokenIds caps ex c.
  - reflexivity.
  - cbn [Worker.placeLadder].
    destruct (JS.ge _ (Worker.maxOpenOrders caps)); [reflexivity|].
    destruct (Worker.canPlaceOrder st lvl _ caps); cbn [negb];
      [|apply IH].
    destruct (Worker.canAddPairPosition st ladderSide lvl _ GTC);
      cbn [negb]; [|apply IH].
    unfold_M.
    match goal with
    | |- context [@placeOrder _ _ ?o ex c] =>
        pose proof (worker_order_on_shadow o ex c eq_refl) as Hw;
        cbv zeta in Hw;
        destruct (@placeOrder _ X o ex c) as [[res ex'] c']
    end.
    cbn [fst snd] in *.
    destruct Hw as (Hg & _). destruct (Hg eq_refl) as [Hb _].
    rewrite IH. exact Hb.
Qed.

(** X22. The cost the worker records misses exactly the taker fee of the
    exchange.  For every step of the state machine outside ENDGAME, run on
    the shadow exchange, the balance of the exchange drops by 1.02 times
    the growth of the cost recorded in the worker's position. *)
Theorem recorded_cost_misses_the_taker_fee :
  forall (st : Worker.AssetState) (assetOrder : Worker.tokens)
         (window : Worker.window) (orders : option Worker.risk_caps)
         (info : LeaderTracker.info) (priceYes priceNo : Q)
         (g : Guardrails.config) (ex : ShadowExchange.t) (c : Clock),
    Worker.state st <> Worker.ENDGAME ->
    let r := @Worker.dispatch _ X toFixed str st assetOrder window orders
                              info priceYes priceNo g ex c in
    ShadowExchange.balance ex - ShadowExchange.balance r.1.2 ==
    1.02 * (recorded_cost (Worker.position r.1.1) -
            recorded_cost (Worker.position st)).
Proof.
  intros st assetOrder window orders info pY pN g ex c Hne.
  cbv zeta.
  pose proof (@dispatch_cases _ X toFixed str st assetOrder window orders
                info pY pN g ex c) as Ht.
  cbv zeta in Ht.
  destruct (Worker.state st) eqn:Est.
  - destruct Ht as [-> ->]. ring.
  - destruct Ht as (_ & -> & ->). ring.
  - unfold Worker.dispatch. rewrite Est. apply handleEntry_fee.
  - destruct Ht as (_ & _ & -> & _).
    unfold Worker.dispatch. rewrite Est.
    unfold Worker.handleLaddering. unfold_M.
    destruct (Worker.ladderDone st); [cbn; ring|].
    destruct (if bool_decide _ then Worker.up assetOrder
              else Worker.down assetOrder) as [tokenId|]; [|cbn; ring].
    match goal with
    | |- context [@Worker.placeLadder _ _ ?l ?s ?sd ?t ?ts ?cp ex c] =>
        pose proof (placeLadder_balance l s sd t ts cp ex c) as Hb;
        destruct (@Worker.placeLadder _ X l s sd t ts cp ex c) as [ex' c']
    end.
    cbn [fst snd] in *. rewrite Hb. ring.
  - destruct Ht as (_ & _ & -> & ->). ring.
  - destruct Ht as (H1 & H2 & ->).
    destruct (Qlt_le_dec 10 (Worker.remaining_sec window)) as [Hr|Hr].
    + rewrite (H2 Hr). ring.
    + rewrite (H1 Hr). cbn. ring.
  - unfold Worker.dispatch. rewrite Est. apply handleRecovery_fee.
  - congruence.
Qed.

End WorkerOnShadow.

Lemma recorded_cost_misses_the_taker_fee_witness :
  let fetch := fun (_ : Z) (_ _ : string) => Some (Some 0.55) in
  let st := Worker.set_state Worker.ENTRY
              (Worker.set_leaderTracker
                 (LeaderTracker.set_currentLeader (Some YES)
                    (LeaderTracker.new None))
                 Worker.initialAssetState) in
  let r := @Worker.dispatch _ (shadowInterface fetch)
             (fun _ _ => ""%string) (fun _ => ""%string) st
             (Worker.mkTokens (Some "up"%string) (Some "down"%string))
             (Worker.mkWindow 1700000 None 100 800) None
             (LeaderTracker.mkInfo (Some YES) false 0 0 0.6 0.4 0.2)
             0.6 0.4 Guardrails.CONFIG ShadowExchange.new ticking in
  ShadowExchange.balance ShadowExchange.new - ShadowExchange.balance r.1.2 ==
  1.02 * (recorded_cost (Worker.position r.1.1) -
          recorded_cost (Worker.position st)).
Proof.
  intros fetch st r.
  apply (recorded_cost_misses_the_taker_fee fetch
           (fun _ _ => ""%string) (fun _ => ""%string)).
  discriminate.
Defined.

Section ShadowCache.

Variable fetchClobPrice : Z -> string -> string -> option (option Q).

Lemma fetchRealPrice_hit tokenId side self c p :
  ShadowExchange.priceCache self !! cache_key tokenId side = Some p ->
  ~ p == 0 ->
  (c 0%nat - ShadowExchange.lastPriceFetch self < 5000)%Z ->
  ShadowExchange.fetchRealPrice fetchClobPrice tokenId (Some side) self c =
    (p, self, fun n => c (S n)).
Proof.
  intros Hc Hp Ht. unfold ShadowExchange.fetchRealPrice. unfold_M.
  change (default "BUY"%string (Some side)) with side.
  cbv zeta. unfold cache_key in Hc. rewrite Hc. cbn [default].
  apply JS_eq_false in Hp. rewrite Hp. cbn [negb andb].
  apply Z.ltb_lt in Ht. rewrite Ht. reflexivity.
Qed.

Lemma fetchRealPrice_miss tokenId side self c :
  ShadowExchange.priceCache self !! cache_key tokenId side = None \/
  (5000 <= c 0%nat - ShadowExchange.lastPriceFetch self)%Z ->
  forall result, fetchClobPrice (c 0%nat) tokenId side = Some result ->
  let price := JS.or_opt result 0.50 in
  ShadowExchange.fetchRealPrice fetchClobPrice tokenId (Some side) self c =
    (price,
     ShadowExchange.mk (ShadowExchange.positions self)
       (ShadowExchange.orders self) (ShadowExchange.pendingFills self)
       (ShadowExchange.balance self) (ShadowExchange.totalFees self)
       (ShadowExchange.orderIdCounter self)
       (<[cache_key tokenId side := price]> (ShadowExchange.priceCache self))
       (c 0%nat),
     fun n => c (S n)).
Proof.
  intros Hmiss result Hf. cbv zeta.
  unfold ShadowExchange.fetchRealPrice. unfold_M.
  change (default "BUY"%string (Some side)) with side.
  cbv zeta. unfold cache_key in *.
  destruct Hmiss as [Hn|Hold].
  - rewrite Hn. cbn [andb]. rewrite Hf. reflexivity.
  - apply Z.ltb_ge in Hold. rewrite Hold, andb_false_r, Hf. reflexivity.
Qed.

Lemma or_opt_half_nonzero (v : option Q) : ~ JS.or_opt v 0.50 == 0.
Proof.
  destruct v as [q|]; cbn; [|discriminate].
  unfold JS.or. destruct (JS.eq q 0) eqn:E; [discriminate|].
  apply JS_eq_false in E. exact E.
Qed.

(** X23. The price cache has one time stamp for all keys, so a cached
    price can outlive its 5 seconds: after a price was fetched for one
    key, and then a price for another key at any later time, a request for
    the first key within 5 seconds of the second fetch returns the first
    price again, without asking the market and without changing the
    exchange, however long ago it was fetched. *)
Theorem cached_price_outlives_its_five_seconds :
  forall (tok1 side1 tok2 side2 : string) (self : ShadowExchange.t)
         (c : Clock) (reply1 reply2 : option Q),
    cache_key tok1 side1 <> cache_key tok2 side2 ->
    ShadowExchange.priceCache self !! cache_key tok1 side1 = None ->
    ShadowExchange.priceCache self !! cache_key tok2 side2 = None ->
    fetchClobPrice (c 0%nat) tok1 side1 = Some reply1 ->
    fetchClobPrice (c 1%nat) tok2 side2 = Some reply2 ->
    (c 2%nat - c 1%nat < 5000)%Z ->
    let r1 := ShadowExchange.fetchRealPrice fetchClobPrice tok1 (Some side1)
                                            self c in
    let r2 := ShadowExchange.fetchRealPrice fetchClobPrice tok2 (Some side2)
                                            r1.1.2 r1.2 in
    let r3 := ShadowExchange.fetchRealPrice fetchClobPrice tok1 (Some side1)
                                            r2.1.2 r2.2 in
    r1.1.1 = JS.or_opt reply1 0.50 /\
    r2.1.1 = JS.or_opt reply2 0.50 /\
    r3.1.1 = r1.1.1 /\
    r3.1.2 = r2.1.2.
Proof.
  intros tok1 side1 tok2 side2 self c reply1 reply2 Hk H1 H2 F1 F2 Ht.
  cbv zeta.
  rewrite (fetchRealPrice_miss tok1 side1 self c (or_introl H1) reply1 F1).
  cbn [fst snd].
  rewrite (fetchRealPrice_miss tok2 side2 _ (fun n => c (S n)))
    with (result := reply2).
  - cbn [fst snd].
    rewrite (fetchRealPrice_hit tok1 side1 _ _ (JS.or_opt reply1 0.50)).
    + repeat split.
    + cbn [ShadowExchange.priceCache].
      rewrite lookup_insert_ne by congruence. apply lookup_insert_eq.
    + apply or_opt_half_nonzero.
    + cbn [ShadowExchange.lastPriceFetch]. exact Ht.
  - left. cbn [ShadowExchange.priceCache].
    rewrite lookup_insert_ne by exact Hk. exact H2.
  - exact F2.
Qed.

End ShadowCache.

Lemma cached_price_outlives_its_five_seconds_witness :
  let fetch := fun (now : Z) (_ _ : string) =>
                 if (now <? 1700000001000)%Z then Some (Some 0.40)
                 else Some (Some 0.90) in
  let c : Clock := fun n => match n with
                            | O => 1700000000000%Z
                            | _ => (1700003600000 + Z.of_nat n)%Z
                            end in
  let r1 := ShadowExchange.fetchRealPrice fetch "up" (Some "BUY"%string)
                                          ShadowExchange.new c in
  let r2 := ShadowExchange.fetchRealPrice fetch "down" (Some "BUY"%string)
                                          r1.1.2 r1.2 in
  let r3 := ShadowExchange.fetchRealPrice fetch "up" (Some "BUY"%string)
                                          r2.1.2 r2.2 in
  r3.1.1 = r1.1.1.
Proof.
  intros fetch c r1 r2 r3.
  apply (cached_price_outlives_its_five_seconds fetch "up" "BUY" "down" "BUY"
           ShadowExchange.new c (Some 0.40) (Some 0.90));
    try reflexivity; try discriminate.
Defined.

(** ** Resting orders and their ids *)

Lemma remove_first_fresh orderId l :
  Forall (fun o => ShadowExchange.so_id o <> orderId) l ->
  ShadowExchange.remove_first orderId l = None.
Proof.
  induction 1 as [|o l Ho _ IH]; [reflexivity|].
  cbn [ShadowExchange.remove_first].
  apply Z.eqb_neq in Ho. rewrite Ho, IH. reflexivity.
Qed.

Lemma remove_first_snoc orderId l o :
  Forall (fun o => ShadowExchange.so_id o <> orderId) l ->
  ShadowExchange.so_id o = orderId ->
  ShadowExchange.remove_first orderId (l ++ [o]) = Some l.
Proof.
  intros Hl Ho. induction Hl as [|x l Hx _ IH]; cbn [app].
  - cbn. rewrite Ho, Z.eqb_refl. reflexivity.
  - cbn [ShadowExchange.remove_first].
    apply Z.eqb_neq in Hx. rewrite Hx, IH. reflexivity.
Qed.

Lemma remove_first_sub orderId l l' :
  ShadowExchange.remove_first orderId l = Some l' ->
  exists a b o,
    l = a ++ o :: b /\ l' = a ++ b /\ ShadowExchange.so_id o = orderId /\
    Forall (fun o => ShadowExchange.so_id o <> orderId) a.
Proof.
  revert l'. induction l as [|x l IH]; intros l' H; [discriminate|].
  cbn [ShadowExchange.remove_first] in H.
  destruct (ShadowExchange.so_id x =? orderId)%Z eqn:E.
  - injection H as <-. apply Z.eqb_eq in E.
    exists [], l, x. repeat split; auto.
  - destruct (ShadowExchange.remove_first orderId l) as [l1|];
      [|discriminate].
    injection H as <-. apply Z.eqb_neq in E.
    destruct (IH l1 eq_refl) as (a & b & o & -> & -> & Ho & Ha).
    exists (x :: a), b, o. repeat split; auto.
Qed.

Section ShadowOrders.

Variable fetchClobPrice : Z -> string -> string -> option (option Q).

(** What [placeOrder] does to the resting orders and to the counter,
    whatever the side of the order. *)
Lemma placeOrder_orders o ex c :
  let out := ShadowExchange.placeOrder fetchClobPrice o ex c in
  (type o <> GTC /\
   ShadowExchange.orders out.1.2 = ShadowExchange.orders ex /\
   (ShadowExchange.orderIdCounter ex <=
    ShadowExchange.orderIdCounter out.1.2)%Z) \/
  (type o = GTC /\ out.1.1 = Some OPEN /\
   exists mp,
     ShadowExchange.orders out.1.2 =
       ShadowExchange.orders ex ++
       [ShadowExchange.mkShadowOrder o (ShadowExchange.orderIdCounter ex) mp]
     /\
     ShadowExchange.orderIdCounter out.1.2 =
       (ShadowExchange.orderIdCounter ex + 1)%Z).
Proof.
  cbv zeta. unfold ShadowExchange.placeOrder. unfold_M.
  pose proof (fetchRealPrice_effect fetchClobPrice (tokenId o)
                (Some (o_side o)) ex c) as Hf. cbv zeta in Hf.
  destruct (ShadowExchange.fetchRealPrice fetchClobPrice (tokenId o)
              (Some (o_side o)) ex c) as [[mp ex1] c1].
  cbn [fst snd] in *.
  destruct Hf as (_ & F2 & _ & _ & _ & F6 & _).
  destruct (type o) eqn:Et.
  - left. split; [discriminate|].
    rewrite bool_decide_eq_true_2 by reflexivity. cbn [orb].
    destruct (if String.eqb _ "BUY" then _ else _).
    + unfold ShadowExchange.executeFill. unfold_M.
      destruct (String.eqb _ "BUY"); cbn; rewrite F2, F6; split; auto; lia.
    + cbn. rewrite F2, F6. split; auto; lia.
  - right. split; [reflexivity|].
    rewrite !bool_decide_eq_false_2 by discriminate. cbn.
    split; [reflexivity|]. exists mp. rewrite F2, F6. split; reflexivity.
  - left. split; [discriminate|].
    rewrite (bool_decide_eq_false_2 (IOC = FOK)) by discriminate.
    rewrite bool_decide_eq_true_2 by reflexivity. cbn [orb].
    destruct (if String.eqb _ "BUY" then _ else _).
    + unfold ShadowExchange.executeFill. unfold_M.
      destruct (String.eqb _ "BUY"); cbn; rewrite F2, F6; split; auto; lia.
    + cbn. rewrite F2, F6. split; auto; lia.
Qed.

Lemma ids_below_not_equal (l : list ShadowExchange.shadowOrder) (n : Z) :
  Forall (fun o => (ShadowExchange.so_id o < n)%Z) l ->
  Forall (fun o => ShadowExchange.so_id o <> n) l.
Proof.
  intros H. eapply Forall_impl; [exact H|]. intros o Ho. cbn in Ho. lia.
Qed.

(** X24. The resting orders of the shadow exchange keep distinct ids
    below the id counter: [placeOrder] and [cancelOrder] preserve this.
    Cancelling the id a GTC order was just given answers true and brings
    the resting orders back to what they were; [cancelOrder] answers true
    exactly for an id that rests, removes one order then, leaves no order
    with that id, and changes nothing when it answers false. *)
Theorem resting_orders_have_distinct_ids :
  forall (ex : ShadowExchange.t) (c : Clock),
    ids_fresh ex ->
    (forall o,
       ids_fresh (ShadowExchange.placeOrder fetchClobPrice o ex c).1.2) /\
    (forall o,
       type o = GTC ->
       let placed := ShadowExchange.placeOrder fetchClobPrice o ex c in
       let cancelled :=
         ShadowExchange.cancelOrder (ShadowExchange.orderIdCounter ex)
                                    placed.1.2 in
       cancelled.1 = true /\
       ShadowExchange.orders cancelled.2 = ShadowExchange.orders ex) /\
    (forall orderId,
       let cancelled := ShadowExchange.cancelOrder orderId ex in
       ids_fresh cancelled.2 /\
       (cancelled.1 = true <->
        In orderId (map ShadowExchange.so_id (ShadowExchange.orders ex))) /\
       ~ In orderId
           (map ShadowExchange.so_id (ShadowExchange.orders cancelled.2)) /\
       (cancelled.1 = false -> cancelled.2 = ex) /\
       (cancelled.1 = true ->
        S (length (ShadowExchange.orders cancelled.2)) =
        length (ShadowExchange.orders ex))).
Proof.
  intros ex c [Hlt Hnd]. split; [|split].
  - intros o.
    pose proof (placeOrder_orders o ex c) as Hp. cbv zeta in Hp.
    destruct Hp as [(_ & Ho & Hc)|(_ & _ & mp & Ho & Hc)];
      unfold ids_fresh; rewrite Ho.
    + split; [|exact Hnd].
      eapply Forall_impl; [exact Hlt|]. intros x Hx. cbn in Hx. lia.
    + rewrite Hc. split.
      * apply Forall_app. split.
        -- eapply Forall_impl; [exact Hlt|]. intros x Hx. cbn in Hx. lia.
        -- repeat constructor. cbn. lia.
      * rewrite map_app. cbn [map ShadowExchange.so_id].
        apply NoDup_app. split; [exact Hnd|]. split.
        -- intros x Hx Hin. apply list_elem_of_In in Hx, Hin.
           cbn in Hin. destruct Hin as [<-|[]].
           apply in_map_iff in Hx as (y & Hy & Hyin).
           rewrite List.Forall_forall in Hlt. specialize (Hlt y Hyin). lia.
        -- repeat constructor. intros Hx. apply list_elem_of_In in Hx.
           destruct Hx.
  - intros o Ht. cbv zeta.
    pose proof (placeOrder_orders o ex c) as Hp. cbv zeta in Hp.
    destruct Hp as [(Hne & _)|(_ & _ & mp & Ho & Hc)]; [congruence|].
    unfold ShadowExchange.cancelOrder. rewrite Ho.
    rewrite remove_first_snoc;
      [split; reflexivity|apply ids_below_not_equal; exact Hlt|reflexivity].
  - intros orderId. cbv zeta. unfold ShadowExchange.cancelOrder.
    destruct (ShadowExchange.remove_first orderId (ShadowExchange.orders ex))
      as [l'|] eqn:Er.
    + apply remove_first_sub in Er as (a & b & o & Ha & -> & Hid & Hfa).
      cbn [fst snd ShadowExchange.orders ShadowExchange.orderIdCounter].
      rewrite Ha in Hlt, Hnd. rewrite Ha.
      rewrite map_app in Hnd. cbn [map] in Hnd.
      apply NoDup_app in Hnd as (Hna & Hdisj & Hnb).
      apply NoDup_cons in Hnb as [Hob Hnb].
      apply Forall_app in Hlt as [Hla Hlb].
      apply Forall_cons in Hlb as [_ Hlb].
      split; [|split; [|split; [|split]]].
      * unfold ids_fresh.
        cbn [ShadowExchange.orders ShadowExchange.orderIdCounter]. split.
        -- apply Forall_app. split; assumption.
        -- rewrite map_app. apply NoDup_app. split; [exact Hna|].
           split; [|exact Hnb].
           intros x Hx Hin. apply (Hdisj x Hx). right. exact Hin.
      * split; [intros _|reflexivity].
        rewrite map_app. apply in_or_app. right. left. exact Hid.
      * rewrite map_app. intros Hin. apply in_app_or in Hin as [Hin|Hin].
        -- apply in_map_iff in Hin as (y & Hy & Hyin).
           rewrite List.Forall_forall in Hfa. apply (Hfa y Hyin Hy).
        -- apply Hob. rewrite Hid. apply list_elem_of_In. exact Hin.
      * discriminate.
      * intros _. rewrite !length_app. cbn [length]. lia.
    + cbn [fst snd].
      assert (Hnot : ~ In orderId (map ShadowExchange.so_id
                                       (ShadowExchange.orders ex))).
      { intros Hin. apply in_map_iff in Hin as (y & Hy & Hyin).
        clear Hlt Hnd. revert Er.
        induction (ShadowExchange.orders ex) as [|x l IH];
          [destruct Hyin|].
        cbn [ShadowExchange.remove_first].
        destruct (ShadowExchange.so_id x =? orderId)%Z eqn:E;
          [discriminate|].
        destruct Hyin as [->|Hyin].
        - apply Z.eqb_neq in E. congruence.
        - destruct (ShadowExchange.remove_first orderId l);
            [discriminate|]. intros _. apply IH; auto. }
      split; [split; assumption|].
      split; [split; [discriminate|intros Hin; exfalso; exact (Hnot Hin)]|].
      split; [exact Hnot|]. split; [reflexivity|discriminate].
Qed.

End ShadowOrders.

Lemma resting_orders_have_distinct_ids_witness :
  let fetch := fun (_ : Z) (_ _ : string) => Some (Some 0.55) in
  let o := mkOrder "down" "BUY" 0.38 5 GTC in
  ids_fresh (ShadowExchange.placeOrder fetch o ShadowExchange.new
                                       ticking).1.2.
Proof.
  intros fetch o.
  apply (resting_orders_have_distinct_ids fetch ShadowExchange.new ticking).
  split; constructor.
Defined.

(** ** The pair-cost guard of the worker *)

(** Decide the comparisons of two given sides. *)
Ltac side_tests :=
  rewrite ?(bool_decide_eq_true_2 (YES = YES)) by reflexivity;
  rewrite ?(bool_decide_eq_true_2 (NO = NO)) by reflexivity;
  rewrite ?(bool_decide_eq_false_2 (YES = NO)) by discriminate;
  rewrite ?(bool_decide_eq_false_2 (NO = YES)) by discriminate.

Lemma Math_min_unique a b a' b' :
  a == a' -> b == b' -> JS.Math_min a b == JS.Math_min a' b'.
Proof.
  intros Ha Hb.
  destruct (Math_min_spec a b) as ([E|E] & L1 & L2);
    destruct (Math_min_spec a' b') as ([E'|E'] & L1' & L2');
    rewrite E, E' in *; qlra.
Qed.

(** The total cost and the paired shares [canAddPairPosition] computes for
    the position after the order. *)
Lemma canAddPairPosition_spec st side price size ot :
  let p := Worker.position st in
  let feeRate := match ot with GTC => 0 | _ => 0.02 end in
  let next := Worker.buy side size (price * size * (1 + feeRate)) p in
  let paired := JS.Math_min (yesShares next) (noShares next) in
  Worker.canAddPairPosition st side price size ot = true <->
  paired <= 0 \/ (yesCost next + noCost next) / paired <= 1.02.
Proof.
  cbv zeta. unfold Worker.canAddPairPosition.
  set (fee := if bool_decide (ot = FOK) || bool_decide (ot = IOC)
              then 0.02 else 0.0).
  assert (Hfee : fee == match ot with GTC => 0 | _ => 0.02 end)
    by (subst fee; destruct ot; reflexivity).
  set (m := JS.Math_min _ _).
  set (tc := _ + _).
  set (next := Worker.buy side size _ (Worker.position st)).
  assert (Hm : m == JS.Math_min (yesShares next) (noShares next)).
  { subst m next. destruct side;
      side_tests;
      apply Math_min_unique; cbn; rewrite ?JS_or_zero; reflexivity. }
  assert (Htc : tc == yesCost next + noCost next).
  { subst tc next. destruct side;
      side_tests;
      cbn; rewrite !JS_or_zero, ?(JS_or_zero price), Hfee; ring. }
  unfold Worker.CONFIG.MAX_PAIR_COST, Worker.CONFIG.PAIR_COST_BUFFER.
  destruct (JS.le m 0) eqn:E1.
  - apply JS_le_spec in E1. rewrite Hm in E1. tauto.
  - apply JS_le_false in E1.
    destruct (JS.gt (tc / m) (1.00 + 0.02)) eqn:E2.
    + apply JS_gt_spec in E2. rewrite Htc, Hm in E2. rewrite Hm in E1.
      split; [discriminate|]. intros [H|H]; exfalso; qlra.
    + apply JS_gt_false in E2. rewrite Htc, Hm in E2.
      split; [intros _|reflexivity]. right. qlra.
Qed.

(** X25. The pair-cost guard does what it is for.  When
    [canAddPairPosition] allows a buy of a non-negative size at a
    non-negative limit price, and the buy is recorded at a fill price not
    above the limit, the pair cost that [analyzePosition] reports for the
    new position, if it reports one, is at most 1.02. *)
Theorem pair_cost_guard_bounds_the_pair_cost :
  forall (st : Worker.AssetState) (side : side) (price size fill : Q)
         (orderType : orderType),
    Worker.canAddPairPosition st side price size orderType = true ->
    0 <= size -> 0 <= price -> fill <= price ->
    let p' := Worker.buy side size (fill * size) (Worker.position st) in
    forall pc,
      LockDetector.pairCost (LockDetector.analyzePosition p') = Some pc ->
      pc <= 1.02.
Proof.
  intros st side price size fill ot Hcan Hs Hp Hf p' pc Hpc.
  apply canAddPairPosition_spec in Hcan. cbv zeta in Hcan.
  set (feeRate := match ot with GTC => 0 | _ => 0.02 end) in *.
  assert (Hfee : 0 <= feeRate) by (subst feeRate; destruct ot; discriminate).
  set (next := Worker.buy side size (price * size * (1 + feeRate))
                          (Worker.position st)) in *.
  assert (Hsh : yesShares next = yesShares p' /\ noShares next = noShares p')
    by (subst next p'; destruct side; split; reflexivity).
  destruct Hsh as [Hy Hn]. rewrite Hy, Hn in Hcan.
  cbn [LockDetector.analyzePosition LockDetector.pairCost] in Hpc.
  set (m := JS.Math_min (yesShares p') (noShares p')) in *.
  destruct (JS.gt m 0) eqn:Em; [|discriminate].
  apply JS_gt_spec in Em. injection Hpc as <-.
  destruct Hcan as [Hle|Hle]; [exfalso; qlra|].
  assert (Hfs : fill * size <= price * size)
    by (apply Qmult_le_compat_r; assumption).
  assert (Hps : 0 <= price * size) by (apply Qmult_le_0_compat; assumption).
  assert (Hpsf : 0 <= price * size * feeRate)
    by (apply Qmult_le_0_compat; assumption).
  assert (Hcost : yesCost p' + noCost p' <= yesCost next + noCost next).
  { subst next p'. destruct side; cbn; qlra. }
  eapply Qle_trans; [|exact Hle].
  apply Qmult_le_compat_r; [exact Hcost|].
  apply Qlt_le_weak, Qinv_lt_0_compat. exact Em.
Qed.

Lemma pair_cost_guard_bounds_the_pair_cost_witness :
  let st := Worker.set_position (mkPosition 10 6 0 0)
              Worker.initialAssetState in
  exists pc,
    LockDetector.pairCost
      (LockDetector.analyzePosition
         (Worker.buy NO 10 (0.38 * 10) (Worker.position st))) = Some pc /\
    pc <= 1.02.
Proof.
  intros st. eexists. split; [reflexivity|].
  refine (pair_cost_guard_bounds_the_pair_cost st NO 0.40 10 0.38 FOK
            _ _ _ _ _ eq_refl);
    [reflexivity|discriminate|discriminate|discriminate].
Defined.


(** ** The states the worker reaches *)

Section Reachable.

Context {E : Type} `{ExchangeInterface E}.
Variable toFixed : Q -> nat -> string.
Variable str : Q -> string.

Lemma dispatch_coherent st assetOrder window orders info pY pN g (ex : E) c :
  coherent st -> Worker.state st <> Worker.IDLE ->
  let st' := (Worker.dispatch toFixed str st assetOrder window orders info
                              pY pN g ex c).1.1 in
  coherent st' /\ Worker.state st' <> Worker.IDLE.
Proof.
  intros Hco Hni. cbv zeta. unfold Worker.dispatch.
  destruct (Worker.state st) eqn:Est.
  - congruence.
  - (* ARMED *)
    unfold_M.
    pose proof (handleArmed_effect toFixed str st window info g c) as Ha.
    cbv zeta in Ha.
    destruct (Worker.handleArmed toFixed str st window info g c) as [st' c'].
    cbn [fst snd] in *.
    destruct Ha as (Hs & Hp & He & Hl & Hk & _).
    unfold coherent in *. rewrite Est in *. rewrite Hp, He, Hl, Hk.
    destruct Hco as (Hpos & Hco).
    destruct Hs as [Hs|[Hs|[Hs Hsh]]]; rewrite Hs.
    + split; [tauto|discriminate].
    + split; [tauto|discriminate].
    + exfalso. rewrite Hpos in Hsh. cbn in Hsh. revert Hsh. clear.
      intros H. apply (Qlt_irrefl 0). exact H.
  - (* ENTRY *)
    unfold Worker.handleEntry. unfold_M.
    unfold coherent in Hco. rewrite Est in Hco.
    destruct Hco as (Hpos & He & Hl & Hk). rewrite He.
    handler_cases; unfold coherent; cbn; rewrite ?Hl, ?Hk;
      (split; [tauto|discriminate]).
  - (* LADDERING *)
    unfold Worker.handleLaddering. unfold_M.
    unfold coherent in Hco. rewrite Est in Hco.
    destruct Hco as (He & Hl & Hk). rewrite Hl.
    handler_cases; unfold coherent; cbn; rewrite ?He, ?Hk;
      (split; [tauto|discriminate]).
  - (* LOCKING *)
    unfold Worker.handleLocking. unfold_M.
    pose proof (checkLock_locked (Worker.position st)
                  (Worker.lockDetector st) c) as (Hr & _).
    destruct (LockDetector.checkLock _ _ c) as [[r ld] c1].
    cbn [fst snd] in *.
    unfold coherent in Hco. rewrite Est in Hco.
    destruct Hco as (He & Hl & Hk).
    destruct (LockDetector.c_locked r) eqn:El.
    + unfold coherent. cbn. rewrite He, Hl, <- Hr.
      split; [tauto|discriminate].
    + handler_cases; unfold coherent; cbn; rewrite ?Est, ?He, ?Hl, <- ?Hr;
        (split; [tauto|discriminate]).
  - (* LOCKED *)
    unfold coherent in Hco. rewrite Est in Hco.
    destruct (JS.le _ _); cbn [fst snd]; unfold coherent; cbn;
      rewrite ?Est; (split; [tauto|congruence]).
  - (* RECOVERY *)
    unfold Worker.handleRecovery. unfold_M.
    unfold coherent in Hco. rewrite Est in Hco.
    destruct Hco as (He & Hl & Hk).
    handler_cases; unfold coherent; cbn; rewrite ?He, ?Hl, ?Hk;
      (split; [tauto|discriminate]).
  - (* ENDGAME *)
    unfold_M.
    destruct (Worker.handleEndgame _ _ _ _ _ _ _ _) as [ex' c'].
    cbn [fst snd]. split; [exact Hco|congruence].
Qed.

Lemma coherent_fields st st' :
  Worker.state st' = Worker.state st ->
  Worker.position st' = Worker.position st ->
  Worker.entryDone st' = Worker.entryDone st ->
  Worker.ladderDone st' = Worker.ladderDone st ->
  Worker.lockDetector st' = Worker.lockDetector st ->
  Worker.lastWindowId st' = Worker.lastWindowId st ->
  coherent st -> coherent st'.
Proof.
  intros Hs Hp He Hl Hk Hw. unfold coherent.
  rewrite Hs, Hp, He, Hl, Hk, Hw. auto.
Qed.

Lemma coherent_initial : coherent Worker.initialAssetState.
Proof. reflexivity. Qed.

Lemma processAsset_coherent asset assetOrder window orders feed
    (self : Worker.t) c :
  let st0 := Worker.initAssetState asset (Worker.assetState self) in
  let out := Worker.processAsset toFixed str asset assetOrder window orders
                                 feed self c in
  coherent st0 ->
  coherent_tick out.1.1 /\
  exists st',
    Worker.assetState out.1.2 = <[asset := st']> (Worker.assetState self) /\
    coherent st'.
Proof.
  intros st0 out Hco.
  pose proof (processAsset_stages toFixed str asset assetOrder window orders
                feed self c) as Hst.
  cbv zeta in Hst. fold st0 out in Hst.
  pose proof (beginTick_effect asset assetOrder window feed st0
                (Worker.resolutionTracker self) c) as Hbt.
  cbv zeta in Hbt.
  set (bt := Worker.beginTick asset assetOrder window feed st0
               (Worker.resolutionTracker self) c) in *.
  set (st1 := (Worker.detectNewWindow asset assetOrder window st0
                 (Worker.resolutionTracker self) c).1.1) in *.
  set (st2 := bt.1.1.1.1.1) in *.
  destruct Hbt as (_ & B1 & B2 & B3 & B4 & B5 & B6 & _).
  assert (H1 : coherent st1 /\ Worker.state st1 <> Worker.IDLE).
  { destruct (decide (Some (Worker.w_id window) = Worker.lastWindowId st0))
      as [Hsame|Hnew].
    - subst st1. rewrite (detectNewWindow_same _ _ _ _ _ _ Hsame).
      cbn [fst]. split; [exact Hco|].
      intros Hidle. unfold coherent in Hco. rewrite Hidle in Hco.
      congruence.
    - destruct (detectNewWindow_new asset assetOrder window st0
                  (Worker.resolutionTracker self) c Hnew)
        as ((F1 & F2 & F3 & F4 & _ & _ & F7 & _) & _).
      fold st1 in F1, F2, F3, F4, F7.
      unfold coherent. rewrite F1. split; [tauto|discriminate]. }
  destruct H1 as [Hco1 Hni1].
  assert (Hco2 : coherent st2)
    by (apply (coherent_fields st1); assumption).
  assert (Hni2 : Worker.state st2 <> Worker.IDLE) by congruence.
  pose proof (dispatch_coherent st2 assetOrder window orders bt.1.1.1.2
                bt.1.1.2 bt.1.2 (Worker.guardrails self)
                (Worker.exchange self) bt.2 Hco2 Hni2) as Hd.
  cbv zeta in Hd.
  set (dp := Worker.dispatch toFixed str st2 assetOrder window orders
               bt.1.1.1.2 bt.1.1.2 bt.1.2 (Worker.guardrails self)
               (Worker.exchange self) bt.2) in *.
  destruct Hd as [Hco3 Hni3].
  destruct Hst as (Has & _ & _ & Ts & Tp & Tl & _).
  split.
  - unfold coherent_tick. rewrite Ts, Tp, Tl.
    split; [exact Hni3|].
    unfold coherent in Hco3.
    destruct (Worker.state dp.1.1); try congruence;
      repeat match goal with
             | H : _ /\ _ |- _ => destruct H
             end;
      (split; [split; [intros Hx; try congruence; auto
                      |intros [Hx|Hx]; try discriminate; auto]
              |intros [Hx|Hx]; try discriminate; auto]).
  - eexists. split; [exact Has|].
    apply (coherent_fields dp.1.1); try reflexivity. exact Hco3.
Qed.

Lemma worker_run_cons j jobs (self : Worker.t) c :
  worker_run toFixed str (j :: jobs) self c =
  let s := Worker.processAsset toFixed str (j_asset j) (j_assetOrder j)
             (j_window j) (j_orders j) (j_feed j) self c in
  let r := worker_run toFixed str jobs s.1.2 s.2 in
  (s.1.1 :: r.1.1, r.1.2, r.2).
Proof.
  cbn [worker_run]. unfold_M.
  destruct (Worker.processAsset _ _ _ _ _ _ _ _ c) as [[r1 t1] c1].
  cbn [fst snd].
  destruct (worker_run toFixed str jobs t1 c1) as [[rs t2] c2]. reflexivity.
Qed.

(** X26. The states the worker reaches keep flags, lock and position in
    step with the state.  From a worker whose assets are all coherent (a
    fresh worker is), after any run of [processAsset] calls every asset is
    coherent: ARMED and ENTRY hold an empty position with no flag set and
    no lock; LADDERING has the entry done; LOCKING and RECOVERY have entry
    and ladder done and no lock; LOCKED and ENDGAME have both done and the
    lock taken; and an asset that was given a window is never IDLE.  So
    every tick reports a state other than IDLE, reports [locked] exactly
    in LOCKED and ENDGAME, and reports an empty position in ARMED and
    ENTRY. *)
Theorem reachable_states_are_coherent :
  forall (jobs : list job) (self : Worker.t) (c : Clock),
    map_Forall (fun _ st => coherent st) (Worker.assetState self) ->
    let out := worker_run toFixed str jobs self c in
    Forall coherent_tick out.1.1 /\
    map_Forall (fun _ st => coherent st) (Worker.assetState out.1.2).
Proof.
  induction jobs as [|j jobs IH]; intros self c Hall.
  - cbn. split; [constructor|exact Hall].
  - cbv zeta. rewrite worker_run_cons. cbv zeta. cbn [fst snd].
    assert (H0 : coherent (Worker.initAssetState (j_asset j)
                             (Worker.assetState self))).
    { unfold Worker.initAssetState.
      destruct (Worker.assetState self !! j_asset j) as [st|] eqn:El.
      - exact (Hall _ _ El).
      - exact coherent_initial. }
    destruct (processAsset_coherent (j_asset j) (j_assetOrder j) (j_window j)
                (j_orders j) (j_feed j) self c H0)
      as (Htick & st' & Has & Hco).
    set (s := Worker.processAsset toFixed str (j_asset j) (j_assetOrder j)
                (j_window j) (j_orders j) (j_feed j) self c) in *.
    assert (Hall' : map_Forall (fun _ st => coherent st)
                               (Worker.assetState s.1.2)).
    { rewrite Has. apply map_Forall_insert_2; assumption. }
    destruct (IH s.1.2 s.2 Hall') as [IH1 IH2].
    split; [constructor; assumption|exact IH2].
Qed.

End Reachable.

Lemma reachable_states_are_coherent_witness :
  let self := Worker.mk ([] : list order) Guardrails.CONFIG ∅ ∅ in
  let j := mkJob "BTC"
             (Worker.mkTokens (Some "up"%string) (Some "down"%string))
             (Worker.mkWindow 1700000 None 100 800) None
             (Worker.mkFeed None (OBICalculator.mkMarket None None)) in
  Forall coherent_tick
    (worker_run (fun _ _ => ""%string) (fun _ => ""%string) [j; j]
                self ticking).1.1.
Proof.
  intros self j.
  apply (reachable_states_are_coherent
           (fun _ _ => ""%string) (fun _ => ""%string) [j; j] self ticking).
  apply map_Forall_empty.
Defined.

(** ** The ladder on the shadow exchange *)

Section LadderOnShadow.

Variable fetchClobPrice : Z -> string -> string -> option (option Q).

Let X : ExchangeInterface ShadowExchange.t := shadowInterface fetchClobPrice.

Lemma gtc_rests o ex c :
  type o = GTC ->
  map ShadowExchange.so_order
      (ShadowExchange.orders (@placeOrder _ X o ex c).1.2) =
  map ShadowExchange.so_order (ShadowExchange.orders ex) ++ [o].
Proof.
  intros Ht.
  change (@placeOrder _ X o ex c)
    with (ShadowExchange.placeOrder fetchClobPrice o ex c).
  pose proof (placeOrder_orders fetchClobPrice o ex c) as Hp.
  cbv zeta in Hp.
  destruct Hp as [(Hne & _)|(_ & _ & mp & Ho & _)]; [congruence|].
  rewrite Ho, map_app. reflexivity.
Qed.

Lemma countOpenGtcOrders_snoc tokenIds (ex ex' : ShadowExchange.t) o :
  map ShadowExchange.so_order (ShadowExchange.orders ex') =
    map ShadowExchange.so_order (ShadowExchange.orders ex) ++ [o] ->
  type o = GTC -> In (Some (tokenId o)) tokenIds ->
  @Worker.countOpenGtcOrders _ X tokenIds ex' =
  S (@Worker.countOpenGtcOrders _ X tokenIds ex).
Proof.
  intros Ho Ht Hin. unfold Worker.countOpenGtcOrders.
  assert (Htok : tokenId o ∈ omap (fun t => t) tokenIds).
  { apply list_elem_of_omap. exists (Some (tokenId o)).
    split; [apply list_elem_of_In; exact Hin|reflexivity]. }
  destruct (omap (fun t => t) tokenIds) as [|t0 ts] eqn:Eo.
  - apply elem_of_nil in Htok. destruct Htok.
  - cbn [length Nat.eqb].
    change (@orders _ X ex')
      with (map ShadowExchange.so_order (ShadowExchange.orders ex')).
    change (@orders _ X ex)
      with (map ShadowExchange.so_order (ShadowExchange.orders ex)).
    rewrite Ho, List.filter_app, length_app. cbn [List.filter].
    rewrite bool_decide_eq_true_2 by exact Ht.
    rewrite bool_decide_eq_true_2 by exact Htok.
    cbn. lia.
Qed.

Lemma placeLadder_on_shadow levels :
  forall st ladderSide tok tokenIds caps ex c,
    In (Some tok) tokenIds ->
    let ex' := (@Worker.placeLadder _ X levels st ladderSide tok tokenIds
                                    caps ex c).1 in
    let n0 := @Worker.countOpenGtcOrders _ X tokenIds ex in
    let n1 := @Worker.countOpenGtcOrders _ X tokenIds ex' in
    exists prices,
      sublist prices levels /\
      map ShadowExchange.so_order (ShadowExchange.orders ex') =
        map ShadowExchange.so_order (ShadowExchange.orders ex) ++
        map (fun p => mkOrder tok "BUY" p Worker.CONFIG.LADDER_SIZE GTC)
            prices /\
      n1 = (n0 + length prices)%nat /\
      (n1 = n0 \/
       inject_Z (Z.of_nat n1) < Worker.maxOpenOrders caps + 1).
Proof.
  induction levels as [|lvl levels IH];
    intros st ladderSide tok tokenIds caps ex c Hin; cbv zeta.
  - exists []. cbn. rewrite app_nil_r.
    split; [constructor|]. split; [reflexivity|]. split; [lia|]. left.
    reflexivity.
  - cbn [Worker.placeLadder].
    destruct (JS.ge _ (Worker.maxOpenOrders caps)) eqn:Ecap.
    + exists []. cbn. rewrite app_nil_r.
      split; [apply sublist_nil_l|]. split; [reflexivity|].
      split; [lia|]. left. reflexivity.
    + destruct (Worker.canPlaceOrder st lvl _ caps); cbn [negb].
      * destruct (Worker.canAddPairPosition st ladderSide lvl _ GTC);
          cbn [negb].
        -- unfold_M.
           set (o := mkOrder tok "BUY" lvl Worker.CONFIG.LADDER_SIZE GTC).
           pose proof (gtc_rests o ex c eq_refl) as Hg.
           destruct (@placeOrder _ X o ex c) as [[res ex1] c1] eqn:Ep.
           cbn [fst snd] in *.
           assert (Hcount : @Worker.countOpenGtcOrders _ X tokenIds ex1 =
                            S (@Worker.countOpenGtcOrders _ X tokenIds ex)).
           { apply (countOpenGtcOrders_snoc tokenIds ex ex1 o);
               [exact Hg|reflexivity|exact Hin]. }
           destruct (IH st ladderSide tok tokenIds caps ex1 c1 Hin)
             as (prices & Hsub & Hord & Hn & Hcapn).
           exists (lvl :: prices).
           split; [apply sublist_skip; exact Hsub|].
           split; [rewrite Hord, Hg, <- app_assoc; reflexivity|].
           split; [rewrite Hn, Hcount; cbn [length]; lia|].
           right. destruct Hcapn as [Hsame|Hlt]; [|exact Hlt].
           rewrite Hsame, Hcount. apply JS_ge_false in Ecap.
           rewrite Nat2Z.inj_succ. unfold Z.succ. rewrite inject_Z_plus.
           change (inject_Z 1) with 1. qlra.
        -- destruct (IH st ladderSide tok tokenIds caps ex c Hin)
             as (prices & Hsub & Hord & Hn & Hcapn).
           exists prices. split; [apply sublist_cons; exact Hsub|]. auto.
      * destruct (IH st ladderSide tok tokenIds caps ex c Hin)
          as (prices & Hsub & Hord & Hn & Hcapn).
        exists prices. split; [apply sublist_cons; exact Hsub|]. auto.
Qed.

(** X27. What the ladder leaves on the shadow exchange.  [handleLaddering]
    appends to the resting orders GTC buy orders of size 5 for the token
    of the side opposite to the leader, at prices that are ladder levels
    in their order, and nothing when the ladder was already done or that
    token is missing.  The number of resting GTC orders on the two tokens
    grows by the number of orders placed, at most 5, and either stays as
    it was or ends below the open-order cap plus 1. *)
Theorem ladder_respects_the_open_order_cap :
  forall (st : Worker.AssetState) (assetOrder : Worker.tokens)
         (priceYes priceNo : Q) (caps : Worker.caps)
         (ex : ShadowExchange.t) (c : Clock),
    let tokenIds := [Worker.up assetOrder; Worker.down assetOrder] in
    let r := @Worker.handleLaddering _ X st assetOrder priceYes priceNo caps
                                     ex c in
    let n0 := @Worker.countOpenGtcOrders _ X tokenIds ex in
    let n1 := @Worker.countOpenGtcOrders _ X tokenIds r.1.2 in
    let ladderToken :=
      if bool_decide (LeaderTracker.getLeader (Worker.leaderTracker st)
                      = Some YES)
      then Worker.down assetOrder else Worker.up assetOrder in
    exists prices,
      sublist prices Worker.CONFIG.LADDER_LEVELS /\
      map ShadowExchange.so_order (ShadowExchange.orders r.1.2) =
        map ShadowExchange.so_order (ShadowExchange.orders ex) ++
        map (fun p => mkOrder (default ""%string ladderToken) "BUY" p 5 GTC)
            prices /\
      (ladderToken = None \/ Worker.ladderDone st = true -> prices = []) /\
      n1 = (n0 + length prices)%nat /\
      (n1 <= n0 + 5)%nat /\
      (n1 = n0 \/ inject_Z (Z.of_nat n1) < Worker.maxOpenOrders caps + 1).
Proof.
  intros st assetOrder pY pN caps ex c. cbv zeta.
  unfold Worker.handleLaddering. unfold_M.
  assert (Hnone : exists prices : list Q,
            sublist prices Worker.CONFIG.LADDER_LEVELS /\
            map ShadowExchange.so_order (ShadowExchange.orders ex) =
              map ShadowExchange.so_order (ShadowExchange.orders ex) ++
              map (fun p => mkOrder
                     (default ""%string
                        (if bool_decide
                              (LeaderTracker.getLeader
                                 (Worker.leaderTracker st) = Some YES)
                         then Worker.down assetOrder
                         else Worker.up assetOrder)) "BUY" p 5 GTC) prices /\
            prices = [] /\
            @Worker.countOpenGtcOrders _ X
              [Worker.up assetOrder; Worker.down assetOrder] ex =
            (@Worker.countOpenGtcOrders _ X
               [Worker.up assetOrder; Worker.down assetOrder] ex +
             length prices)%nat).
  { exists []. cbn [map length]. rewrite app_nil_r.
    split; [apply sublist_nil_l|]. repeat split. lia. }
  destruct (Worker.ladderDone st) eqn:Ed.
  - cbn [fst snd]. destruct Hnone as (prices & H1 & H2 & H3 & H4).
    exists prices. repeat split; auto; try lia.
  - set (leaderYes := bool_decide (_ = Some YES)).
    assert (Etok : (if bool_decide ((if leaderYes then NO else YES) = YES)
                    then Worker.up assetOrder else Worker.down assetOrder) =
                   (if leaderYes then Worker.down assetOrder
                    else Worker.up assetOrder)).
    { destruct leaderYes; side_tests; reflexivity. }
    rewrite Etok.
    destruct (if leaderYes then Worker.down assetOrder
              else Worker.up assetOrder) as [tok|] eqn:El.
    + assert (Hin : In (Some tok)
                       [Worker.up assetOrder; Worker.down assetOrder]).
      { rewrite <- El. destruct leaderYes; cbn; auto. }
      pose proof (placeLadder_on_shadow Worker.CONFIG.LADDER_LEVELS st
                    (if leaderYes then NO else YES) tok
                    [Worker.up assetOrder; Worker.down assetOrder]
                    caps ex c Hin) as Hl.
      cbv zeta in Hl.
      destruct (@Worker.placeLadder _ X _ _ _ _ _ _ ex c) as [ex' c'].
      cbn [fst snd] in *.
      destruct Hl as (prices & Hsub & Hord & Hn & Hcap).
      exists prices. cbn [default].
      split; [exact Hsub|]. split; [exact Hord|].
      split; [intros [Hx|Hx]; discriminate|].
      split; [exact Hn|]. split; [|exact Hcap].
      apply sublist_length in Hsub. cbn in Hsub. lia.
    + cbn [fst snd]. destruct Hnone as (prices & H1 & H2 & H3 & H4).
      exists prices. fold leaderYes in H2. rewrite El in H2.
      repeat split; auto; try lia.
Qed.

End LadderOnShadow.

(** ** The window of a tick *)

(** X28. [getWindowInfo] describes the 15-minute window of the time it
    reads: the window starts at a multiple of 900000 ms not after now and
    ends 900000 ms later, after now; its timestamp is the start in
    seconds, the one [getCurrentWindowTimestamp] gives; elapsed and
    remaining milliseconds add up to 900000, while the floored seconds
    (elapsed 0 to 899, remaining 0 to 900) add up to 899 or 900; the
    progress is in [0, 1).  With these seconds the RHR check of the
    default guardrails passes exactly from 90000 elapsed milliseconds, and
    the endgame threshold of the worker is met exactly below 11000
    remaining milliseconds. *)
Theorem window_info_is_consistent :
  forall (toFixed : Q -> nat -> string) (str : Q -> string) (c : Clock),
    let now := c 0%nat in
    let w := (MarketResolver.getWindowInfo c).1 in
    (MarketResolver.startTime w <= now < MarketResolver.endTime w)%Z /\
    MarketResolver.endTime w = (MarketResolver.startTime w + 900000)%Z /\
    (MarketResolver.startTime w mod 900000 = 0)%Z /\
    (MarketResolver.windowTimestamp w * 1000)%Z = MarketResolver.startTime w /\
    MarketResolver.windowTimestamp w =
      (MarketResolver.getCurrentWindowTimestamp c).1 /\
    (MarketResolver.elapsedMs w + MarketResolver.remainingMs w = 900000)%Z /\
    (0 <= MarketResolver.elapsedSec w <= 899)%Z /\
    (0 <= MarketResolver.remainingSec w <= 900)%Z /\
    (899 <= MarketResolver.elapsedSec w + MarketResolver.remainingSec w
         <= 900)%Z /\
    (0 <= MarketResolver.progress w /\ MarketResolver.progress w < 1) /\
    (Guardrails.passed
       (Guardrails.checkRHR toFixed str Guardrails.CONFIG
          (inject_Z (MarketResolver.elapsedSec w)) None) = true <->
     (90000 <= MarketResolver.elapsedMs w)%Z) /\
    (JS.le (inject_Z (MarketResolver.remainingSec w))
           Worker.CONFIG.ENDGAME_SECONDS = true <->
     (MarketResolver.remainingMs w < 11000)%Z).
Proof.
  intros toFixed str c now w.
  subst w. unfold MarketResolver.getWindowInfo,
    MarketResolver.getCurrentWindowTimestamp. unfold_M.
  cbn [fst MarketResolver.startTime MarketResolver.endTime
       MarketResolver.windowTimestamp MarketResolver.elapsedMs
       MarketResolver.remainingMs MarketResolver.elapsedSec
       MarketResolver.remainingSec MarketResolver.progress].
  fold now.
  change (15 * 60 * 1000)%Z with 900000%Z.
  change (15 * 60)%Z with 900%Z.
  set (q := (now / 900000)%Z).
  assert (Hq : (900000 * q <= now < 900000 * q + 900000)%Z).
  { subst q. pose proof (Z.mul_div_le now 900000 ltac:(lia)).
    pose proof (Z.mul_succ_div_gt now 900000 ltac:(lia)). lia. }
  assert (Hts : (q * 900000 / 1000 = q * 900)%Z).
  { replace (q * 900000)%Z with (q * 900 * 1000)%Z by lia.
    apply Z.div_mul. lia. }
  rewrite Hts.
  set (e := (now - q * 900000)%Z).
  assert (He : (0 <= e < 900000)%Z) by (subst e; lia).
  assert (Hes : (0 <= e / 1000 <= 899)%Z).
  { split; [apply Z.div_pos; lia|].
    apply Z.lt_succ_r. apply Z.div_lt_upper_bound; lia. }
  replace (q * 900000 + 900000 - now)%Z with (900000 - e)%Z by (subst e; lia).
  assert (Hrs : (0 <= (900000 - e) / 1000 <= 900)%Z).
  { split.
    - apply Z.div_pos; lia.
    - apply Z.div_le_upper_bound; lia. }
  assert (Hsum : (899 <= e / 1000 + (900000 - e) / 1000 <= 900)%Z).
  { pose proof (Z.mul_div_le e 1000 ltac:(lia)).
    pose proof (Z.mul_succ_div_gt e 1000 ltac:(lia)).
    pose proof (Z.mul_div_le (900000 - e) 1000 ltac:(lia)).
    pose proof (Z.mul_succ_div_gt (900000 - e) 1000 ltac:(lia)). lia. }
  split; [lia|]. split; [lia|]. split.
  { apply Z.mod_mul. lia. }
  split; [lia|]. split.
  { subst q. rewrite (Z.div_div now 1000 900) by lia. reflexivity. }
  split; [lia|]. split; [exact Hes|]. split; [exact Hrs|].
  split; [exact Hsum|]. split.
  { split.
    - apply Qle_shift_div_l; [reflexivity|]. rewrite Qmult_0_l.
      change 0 with (inject_Z 0). rewrite <- Zle_Qle. lia.
    - apply Qlt_shift_div_r; [reflexivity|]. rewrite Qmult_1_l.
      rewrite <- Zlt_Qlt. lia. }
  split.
  - rewrite checkRHR_passed. cbn [default Guardrails.RHR_THRESHOLD
                                   Guardrails.CONFIG].
    set (x := inject_Z (e / 1000)).
    assert (Hx : 90 <= x <-> (90 <= e / 1000)%Z).
    { subst x. change 90 with (inject_Z 90). rewrite <- Zle_Qle. tauto. }
    assert (Hd : 0.10 <= x / 900 <-> 90 <= x).
    { split; intros Hy.
      - assert (Hm : x / 900 * 900 == x) by (field; discriminate). qlra.
      - apply Qle_shift_div_l; [reflexivity|]. qlra. }
    rewrite Hd, Hx. split; intros H90.
    + pose proof (Z.mul_div_le e 1000 ltac:(lia)). lia.
    + apply Z.div_le_lower_bound; lia.
  - rewrite JS_le_spec. unfold Worker.CONFIG.ENDGAME_SECONDS.
    change 10 with (inject_Z 10). rewrite <- Zle_Qle.
    split; intros H.
    + pose proof (Z.mul_succ_div_gt (900000 - e) 1000 ltac:(lia)). lia.
    + apply Z.lt_succ_r. apply Z.div_lt_upper_bound; lia.
Qed.

(** ** The endgame buy *)

Section Endgame.

Context {E : Type} `{ExchangeInterface E}.
Variable toFixed : Q -> nat -> string.
Variable str : Q -> string.


End Endgame.



(** ** The orders of the foreman *)

Lemma get_elem (scores : Foreman.scores) a r :
  Foreman.get scores a = Some r -> exists a', (a', r) ∈ scores.
Proof.
  induction scores as [|[a0 r0] rest IH]; cbn [Foreman.get]; [discriminate|].
  destruct (String.eqb a0 a).
  - intros [= <-]. exists a0. apply list_elem_of_here.
  - intros Hg. destruct (IH Hg) as [a' Ha']. exists a'.
    apply list_elem_of_further. exact Ha'.
Qed.

Lemma sum_of_signs {A} (f : A -> Z) (l : list A) (acc : Z) :
  (forall a, -1 <= f a <= 1)%Z ->
  (Z.abs (fold_left (fun sum a => sum + f a) l acc - acc) <=
   Z.of_nat (length l))%Z.
Proof.
  intros Hf. revert acc.
  induction l as [|a l IH]; intros acc; cbn [fold_left length].
  - lia.
  - specialize (IH (acc + f a)%Z). specialize (Hf a). lia.
Qed.

Lemma windFactor_range (scores : Foreman.scores) :
  directions_are_signs scores ->
  0 <= Foreman.windFactor scores /\ Foreman.windFactor scores <= 1.
Proof.
  intros Hs. unfold Foreman.windFactor.
  destruct (Nat.eqb_spec (length scores) 0) as [_|Hn]; [split; qlra|].
  assert (Hb : (Z.abs (Foreman.windSum scores) <=
                Z.of_nat (length scores))%Z).
  { unfold Foreman.windSum.
    pose proof (sum_of_signs
                  (fun a => match Foreman.get scores a with
                            | Some s => ScoreCalculator.micro
                                          (ScoreCalculator.r_directions s)
                            | None => 0%Z
                            end) (map fst scores) 0%Z) as Hsum.
    rewrite length_map, Z.sub_0_r in Hsum. apply Hsum.
    intros a. destruct (Foreman.get scores a) as [r|] eqn:Eg; [|lia].
    destruct (get_elem _ _ _ Eg) as [a' Ha'].
    unfold directions_are_signs in Hs. rewrite Forall_forall in Hs.
    exact (Hs _ Ha'). }
  assert (Hpos : 0 < inject_Z (Z.of_nat (length scores))).
  { change 0 with (inject_Z 0). rewrite <- Zlt_Qlt. lia. }
  split.
  - apply Qle_shift_div_l; [exact Hpos|]. rewrite Qmult_0_l.
    change 0 with (inject_Z 0). rewrite <- Zle_Qle. lia.
  - apply Qle_shift_div_r; [exact Hpos|]. rewrite Qmult_1_l.
    rewrite <- Zle_Qle. exact Hb.
Qed.

Lemma clamp_range x :
  0 <= JS.Math_max 0 (JS.Math_min 1 x) /\ JS.Math_max 0 (JS.Math_min 1 x) <= 1.
Proof.
  unfold JS.Math_max, JS.Math_min.
  destruct (JS.lt x 1) eqn:E1.
  - apply JS_lt_spec in E1.
    destruct (JS.lt 0 x) eqn:E2.
    + apply JS_lt_spec in E2. split; qlra.
    + split; qlra.
  - change (JS.lt 0 1) with true. cbv iota. split; qlra.
Qed.

Section ForemanFacts.

Variable resolveMarket : string -> bool.
Variable getRegime : string -> RegimeTracker.REGIMES.
Variable remainingSec : Z.
Variable scores : Foreman.scores.

Let body := Foreman.decide getRegime remainingSec scores.
Let loop := Foreman.decideAll resolveMarket getRegime remainingSec scores.

(** One round of the loop: the counter moves by one exactly for a
    candidate, and a candidate is started unless the counter passes 2. *)
Lemma decide_spec asset k :
  let d := (body asset k).1 in
  let k' := (body asset k).2 in
  k' = (k + (if candidate d then 1 else 0))%Z /\
  Foreman.is_start (Foreman.a_order d) =
    (candidate d && (k + 1 <=? 2)%Z) /\
  Foreman.a_asset d = asset /\
  Foreman.a_regime d = getRegime asset /\
  (0 <= Foreman.a_score d /\ Foreman.a_score d <= 1) /\
  (Foreman.a_order d = ScoreCalculator.HOLD -> 0.35 <= Foreman.a_score d) /\
  (Foreman.get scores asset = None ->
   Foreman.a_order d = ScoreCalculator.STOP /\ Foreman.a_score d = 0) /\
  (directions_are_signs scores ->
   0.7 <= Foreman.windBoost d /\ Foreman.windBoost d <= 1.2).
Proof.
  cbv zeta. unfold body. unfold Foreman.decide.
  set (boost := if (if (Foreman.windSum scores =? 0)%Z then true else _)
                then _ else _).
  assert (Hboost : directions_are_signs scores ->
                   0.7 <= boost /\ boost <= 1.2).
  { intros Hs. destruct (windFactor_range scores Hs) as [H0 H1].
    subst boost. destruct (if (Foreman.windSum scores =? 0)%Z then _ else _);
      split; qlra. }
  destruct (Foreman.get scores asset) as [s|] eqn:Eg.
  - set (adj := JS.Math_max 0 _).
    pose proof (clamp_range (ScoreCalculator.score s * boost)) as Hadj.
    fold adj in Hadj.
    unfold candidate.
    destruct (JS.ge adj 0.55 && negb (Foreman.is_choppy (getRegime asset)))
      eqn:Ec.
    + cbn [fst snd Foreman.a_order Foreman.a_score Foreman.a_regime
           Foreman.a_asset Foreman.windBoost Foreman.is_start andb].
      rewrite Ec. unfold Foreman.RISK_CAPS.max_concurrent.
      repeat split; try tauto; try discriminate.
      * destruct (Z.ltb_spec 2 (k + 1)), (Z.leb_spec (k + 1) 2);
          cbn; try reflexivity; lia.
      * destruct (2 <? k + 1)%Z; cbn; [intros _|discriminate].
        apply andb_prop in Ec. destruct Ec as [Ec _].
        apply JS_ge_spec in Ec. qlra.
    + destruct (JS.ge adj 0.35) eqn:E35;
        cbn [fst snd Foreman.a_order Foreman.a_score Foreman.a_regime
             Foreman.a_asset Foreman.windBoost Foreman.is_start andb];
        rewrite Ec, ?andb_false_r; cbn [andb];
        repeat split; try tauto; try discriminate; try lia.
      intros _. apply JS_ge_spec in E35. exact E35.
  - unfold candidate.
    cbn [fst snd Foreman.a_order Foreman.a_score Foreman.a_regime
         Foreman.a_asset Foreman.windBoost Foreman.is_start andb].
    rewrite andb_false_r.
    change (JS.ge 0 0.55) with false. cbn [andb].
    repeat split; try tauto; try discriminate; try lia; try qlra.
Qed.

Lemma decideAll_acc assets acc k :
  loop assets acc k =
  (acc ++ (loop assets [] k).1, (loop assets [] k).2).
Proof.
  unfold loop. revert acc k.
  induction assets as [|a rest IH]; intros acc k; cbn [Foreman.decideAll].
  - rewrite app_nil_r. reflexivity.
  - destruct (negb (resolveMarket a)); [apply IH|].
    destruct (Foreman.decide getRegime remainingSec scores a k) as [d k'].
    rewrite (IH (acc ++ [d])), (IH ([] ++ [d])). cbn [fst snd app].
    rewrite <- app_assoc. reflexivity.
Qed.

Lemma decideAll_cons a rest k :
  loop (a :: rest) [] k =
  if resolveMarket a
  then ((body a k).1 :: (loop rest [] (body a k).2).1,
        (loop rest [] (body a k).2).2)
  else loop rest [] k.
Proof.
  unfold loop, body. cbn [Foreman.decideAll].
  destruct (resolveMarket a); cbn [negb]; [|reflexivity].
  destruct (Foreman.decide getRegime remainingSec scores a k) as [d k'].
  cbn [fst snd app].
  exact (decideAll_acc rest [d] k').
Qed.

Lemma candidates_cons d l :
  candidates (d :: l) = ((if candidate d then 1 else 0) + candidates l)%Z.
Proof.
  unfold candidates. destruct (candidate d) eqn:Hc.
  - rewrite filter_cons_True by exact Hc. cbn [length]. lia.
  - rewrite filter_cons_False by congruence. lia.
Qed.

Lemma starts_cons d l :
  starts (d :: l) =
  ((if Foreman.is_start (Foreman.a_order d) then 1 else 0) + starts l)%Z.
Proof.
  unfold starts. destruct (Foreman.is_start (Foreman.a_order d)) eqn:Hc.
  - rewrite filter_cons_True by exact Hc. cbn [length]. lia.
  - rewrite filter_cons_False by congruence. lia.
Qed.

Lemma decideAll_spec assets :
  forall k,
    let r := loop assets [] k in
    map Foreman.a_asset r.1 = filter (fun a => resolveMarket a = true) assets /\
    r.2 = (k + candidates r.1)%Z /\
    (0 <= k -> starts r.1 = Z.min r.2 2 - Z.min k 2)%Z /\
    (forall i d, r.1 !! i = Some d ->
       (Foreman.is_start (Foreman.a_order d) = true <->
        candidate d = true /\ (k + candidates (take i r.1) < 2)%Z)) /\
    Forall (fun d =>
              Foreman.a_regime d = getRegime (Foreman.a_asset d) /\
              (0 <= Foreman.a_score d /\ Foreman.a_score d <= 1) /\
              (Foreman.a_order d = ScoreCalculator.HOLD ->
               0.35 <= Foreman.a_score d) /\
              (Foreman.get scores (Foreman.a_asset d) = None ->
               Foreman.a_order d = ScoreCalculator.STOP /\
               Foreman.a_score d = 0) /\
              (directions_are_signs scores ->
               0.7 <= Foreman.windBoost d /\ Foreman.windBoost d <= 1.2))
           r.1.
Proof.
  induction assets as [|a rest IH]; intros k; cbv zeta.
  - unfold loop. cbn [Foreman.decideAll fst snd map].
    split; [reflexivity|]. split; [unfold candidates; cbn; lia|].
    split; [intros _; unfold starts; cbn; lia|].
    split; [|constructor].
    intros i d Hi. rewrite lookup_nil in Hi. discriminate.
  - rewrite decideAll_cons.
    destruct (resolveMarket a) eqn:Em.
    + rewrite filter_cons_True by exact Em.
      pose proof (decide_spec a k) as Hd. cbv zeta in Hd.
      set (d := (body a k).1) in *. set (k' := (body a k).2) in *.
      destruct Hd as (Hk & Hst & Ha & Hr & Hsc & Hh & Hn & Hw).
      specialize (IH k'). cbv zeta in IH.
      destruct IH as (I1 & I2 & I3 & I4 & I5).
      cbn [fst snd map]. rewrite candidates_cons, starts_cons.
      split; [rewrite Ha, I1; reflexivity|].
      split; [lia|].
      split.
      { intros Hk0. rewrite I3 by (destruct (candidate d); lia).
        rewrite Hst. destruct (candidate d), (Z.leb_spec (k + 1) 2);
          cbn [andb]; lia. }
      split.
      { intros [|i] d' Hi.
        - cbn in Hi. injection Hi as <-. cbn [take].
          change (candidates []) with 0%Z.
          rewrite Hst, andb_true_iff, Z.leb_le.
          split; intros [H1 H2]; split; auto; lia.
        - cbn [lookup] in Hi. change ((d :: ?l) !! S i) with (l !! i) in Hi.
          cbn [take]. rewrite candidates_cons.
          rewrite (I4 i d' Hi). rewrite Hk.
          split; intros [H1 H2]; split; auto; lia. }
      constructor; [|exact I5].
      rewrite Ha. repeat split; tauto.
    + rewrite filter_cons_False by congruence.
      exact (IH k).
Qed.

(** X29. One round of the foreman over the assets, when the micro
    directions of the scores are signs.  Exactly the assets whose market
    was found get an entry, in asset order.  [activeCount] counts the
    candidates (adjusted score at least 0.55 and a regime other than
    CHOPPY), not the assets started: START goes to a candidate exactly
    when fewer than two candidates come before it, so the number of START
    orders is the smaller of [activeCount] and 2.  Every adjusted score
    is between 0 and 1, every wind boost between 0.7 and 1.2, an asset on
    HOLD has an adjusted score of 0.35 at least, and an asset without a
    score is stopped with an adjusted score of 0. *)
Theorem foreman_starts_the_first_two_candidates :
  forall assets : list string,
    directions_are_signs scores ->
    let r := Foreman.decideAll resolveMarket getRegime remainingSec scores
                               assets [] 0 in
    let assetsData := r.1 in
    let activeCount := r.2 in
    map Foreman.a_asset assetsData =
      filter (fun a => resolveMarket a = true) assets /\
    activeCount = candidates assetsData /\
    starts assetsData = Z.min activeCount 2 /\
    (forall i d, assetsData !! i = Some d ->
       (Foreman.a_order d = ScoreCalculator.START <->
        candidate d = true /\ (candidates (take i assetsData) < 2)%Z)) /\
    Forall (fun d =>
              Foreman.a_regime d = getRegime (Foreman.a_asset d) /\
              (0 <= Foreman.a_score d /\ Foreman.a_score d <= 1) /\
              (0.7 <= Foreman.windBoost d /\ Foreman.windBoost d <= 1.2) /\
              (Foreman.a_order d = ScoreCalculator.HOLD ->
               0.35 <= Foreman.a_score d) /\
              (Foreman.get scores (Foreman.a_asset d) = None ->
               Foreman.a_order d = ScoreCalculator.STOP /\
               Foreman.a_score d = 0))
           assetsData.
Proof.
  intros assets Hs. cbv zeta.
  destruct (decideAll_spec assets 0) as (H1 & H2 & H3 & H4 & H5).
  unfold loop in H1, H2, H3, H4, H5.
  split; [exact H1|]. split; [lia|].
  split; [specialize (H3 ltac:(lia)); lia|].
  split.
  - intros i d Hi. rewrite <- (H4 i d Hi).
    destruct (Foreman.a_order d); cbn; split; congruence.
  - eapply Forall_impl; [exact H5|].
    intros d (Hr & Hsc & Hh & Hn & Hw). repeat split; tauto.
Qed.

End ForemanFacts.

Lemma foreman_starts_the_first_two_candidates_witness :
  directions_are_signs example_scores /\
  let r := Foreman.decideAll (fun _ => true)
             (fun _ => RegimeTracker.STEADY) 100 example_scores
             ["BTC"; "SOL"; "XRP"]%string [] 0 in
  r.2 = candidates r.1 /\ starts r.1 = Z.min r.2 2.
Proof.
  assert (Hs : directions_are_signs example_scores).
  { repeat constructor; cbn; lia. }
  split; [exact Hs|].
  destruct (foreman_starts_the_first_two_candidates (fun _ => true)
              (fun _ => RegimeTracker.STEADY) 100 example_scores
              ["BTC"; "SOL"; "XRP"]%string Hs) as (_ & H2 & H3 & _).
  split; assumption.
Defined.
